(** * Video_Analyser: frame-sequence quality analysis, shallow embedding

    The Python sources embedded here are
      - [batch_analyze.py]                    (score aggregation, sequential batch),
      - [video_analyzer.py]                   (FPS buckets, duplicate classifier,
                                               motion continuity, wobble),
      - [video_analyser/analyzer.py]          (pairwise similarity and motion),
      - [video_analyser/batch_processor.py]   (thread-pool batch runner).

    Numbers.  Python floats are read as exact rationals ([Q]); decimal
    literals such as [0.995] are the rationals they denote.  Equality of
    scores is [Qeq] ([==]).  Square root and arc tangent, which have no
    rational closed form, and the OpenCV primitives (resize, dense optical
    flow, template matching) are the operations of a class [Backend] that
    the analyzers take as parameter; the few facts about them that a proof
    uses are hypotheses of its statement, and [Reference.backend] is an
    instance that computes.

    Exceptions.  A function that can raise returns [exn + result]; calls
    are sequenced with the bind of that sum. *)

From Stdlib Require Import QArith Qround Qabs Qminmax Lqa Lia ZArith List Permutation.
From Stdlib Require Import Ascii String.
From stdpp Require Import gmap strings list fin_maps sorting.

Local Open Scope Q_scope.

(** ** Frames, motion fields and the numeric backend *)

(** A grayscale buffer: rows of 8-bit intensities.  A decoded frame has at
    least one pixel. *)
Definition gray := list (list Z).

(** A dense motion field: rows of displacement vectors [(dx, dy)]. *)
Definition flow_field := list (list (Q * Q)).

(** The operations the analyzers take from NumPy and OpenCV. *)
Class Backend := {
  (** [np.sqrt] *)
  sqrt : Q -> Q;
  (** [np.arctan2(y, x)] *)
  arctan2 : Q -> Q -> Q;
  (** [cv2.resize(img, (160, 120))] *)
  resize : gray -> gray;
  (** [cv2.calcOpticalFlowFarneback(prev, curr, None, ...)] *)
  calcOpticalFlowFarneback : gray -> gray -> flow_field;
  (** [cv2.matchTemplate(image, templ, cv2.TM_CCOEFF_NORMED)[0][0]] on two
      buffers of one shape *)
  matchTemplate : gray -> gray -> Q
}.

(** A result dictionary of an analyzer, as the aggregator reads it: section
    names mapped to dictionaries of numbers
    ([fps['overall_stats']['std_fps']]).  Entries that are not numbers
    (flags, index lists, [None]) are kept beside it where a definition
    needs them. *)
Abbreviation result_dict := (gmap string (gmap string Q)).

(** ** Python and NumPy arithmetic *)

#[global] Instance Qle_dec : RelDecision Qle.
Proof.
  intros x y. destruct (Qlt_le_dec y x) as [Hlt | Hle].
  - right. apply Qlt_not_le. exact Hlt.
  - left. exact Hle.
Defined.

#[global] Instance Qlt_dec : RelDecision Qlt.
Proof.
  intros x y. destruct (Qlt_le_dec x y) as [Hlt | Hle].
  - left. exact Hlt.
  - right. apply Qle_not_lt. exact Hle.
Defined.

Module Py.

(** [x > y] and [x >= y] on floats, as booleans. *)
Definition gtb (x y : Q) : bool := negb (Qle_bool x y).
Definition geb (x y : Q) : bool := Qle_bool y x.

(** [d.get(k, dflt)] on a dictionary of numbers. *)
Definition get (d : gmap string Q) (k : string) (dflt : Q) : Q :=
  default dflt (d !! k).

(** [sum(xs)]: Python's left fold from [0]. *)
Definition sum (xs : list Q) : Q := fold_left Qplus xs 0.

(** [len(xs)] as a number. *)
Definition len {A} (xs : list A) : Q := inject_Z (Z.of_nat (length xs)).

(** [np.mean] and [np.var] (population variance).  Division is that of
    [Q]; the arrays the analyzers average are non-empty. *)
Definition mean (xs : list Q) : Q := sum xs / len xs.

Definition var (xs : list Q) : Q :=
  let mu := mean xs in
  mean (map (fun x => (x - mu) * (x - mu)) xs).

(** [np.std]: the square root of the population variance. *)
Definition std `{Backend} (xs : list Q) : Q := sqrt (var xs).

(** [np.min] and [np.max] of a non-empty array. *)
Definition min (xs : list Q) : Q :=
  match xs with [] => 0 | x :: xs' => fold_left Qmin xs' x end.

Definition max (xs : list Q) : Q :=
  match xs with [] => 0 | x :: xs' => fold_left Qmax xs' x end.

(** [np.median]: the middle of the sorted array, or the mean of the two
    middle elements. *)
Definition median (xs : list Q) : Q :=
  let s := merge_sort Qle xs in
  let n := length xs in
  if Nat.even n
  then (nth (n / 2 - 1) s 0 + nth (n / 2) s 0) / 2
  else nth (n / 2) s 0.

(** [int(x)]: truncation toward zero. *)
Definition int (x : Q) : Z := Z.quot (Qnum x) (Zpos (Qden x)).

(** [round(y)] to the nearest integer, ties to the even one. *)
Definition round_half_even (y : Q) : Z :=
  let f := Qfloor y in
  let r := y - inject_Z f in
  match Qcompare r (1 # 2) with
  | Lt => f
  | Gt => (f + 1)%Z
  | Eq => if Z.even f then f else (f + 1)%Z
  end.

(** [round(x, ndigits)]. *)
Definition round (x : Q) (ndigits : Z) : Q :=
  let scale := inject_Z (10 ^ ndigits) in
  inject_Z (round_half_even (x * scale)) / scale.

End Py.

(** ** batch_analyze.py: the quality score aggregator *)

Module Aggregator.

(** The grade labels of [calculate_overall_score]:
    excellent, good, fair, poor, very poor. *)
Inductive grade := Excellent | Good | Fair | Poor | VeryPoor.

(** The [scores] dictionary.  Every branch of the function stores each of
    the six sub-score keys, so the keys are fields. *)
Record scores := {
  fps_stability : Q;
  pts_jitter : Q;
  duplicate_frames : Q;
  motion_continuity : Q;
  wobble : Q;
  quality : Q;
  total : Q;
  score_grade : grade
}.

Definition fps_stability_of (fps : result_dict) : Q :=
  match fps !! "overall_stats"%string with
  | Some fps_stats =>
      let cv :=
        if Py.gtb (Py.get fps_stats "mean_fps" 0) 0
        then Py.get fps_stats "std_fps" 0 / Py.get fps_stats "mean_fps" 1 * 100
        else 100 in
      let fps_stability_score := Qmax 0 (25 - cv * (1 # 2)) in
      Py.round fps_stability_score 2
  | None => 0
  end.

Definition pts_jitter_of (motion : result_dict) : Q :=
  match motion !! "effective_fps_pts_jitter"%string with
  | Some pts_data =>
      let jitter_pct := Py.get pts_data "jitter_percentage" 100 in
      let pts_score := Qmax 0 (15 - jitter_pct * (3 # 10)) in
      Py.round pts_score 2
  | None => 0
  end.

Definition duplicate_frames_of (motion : result_dict) : Q :=
  match motion !! "duplicate_frame_ratio"%string with
  | Some dup_data =>
      let dup_ratio := Py.get dup_data "total_duplicate_ratio" 1 * 100 in
      let dup_score := Qmax 0 (15 - dup_ratio * 3) in
      Py.round dup_score 2
  | None => 0
  end.

Definition motion_continuity_of (motion : result_dict) : Q :=
  match motion !! "motion_continuity"%string with
  | Some motion_data =>
      let continuity_score :=
        Py.get motion_data "motion_continuity_score" 0 * (1 # 4) in
      Py.round continuity_score 2
  | None => 0
  end.

Definition wobble_of (motion : result_dict) : Q :=
  match motion !! "wobble_distortion"%string with
  | Some wobble_data =>
      let wobble_score_val := Py.get wobble_data "wobble_distortion_score" 100 in
      let wobble_score := Qmax 0 (10 - wobble_score_val * (1 # 10)) in
      Py.round wobble_score 2
  | None => 0
  end.

Definition quality_of (basic : result_dict) : Q :=
  match basic !! "resolution"%string with
  | Some resolution =>
      let width := Py.get resolution "width" 0 in
      let height := Py.get resolution "height" 0 in
      if Py.geb width 3840 || Py.geb height 2160 then 10
      else if Py.geb width 1920 || Py.geb height 1080 then 8
      else if Py.geb width 1280 || Py.geb height 720 then 5
      else 3
  | None => 0
  end.

Definition grade_of (total_score : Q) : grade :=
  if Py.geb total_score 90 then Excellent
  else if Py.geb total_score 80 then Good
  else if Py.geb total_score 70 then Fair
  else if Py.geb total_score 60 then Poor
  else VeryPoor.

(** [calculate_overall_score(basic, fps, dynamics, motion)]; [dynamics] is
    accepted and not read. *)
Definition calculate_overall_score
    (basic fps dynamics motion : result_dict) : scores :=
  let s1 := fps_stability_of fps in
  let s2 := pts_jitter_of motion in
  let s3 := duplicate_frames_of motion in
  let s4 := motion_continuity_of motion in
  let s5 := wobble_of motion in
  let s6 := quality_of basic in
  let total_score := Py.sum [s1; s2; s3; s4; s5; s6] in
  {| fps_stability := s1; pts_jitter := s2; duplicate_frames := s3;
     motion_continuity := s4; wobble := s5; quality := s6;
     total := Py.round total_score 2;
     score_grade := grade_of total_score |}.

End Aggregator.

(** ** The decoded video *)

(** What [cv2.VideoCapture] yields for an opened file: the declared
    properties, the frames [cap.read()] returns until it fails (already
    converted to grayscale), and the position [CAP_PROP_POS_MSEC] reported
    after each [cap.grab()]. *)
Record video := {
  declared_fps : Q;
  total_frame_count : Z;
  width : Z;
  height : Z;
  frames : list gray;
  pos_msec : list Q
}.

(** ** Exceptions *)

(** The exceptions the analyzers raise: on a missing path, on a file the
    decoder cannot open, and on a division or a modulo by zero. *)
Inductive exn :=
  | FileNotFoundError (path : string)
  | ValueError (path : string)
  | ZeroDivisionError.

(** [str(e)], up to the fixed wording of the message. *)
Definition exn_str (e : exn) : string :=
  match e with
  | FileNotFoundError path => path
  | ValueError path => path
  | ZeroDivisionError => "division by zero"
  end.

(** Sequencing: the first exception ends the computation. *)
#[global] Instance exn_ret : MRet (sum exn) := fun A x => inr x.

#[global] Instance exn_bind : MBind (sum exn) :=
  fun A B k m => match m with inl e => inl e | inr x => k x end.

(** [raise ZeroDivisionError] when the test holds. *)
Definition raise_if (test : bool) : exn + unit :=
  if test then inl ZeroDivisionError else inr tt.

(** The loop shared by the pixel analyzers:
    [if frame_number % sample_rate != 0: frame_number += 1; continue]
    and otherwise the body, then [frame_number += 1], for a stride that
    is not zero. *)
Definition strided_loop {S : Type} (sample_rate : Z)
    (body : Z -> gray -> S -> S) (fs : list gray) (init : S) : S :=
  snd (fold_left
         (fun '(frame_number, st) frame =>
            if bool_decide ((frame_number mod sample_rate)%Z <> 0%Z)
            then ((frame_number + 1)%Z, st)
            else ((frame_number + 1)%Z, body frame_number frame st))
         fs (0%Z, init)).

(** With the stride zero, [frame_number % sample_rate] raises on the first
    frame read. *)
Definition zero_stride (sample_rate : Z) (fs : list gray) : bool :=
  match fs with
  | [] => false
  | _ :: _ => (sample_rate =? 0)%Z
  end.

(** ** video_analyzer.py: analyze_fps_dynamics *)

Module Fps.

(** [timestamp = frame_number / declared_fps if declared_fps > 0 else 0] *)
Definition timestamp_of (declared_fps : Q) (frame_number : Z) : Q :=
  if Py.gtb declared_fps 0 then inject_Z frame_number / declared_fps else 0.

(** State of the reading loop: the [defaultdict(int)] of per-second
    counts, the timestamp records and the frame counter. *)
Record reader := {
  frames_per_second : gmap Z Z;
  frame_timestamps : list (Z * Q * Z);
  frame_number : Z
}.

Definition reader_init : reader :=
  {| frames_per_second := ∅; frame_timestamps := []; frame_number := 0 |}.

Definition read_frame (declared_fps : Q) (st : reader) (frame : gray) : reader :=
  let timestamp := timestamp_of declared_fps (frame_number st) in
  let second := Py.int timestamp in
  {| frames_per_second :=
       <[second := (default 0 (frames_per_second st !! second) + 1)%Z]>
         (frames_per_second st);
     frame_timestamps :=
       frame_timestamps st ++ [(frame_number st, timestamp, second)];
     frame_number := (frame_number st + 1)%Z |}.

Definition read_all (v : video) : reader :=
  fold_left (read_frame (declared_fps v)) (frames v) reader_init.

(** [sorted(frames_per_second.keys())] and its last element, if any. *)
Definition all_seconds {A} (m : gmap Z A) : list Z :=
  merge_sort Z.le (map fst (map_to_list m)).

Definition last_second {A} (m : gmap Z A) : option Z := last (all_seconds m).

(** One entry of [per_second_fps]. *)
Record second_fps := {
  fps : Q;
  frame_count : Z;
  is_complete_second : bool;
  actual_duration : Q
}.

Definition per_second_entry (last : option Z) (total_duration : Q)
    (second frame_count : Z) : second_fps :=
  let is_complete := negb (bool_decide (Some second = last)) in
  let actual_duration_of_last_second := total_duration - inject_Z second in
  let fps :=
    if is_complete then inject_Z frame_count
    else if Py.gtb actual_duration_of_last_second 0
         then inject_Z frame_count / actual_duration_of_last_second
         else inject_Z frame_count in
  {| fps := fps;
     frame_count := frame_count;
     is_complete_second := is_complete;
     actual_duration :=
       if is_complete then total_duration else actual_duration_of_last_second |}.

(** [actual_duration = frame_number / declared_fps if declared_fps > 0 else 0] *)
Definition duration_of (v : video) : Q :=
  timestamp_of (declared_fps v) (frame_number (read_all v)).

Definition per_second_fps (v : video) : gmap Z second_fps :=
  let counts := frames_per_second (read_all v) in
  map_imap
    (fun second frame_count =>
       Some (per_second_entry (last_second counts) (duration_of v)
               second frame_count))
    counts.

(** The per-second rates in key order, all of them and the complete ones. *)
Definition fps_values (keep : second_fps -> bool) (m : gmap Z second_fps) : list Q :=
  map fps (filter (fun d => keep d = true) (omap (fun k => m !! k) (all_seconds m))).

(** The numeric entries of [overall_stats]. *)
Definition stats_of `{Backend} (declared : Q) (values : list Q)
    (complete total : nat) : gmap string Q :=
  {[ "declared_fps"%string := declared;
     "mean_fps"%string := Py.mean values;
     "std_fps"%string := Py.std values;
     "min_fps"%string := Py.min values;
     "max_fps"%string := Py.max values;
     "median_fps"%string := Py.median values;
     "complete_seconds_count"%string := inject_Z (Z.of_nat complete);
     "total_seconds_count"%string := inject_Z (Z.of_nat total) ]}.

Definition overall_stats `{Backend} (v : video) : gmap string Q :=
  let complete_seconds_fps := fps_values is_complete_second (per_second_fps v) in
  let all_fps_values := fps_values (fun _ => true) (per_second_fps v) in
  match complete_seconds_fps, all_fps_values with
  | _ :: _, _ =>
      stats_of (declared_fps v) complete_seconds_fps
        (length complete_seconds_fps) (length all_fps_values)
  | [], _ :: _ =>
      stats_of (declared_fps v) all_fps_values 0 (length all_fps_values)
  | [], [] =>
      {[ "declared_fps"%string := declared_fps v;
         "mean_fps"%string := 0; "std_fps"%string := 0;
         "min_fps"%string := 0; "max_fps"%string := 0;
         "median_fps"%string := 0;
         "complete_seconds_count"%string := 0;
         "total_seconds_count"%string := 0 ]}
  end.

(** The progress report after every hundredth frame prints
    [frame_number * 100 // total_frame_count]. *)
Definition reports_progress (v : video) : bool :=
  (100 <=? length (frames v))%nat.

(** The result of [analyze_fps_dynamics]: the per-second table and, as the
    aggregator reads it, the dictionary holding [overall_stats].  The
    progress report raises when the declared frame count is zero. *)
Definition analyze_fps_dynamics `{Backend} (v : video)
    : exn + (gmap Z second_fps * result_dict) :=
  raise_if ((total_frame_count v =? 0)%Z && reports_progress v);;
  mret (per_second_fps v, {[ "overall_stats"%string := overall_stats v ]}).

End Fps.

(** ** video_analyzer.py: analyze_frame_dynamics and _aggregate_by_second *)

Module Dynamics.

(** [cv2.absdiff] on two buffers of the same shape. *)
Definition absdiff (a b : gray) : gray :=
  zip_with (zip_with (fun x y => Z.abs (x - y))) a b.

(** The flattened array as numbers. *)
Definition pixels (g : gray) : list Q := map inject_Z (concat g).

(** [np.argmax] of the 256-bin histogram: the first most frequent value. *)
Definition histogram_peak (g : gray) : Z :=
  let count v := length (filter (fun p => p = v) (concat g)) in
  fold_left (fun best v => if (count best <? count v)%nat then v else best)
            (map Z.of_nat (seq 1 255)) 0%Z.

(** [d[k]] on a record whose keys are all present. *)
Definition item (d : gmap string Q) (k : string) : Q := default 0 (d !! k).

Definition _calculate_frame_stats `{Backend} (frame : gray) : gmap string Q :=
  {[ "brightness"%string := Py.mean (pixels frame);
     "contrast"%string := Py.std (pixels frame);
     "min_intensity"%string := Py.min (pixels frame);
     "max_intensity"%string := Py.max (pixels frame);
     "histogram_peak"%string := inject_Z (histogram_peak frame) ]}.

Definition _calculate_frame_difference `{Backend}
    (prev_frame current_frame : gray) : gmap string Q :=
  let diff := absdiff prev_frame current_frame in
  let frame_diff := Py.mean (pixels diff) in
  let motion_intensity := Py.std (pixels diff) in
  let max_diff := 255 in
  let diff_percentage := frame_diff / max_diff * 100 in
  {[ "frame_diff"%string := frame_diff;
     "motion_intensity"%string := motion_intensity;
     "diff_percentage"%string := diff_percentage ]}.

(** State of the sampling loop. *)
Record sampler := {
  frame_data : list (gmap string Q);
  prev_frame : option gray
}.

(** The loop body for a sampled frame; [dict.update] lets the difference
    entries override. *)
Definition sample_frame `{Backend} (fps : Q) (frame_number : Z)
    (current_frame : gray) (st : sampler) : sampler :=
  let frame_stats := _calculate_frame_stats current_frame in
  let frame_stats :=
    match prev_frame st with
    | Some prev => _calculate_frame_difference prev current_frame ∪ frame_stats
    | None =>
        <["motion_intensity"%string := 0]>
          (<["frame_diff"%string := 0]> frame_stats)
    end in
  let frame_stats :=
    <["frame_number"%string := inject_Z frame_number]> frame_stats in
  let frame_stats :=
    <["timestamp"%string := Fps.timestamp_of fps frame_number]> frame_stats in
  {| frame_data := frame_data st ++ [frame_stats];
     prev_frame := Some current_frame |}.

Definition sample_all `{Backend} (v : video) (sample_rate : Z) : sampler :=
  strided_loop sample_rate (sample_frame (declared_fps v)) (frames v)
    {| frame_data := []; prev_frame := None |}.

(** One value of the [defaultdict] of [_aggregate_by_second]. *)
Record second_lists := {
  brightness : list Q;
  contrast : list Q;
  frame_diff : list Q;
  motion_intensity : list Q;
  frame_count : Z
}.

Definition second_lists_default : second_lists :=
  {| brightness := []; contrast := []; frame_diff := [];
     motion_intensity := []; frame_count := 0 |}.

Definition add_frame (per_second : gmap Z second_lists) (frame : gmap string Q)
    : gmap Z second_lists :=
  let second := Py.int (item frame "timestamp") in
  let data := default second_lists_default (per_second !! second) in
  <[second :=
      {| brightness := brightness data ++ [item frame "brightness"];
         contrast := contrast data ++ [item frame "contrast"];
         frame_diff := frame_diff data ++ [item frame "frame_diff"];
         motion_intensity :=
           motion_intensity data ++ [item frame "motion_intensity"];
         frame_count := (frame_count data + 1)%Z |}]> per_second.

(** One value of the result of [_aggregate_by_second]. *)
Record second_stats := {
  brightness_mean : Q; brightness_std : Q;
  brightness_min : Q; brightness_max : Q;
  contrast_mean : Q; contrast_std : Q;
  contrast_min : Q; contrast_max : Q;
  motion_mean_intensity : Q; motion_max_intensity : Q;
  motion_mean_diff : Q; motion_max_diff : Q;
  stats_frame_count : Z
}.

Definition summarize `{Backend} (data : second_lists) : second_stats :=
  {| brightness_mean := Py.mean (brightness data);
     brightness_std := Py.std (brightness data);
     brightness_min := Py.min (brightness data);
     brightness_max := Py.max (brightness data);
     contrast_mean := Py.mean (contrast data);
     contrast_std := Py.std (contrast data);
     contrast_min := Py.min (contrast data);
     contrast_max := Py.max (contrast data);
     motion_mean_intensity := Py.mean (motion_intensity data);
     motion_max_intensity := Py.max (motion_intensity data);
     motion_mean_diff := Py.mean (frame_diff data);
     motion_max_diff := Py.max (frame_diff data);
     stats_frame_count := frame_count data |}.

(** [_aggregate_by_second(frame_data, fps)]; [fps] is accepted and not
    read. *)
Definition _aggregate_by_second `{Backend} (frame_data : list (gmap string Q))
    (fps : Q) : gmap Z second_stats :=
  let per_second := fold_left add_frame frame_data ∅ in
  summarize <$> per_second.

(** The progress report, after a sampled frame that brings the counter to
    a multiple of 30, prints [frame_number * 100 // frame_count]. *)
Definition reports_progress (sample_rate : Z) (fs : list gray) : bool :=
  strided_loop sample_rate
    (fun frame_number _ reported =>
       reported || ((frame_number + 1) mod 30 =? 0)%Z)
    fs false.

(** [analyze_frame_dynamics(sample_rate)]: the per-frame records and the
    per-second table.  The loop test raises for a zero stride, the
    progress report when the declared frame count is zero. *)
Definition analyze_frame_dynamics `{Backend} (v : video) (sample_rate : Z)
    : exn + (list (gmap string Q) * gmap Z second_stats) :=
  raise_if (zero_stride sample_rate (frames v));;
  raise_if ((total_frame_count v =? 0)%Z
            && reports_progress sample_rate (frames v));;
  let frame_data := frame_data (sample_all v sample_rate) in
  mret (frame_data, _aggregate_by_second frame_data (declared_fps v)).

End Dynamics.

(** ** video_analyzer.py: the duplicate classifier *)

Module Duplicates.

Import Dynamics.

(** The three outcomes of the nested test on a sampled frame: neither
    counter moves, [near_duplicate_count += 1], or [duplicate_count += 1]
    with the frame index recorded. *)
Inductive frame_kind := Distinct | NearDuplicate | ExactDuplicate.

(** [diff_percentage = 1.0 - np.mean(cv2.absdiff(small, prev_small)) / 255.0] *)
Definition diff_percentage_of (small prev_small : gray) : Q :=
  let diff := absdiff small prev_small in
  let mean_diff := Py.mean (pixels diff) / 255 in
  1 - mean_diff.

Definition _calculate_simple_ssim (img1 img2 : gray) : Q :=
  let mu1 := Py.mean (pixels img1) in
  let mu2 := Py.mean (pixels img2) in
  let sigma1_sq := Py.var (pixels img1) in
  let sigma2_sq := Py.var (pixels img2) in
  let sigma12 :=
    Py.mean (zip_with (fun a b => (a - mu1) * (b - mu2))
                      (pixels img1) (pixels img2)) in
  let C1 := (1 # 100) * (1 # 100) in
  let C2 := (3 # 100) * (3 # 100) in
  ((2 * mu1 * mu2 + C1) * (2 * sigma12 + C2)) /
  ((mu1 * mu1 + mu2 * mu2 + C1) * (sigma1_sq + sigma2_sq + C2)).

(** The nested test on the two scores. *)
Definition classify (diff_threshold ssim_threshold : Q)
    (diff_percentage ssim_score : Q) : frame_kind :=
  if Py.geb diff_percentage diff_threshold || Py.geb ssim_score ssim_threshold
  then
    if Py.geb diff_percentage (995 # 1000) || Py.geb ssim_score (99 # 100)
    then ExactDuplicate
    else NearDuplicate
  else Distinct.

(** The test on the two downsampled grids.  [ssim_score] is preset to
    [1.0] and kept should [_calculate_simple_ssim] raise, which its
    arithmetic does not. *)
Definition classify_grids (diff_threshold ssim_threshold : Q)
    (small prev_small : gray) : frame_kind :=
  classify diff_threshold ssim_threshold
    (diff_percentage_of small prev_small)
    (_calculate_simple_ssim small prev_small).

(** The test on a sampled frame and its predecessor. *)
Definition classify_frame `{Backend} (diff_threshold ssim_threshold : Q)
    (gray_frame prev_frame : gray) : frame_kind :=
  classify_grids diff_threshold ssim_threshold
    (resize gray_frame) (resize prev_frame).

Record detector := {
  prev_frame : option gray;
  duplicate_count : Z;
  near_duplicate_count : Z;
  analyzed_count : Z;
  duplicate_frames : list Z
}.

Definition detector_init : detector :=
  {| prev_frame := None; duplicate_count := 0; near_duplicate_count := 0;
     analyzed_count := 0; duplicate_frames := [] |}.

Definition detect_frame `{Backend} (diff_threshold ssim_threshold : Q)
    (frame_number : Z) (gray_frame : gray) (st : detector) : detector :=
  let kind :=
    match prev_frame st with
    | Some prev => classify_frame diff_threshold ssim_threshold gray_frame prev
    | None => Distinct
    end in
  {| prev_frame := Some gray_frame;
     duplicate_count :=
       match kind with
       | ExactDuplicate => (duplicate_count st + 1)%Z
       | _ => duplicate_count st
       end;
     near_duplicate_count :=
       match kind with
       | NearDuplicate => (near_duplicate_count st + 1)%Z
       | _ => near_duplicate_count st
       end;
     analyzed_count := (analyzed_count st + 1)%Z;
     duplicate_frames :=
       match kind with
       | ExactDuplicate => duplicate_frames st ++ [frame_number]
       | _ => duplicate_frames st
       end |}.

(** [x / total_frames if total_frames > 0 else 0.0] *)
Definition ratio_of (count total_frames : Z) : Q :=
  if (0 <? total_frames)%Z then inject_Z count / inject_Z total_frames else 0.

Definition detect_all `{Backend} (fs : list gray) (sample_rate : Z)
    (diff_threshold ssim_threshold : Q) : detector :=
  strided_loop sample_rate
    (detect_frame diff_threshold ssim_threshold) fs detector_init.

(** The dictionary of counts and ratios. *)
Definition duplicate_dict (st : detector) : gmap string Q :=
  let total_frames := analyzed_count st in
  {[ "duplicate_frame_count"%string := inject_Z (duplicate_count st);
     "near_duplicate_frame_count"%string := inject_Z (near_duplicate_count st);
     "total_analyzed_frames"%string := inject_Z total_frames;
     "analyzed_frame_count"%string := inject_Z (analyzed_count st);
     "duplicate_ratio"%string := ratio_of (duplicate_count st) total_frames;
     "near_duplicate_ratio"%string :=
       ratio_of (near_duplicate_count st) total_frames;
     "total_duplicate_ratio"%string :=
       ratio_of (duplicate_count st + near_duplicate_count st) total_frames ]}.

(** [_analyze_duplicate_frames]: the dictionary and the first 100 indices
    of exact duplicates.  The loop test raises for a zero stride. *)
Definition _analyze_duplicate_frames `{Backend} (fs : list gray)
    (sample_rate : Z) (diff_threshold ssim_threshold : Q)
    : exn + (gmap string Q * list Z) :=
  raise_if (zero_stride sample_rate fs);;
  let st := detect_all fs sample_rate diff_threshold ssim_threshold in
  mret (duplicate_dict st, take 100 (duplicate_frames st)).

End Duplicates.

(** ** video_analyzer.py: motion continuity *)

Module Motion.

(** [np.sqrt(flow[..., 0] ** 2 + flow[..., 1] ** 2)] at one pixel. *)
Definition magnitude `{Backend} (d : Q * Q) : Q :=
  sqrt (fst d * fst d + snd d * snd d).

(** [np.mean(magnitude)] over the field. *)
Definition mean_magnitude `{Backend} (flow : flow_field) : Q :=
  Py.mean (map magnitude (concat flow)).

(** [abs(m[-1] - 2 * m[-2] + m[-3])] once three magnitudes exist. *)
Definition jerk_of (motion_magnitudes : list Q) : option Q :=
  match rev motion_magnitudes with
  | m1 :: m2 :: m3 :: _ => Some (Qabs (m1 - 2 * m2 + m3))
  | _ => None
  end.

Record tracker := {
  prev_gray : option gray;
  motion_magnitudes : list Q;
  jerk_values : list Q;
  analyzed_count : Z
}.

Definition tracker_init : tracker :=
  {| prev_gray := None; motion_magnitudes := []; jerk_values := [];
     analyzed_count := 0 |}.

Definition track_frame `{Backend} (frame_number : Z) (gray_frame : gray)
    (st : tracker) : tracker :=
  match prev_gray st with
  | Some prev =>
      let flow := calcOpticalFlowFarneback prev gray_frame in
      let motion_magnitudes := motion_magnitudes st ++ [mean_magnitude flow] in
      {| prev_gray := Some gray_frame;
         motion_magnitudes := motion_magnitudes;
         jerk_values :=
           match jerk_of motion_magnitudes with
           | Some jerk => jerk_values st ++ [jerk]
           | None => jerk_values st
           end;
         analyzed_count := (analyzed_count st + 1)%Z |}
  | None =>
      {| prev_gray := Some gray_frame;
         motion_magnitudes := motion_magnitudes st;
         jerk_values := jerk_values st;
         analyzed_count := (analyzed_count st + 1)%Z |}
  end.

Definition track_all `{Backend} (fs : list gray) (sample_rate : Z) : tracker :=
  strided_loop sample_rate track_frame fs tracker_init.

(** [jerk_peaks / len(jerk_values)], the peaks being the samples above
    [mean_jerk + 2 * np.std(jerk_values)]. *)
Definition jerk_peak_ratio_of `{Backend} (jerk_values : list Q) : Q :=
  let mean_jerk := Py.mean jerk_values in
  let threshold := mean_jerk + 2 * Py.std jerk_values in
  let jerk_peaks := length (filter (fun j => Py.gtb j threshold = true) jerk_values) in
  inject_Z (Z.of_nat jerk_peaks) / Py.len jerk_values.

(** [min(100.0, (ratio * 50 + mean_jerk / mean_motion * 50)
                if mean_motion > 0 else 0.0)], or [0.0] without jerk
    samples. *)
Definition jerkiness_score_of `{Backend} (motion_magnitudes jerk_values : list Q) : Q :=
  let mean_motion := Py.mean motion_magnitudes in
  match jerk_values with
  | _ :: _ =>
      let mean_jerk := Py.mean jerk_values in
      let jerk_peak_ratio := jerk_peak_ratio_of jerk_values in
      Qmin 100
        (if Py.gtb mean_motion 0
         then jerk_peak_ratio * 50 + mean_jerk / mean_motion * 50
         else 0)
  | [] => 0
  end.

(** The dictionary built from the collected magnitudes and jerks. *)
Definition continuity_dict `{Backend} (motion_magnitudes jerk_values : list Q)
    : gmap string Q :=
  match motion_magnitudes with
  | [] =>
      {[ "mean_motion_magnitude"%string := 0;
         "motion_std"%string := 0;
         "mean_jerk"%string := 0;
         "jerk_peak_ratio"%string := 0;
         "jerkiness_score"%string := 0 ]}
  | _ :: _ =>
      let mean_motion := Py.mean motion_magnitudes in
      let motion_std := Py.std motion_magnitudes in
      let mean_jerk :=
        match jerk_values with _ :: _ => Py.mean jerk_values | [] => 0 end in
      let jerk_peak_ratio :=
        match jerk_values with
        | _ :: _ => jerk_peak_ratio_of jerk_values
        | [] => 0
        end in
      let jerkiness_score := jerkiness_score_of motion_magnitudes jerk_values in
      {[ "mean_motion_magnitude"%string := mean_motion;
         "motion_std"%string := motion_std;
         "mean_jerk"%string := mean_jerk;
         "jerk_peak_ratio"%string := jerk_peak_ratio;
         "jerkiness_score"%string := jerkiness_score;
         "motion_continuity_score"%string := 100 - jerkiness_score ]}
  end.

(** [_analyze_motion_continuity]; the loop test raises for a zero
    stride. *)
Definition _analyze_motion_continuity `{Backend} (fs : list gray)
    (sample_rate : Z) : exn + gmap string Q :=
  raise_if (zero_stride sample_rate fs);;
  let st := track_all fs sample_rate in
  mret (continuity_dict (motion_magnitudes st) (jerk_values st)).

End Motion.

(** ** video_analyzer.py: wobble distortion *)

Module Wobble.

Definition grid_size : nat := 8.

(** [l[a:b]] for [0 <= a]. *)
Definition slice {A} (a b : nat) (l : list A) : list A := take (b - a) (drop a l).

(** [flow.shape[:2]] *)
Definition shape (flow : flow_field) : nat * nat :=
  (length flow, match flow with r :: _ => length r | [] => 0%nat end).

(** The bounds of block [i] along an axis of length [n]:
    [i * g] and [(i + 1) * g if i < grid_size - 1 else n], [g = n // 8]. *)
Definition block_start (n i : nat) : nat := (i * (n / grid_size))%nat.

Definition block_end (n i : nat) : nat :=
  if (i <? grid_size - 1)%nat then ((i + 1) * (n / grid_size))%nat else n.

(** [flow[y_start:y_end, x_start:x_end]], flattened. *)
Definition block_flow (flow : flow_field) (i j : nat) : list (Q * Q) :=
  let '(h, w) := shape flow in
  concat (map (slice (block_start w j) (block_end w j))
              (slice (block_start h i) (block_end h i) flow)).

(** [np.arctan2(block_flow[..., 1], block_flow[..., 0])] at one pixel. *)
Definition direction `{Backend} (d : Q * Q) : Q := arctan2 (snd d) (fst d).

(** A float that may be NaN: [None] is NaN.  [np.var] and [np.mean] of an
    empty array are NaN, and so is the mean of values of which one is
    NaN. *)
Definition nan_var (xs : list Q) : option Q :=
  match xs with [] => None | _ :: _ => Some (Py.var xs) end.

(** The values of an array, unless one of them is NaN. *)
Fixpoint finite (xs : list (option Q)) : option (list Q) :=
  match xs with
  | [] => Some []
  | x :: xs' =>
      match x, finite xs' with
      | Some x, Some l => Some (x :: l)
      | _, _ => None
      end
  end.

Definition nan_mean (xs : list (option Q)) : option Q :=
  match xs with
  | [] => None
  | _ :: _ => option_map Py.mean (finite xs)
  end.

Definition nan_std `{Backend} (xs : list (option Q)) : option Q :=
  match xs with
  | [] => None
  | _ :: _ => option_map Py.std (finite xs)
  end.

(** [mag_variance + dir_variance * 10]; NaN for a block without a
    vector. *)
Definition block_variance `{Backend} (block : list (Q * Q)) : option Q :=
  match nan_var (map Motion.magnitude block), nan_var (map direction block) with
  | Some mag_variance, Some dir_variance => Some (mag_variance + dir_variance * 10)
  | _, _ => None
  end.

(** The blocks in the order of the two nested [range(grid_size)] loops. *)
Definition blocks (flow : flow_field) : list (list (Q * Q)) :=
  concat (map (fun i => map (fun j => block_flow flow i j) (seq 0 grid_size))
              (seq 0 grid_size)).

Definition grid_variance_score `{Backend} (flow : flow_field) : option Q :=
  let block_variances := map block_variance (blocks flow) in
  nan_mean block_variances.

Record scanner := {
  prev_gray : option gray;
  grid_variance_scores : list (option Q);
  analyzed_count : Z
}.

Definition scan_frame `{Backend} (frame_number : Z) (gray_frame : gray)
    (st : scanner) : scanner :=
  {| prev_gray := Some gray_frame;
     grid_variance_scores :=
       match prev_gray st with
       | Some prev =>
           grid_variance_scores st ++
           [grid_variance_score (calcOpticalFlowFarneback prev gray_frame)]
       | None => grid_variance_scores st
       end;
     analyzed_count := (analyzed_count st + 1)%Z |}.

Definition scan_all `{Backend} (fs : list gray) (sample_rate : Z) : scanner :=
  strided_loop sample_rate scan_frame fs
    {| prev_gray := None; grid_variance_scores := []; analyzed_count := 0 |}.

(** [normalized_wobble = min(100.0, mean_wobble * 10)]: Python's [min]
    keeps its first argument when the second is NaN. *)
Definition distortion_score_of (grid_variance_scores : list (option Q)) : Q :=
  match grid_variance_scores with
  | [] => 0
  | _ :: _ =>
      match nan_mean grid_variance_scores with
      | Some mean_wobble => Qmin 100 (mean_wobble * 10)
      | None => 100
      end
  end.

(** The returned dictionary.  The rational dictionary holds no NaN: the
    entries [mean_wobble_score] and [wobble_std] are left out when their
    value is NaN. *)
Definition wobble_dict `{Backend} (grid_variance_scores : list (option Q))
    : gmap string Q :=
  match grid_variance_scores with
  | [] =>
      {[ "mean_wobble_score"%string := 0;
         "wobble_std"%string := 0;
         "wobble_distortion_score"%string := 0 ]}
  | _ :: _ =>
      match nan_mean grid_variance_scores, nan_std grid_variance_scores with
      | Some mean_wobble, Some wobble_std =>
          {[ "mean_wobble_score"%string := mean_wobble;
             "wobble_std"%string := wobble_std;
             "wobble_distortion_score"%string :=
               distortion_score_of grid_variance_scores ]}
      | _, _ =>
          {[ "wobble_distortion_score"%string :=
               distortion_score_of grid_variance_scores ]}
      end
  end.

(** [_analyze_wobble_distortion]; the loop test raises for a zero
    stride. *)
Definition _analyze_wobble_distortion `{Backend} (fs : list gray)
    (sample_rate : Z) : exn + gmap string Q :=
  raise_if (zero_stride sample_rate fs);;
  mret (wobble_dict (grid_variance_scores (scan_all fs sample_rate))).

End Wobble.

(** ** video_analyzer.py: PTS jitter and analyze_motion_quality *)

Module MotionQuality.

(** [expected_delta = 1.0 / declared_fps if declared_fps > 0 else 0.0] *)
Definition expected_delta_of (declared_fps : Q) : Q :=
  if Py.gtb declared_fps 0 then 1 / declared_fps else 0.

(** The intervals [pts_sec - pts_list[-1]] between successive grabs. *)
Definition frame_times_of (pos_msec : list Q) : list Q :=
  let pts_list := map (fun pts_ms => pts_ms / 1000) pos_msec in
  zip_with (fun prev pts_sec => pts_sec - prev) pts_list (tail pts_list).

Definition _analyze_pts_jitter `{Backend} (pos_msec : list Q) (declared_fps : Q)
    : gmap string Q :=
  let frame_times := frame_times_of pos_msec in
  match frame_times with
  | [] =>
      {[ "effective_fps"%string := declared_fps;
         "pts_jitter_std"%string := 0;
         "pts_jitter_max"%string := 0;
         "expected_delta"%string := expected_delta_of declared_fps;
         "mean_delta"%string := 0 ]}
  | _ :: _ =>
      let expected_delta := expected_delta_of declared_fps in
      let mean_delta := Py.mean frame_times in
      let effective_fps := if Py.gtb mean_delta 0 then 1 / mean_delta else 0 in
      let jitter_std := Py.std frame_times in
      let jitter_max :=
        Py.max (map (fun t => Qabs (t - expected_delta)) frame_times) in
      {[ "effective_fps"%string := effective_fps;
         "declared_fps"%string := declared_fps;
         "pts_jitter_std"%string := jitter_std;
         "pts_jitter_max"%string := jitter_max;
         "expected_delta"%string := expected_delta;
         "mean_delta"%string := mean_delta;
         "jitter_percentage"%string :=
           if Py.gtb expected_delta 0
           then jitter_std / expected_delta * 100
           else 0 ]}
  end.

(** [analyze_motion_quality(sample_rate, duplicate_threshold, ssim_threshold)]:
    the four analyses in turn, each on the rewound capture. *)
Definition analyze_motion_quality `{Backend} (v : video) (sample_rate : Z)
    (duplicate_threshold ssim_threshold : Q) : exn + result_dict :=
  let pts_data := _analyze_pts_jitter (pos_msec v) (declared_fps v) in
  duplicates ← Duplicates._analyze_duplicate_frames (frames v) sample_rate
                 duplicate_threshold ssim_threshold;
  let duplicate_data := fst duplicates in
  motion_continuity_data ←
    Motion._analyze_motion_continuity (frames v) sample_rate;
  wobble_data ← Wobble._analyze_wobble_distortion (frames v) sample_rate;
  mret
    ({[ "video_info"%string :=
          {[ "declared_fps"%string := declared_fps v;
             "total_frame_count"%string := inject_Z (total_frame_count v);
             "analyzed_frames"%string :=
               Dynamics.item duplicate_data "analyzed_frame_count" ]};
        "effective_fps_pts_jitter"%string := pts_data;
        "duplicate_frame_ratio"%string := duplicate_data;
        "motion_continuity"%string := motion_continuity_data;
        "wobble_distortion"%string := wobble_data ]} : result_dict).

End MotionQuality.

(** ** Files *)

(** What a path holds: a file the decoder cannot open, or a video. *)
Inductive file := Unreadable | Playable (v : video).

(** ** batch_analyze.py: analyze_video and the batch loop of main *)

Module BatchAnalyze.

(** [Path(p).name] for a path that does not end in a slash: the part
    after the last slash. *)
Fixpoint name_from (component p : string) : string :=
  match p with
  | EmptyString => component
  | String c rest =>
      if Ascii.eqb c "/"%char then name_from EmptyString rest
      else name_from (component +:+ String c EmptyString) rest
  end.

Definition name (p : string) : string := name_from EmptyString p.

(** [str.lower] on the ASCII letters. *)
Definition lower_char (c : ascii) : ascii :=
  let n := nat_of_ascii c in
  if ((65 <=? n) && (n <=? 90))%nat then ascii_of_nat (n + 32) else c.

Fixpoint lower (s : string) : string :=
  match s with
  | EmptyString => EmptyString
  | String c rest => String (lower_char c) (lower rest)
  end.

(** [keyword in filename_lower] *)
Fixpoint contains (keyword s : string) : bool :=
  String.prefix keyword s ||
  match s with
  | EmptyString => false
  | String _ rest => contains keyword rest
  end.

Definition MODEL_KEYWORDS : list (string * list string) :=
  [ ("即梦", ["jimeng"; "jim"; "即梦"]);
    ("可灵", ["kling"; "可灵"; "keling"]);
    ("Gen-2", ["gen2"; "gen-2"; "runway"]);
    ("PixVerse", ["pixverse"; "pix"]);
    ("Pika", ["pika"]);
    ("Haiper", ["haiper"; "hiper"]) ]%string.

Definition detect_model_from_filename (filename : string) : string :=
  let filename_lower := lower filename in
  match filter (fun mk => existsb (fun keyword => contains keyword filename_lower)
                                  (snd mk) = true) MODEL_KEYWORDS with
  | (model, _) :: _ => model
  | [] => "未知"%string
  end.

(** The sections and the score computed inside the [try] of
    [analyze_video]. *)
Record analysis := {
  basic : result_dict;
  fps_dynamics : result_dict;
  frame_dynamics : result_dict;
  motion_quality : result_dict;
  overall_score : Aggregator.scores
}.

(** The dictionary [analyze_video] returns: the analysis sections and the
    score, or the [error] string; both carry [filename], [filepath] and
    [model]. *)
Inductive outcome :=
  | Analysed (filename filepath model : string) (result : analysis)
  | Failed (filename filepath model : string) (error : string).

Definition filepath_of (o : outcome) : string :=
  match o with
  | Analysed _ filepath _ _ => filepath
  | Failed _ filepath _ _ => filepath
  end.

(** ['error' in result] *)
Definition is_error (o : outcome) : bool :=
  match o with Failed _ _ _ _ => true | Analysed _ _ _ _ => false end.

(** [VideoAnalyzer(str(video_path))] and the opening of the capture: the
    constructor raises on a missing path, the analysis on a file that
    cannot be opened. *)
Definition open_video (fs : gmap string file) (video_path : string) : exn + video :=
  match fs !! video_path with
  | None => inl (FileNotFoundError video_path)
  | Some Unreadable => inl (ValueError video_path)
  | Some (Playable v) => inr v
  end.

(** The [resolution] section of [analyze()]. *)
Definition basic_of (v : video) : result_dict :=
  {[ "resolution"%string :=
       {[ "width"%string := inject_Z (width v);
          "height"%string := inject_Z (height v);
          "aspect_ratio"%string :=
            if (0 <? height v)%Z
            then Py.round (inject_Z (width v) / inject_Z (height v)) 3
            else 0 ]} ]}.

(** The [video_info] section of the result of [analyze_frame_dynamics]. *)
Definition dynamics_of (v : video) (frame_data : list (gmap string Q))
    : result_dict :=
  {[ "video_info"%string :=
       {[ "fps"%string := Py.round (declared_fps v) 3;
          "frame_count"%string := inject_Z (total_frame_count v);
          "analyzed_frames"%string := Py.len frame_data ]} ]}.

(** The body of the [try]. *)
Definition analyses `{Backend} (fs : gmap string file) (video_path : string)
    : exn + analysis :=
  v ← open_video fs video_path;
  let basic_result := basic_of v in
  fps ← Fps.analyze_fps_dynamics v;
  let fps_result := snd fps in
  dynamics ← Dynamics.analyze_frame_dynamics v 5;
  let dynamics_result := dynamics_of v (fst dynamics) in
  motion_result ← MotionQuality.analyze_motion_quality v 5 (98 # 100) (95 # 100);
  let score :=
    Aggregator.calculate_overall_score
      basic_result fps_result dynamics_result motion_result in
  mret {| basic := basic_result; fps_dynamics := fps_result;
          frame_dynamics := dynamics_result; motion_quality := motion_result;
          overall_score := score |}.

(** [analyze_video(video_path)]: [except Exception] turns whatever the
    body raises into the error dictionary. *)
Definition analyze_video `{Backend} (fs : gmap string file) (video_path : string)
    : outcome :=
  match analyses fs video_path with
  | inr result =>
      Analysed (name video_path) video_path
        (detect_model_from_filename (name video_path)) result
  | inl e =>
      Failed (name video_path) video_path
        (detect_model_from_filename (name video_path)) (exn_str e)
  end.

(** The loop of [main]: one outcome appended per file, in order. *)
Definition analyze_batch `{Backend} (fs : gmap string file)
    (video_files : list string) : list outcome :=
  fold_left (fun results video_path => results ++ [analyze_video fs video_path])
            video_files [].

End BatchAnalyze.

(** ** video_analyser/analyzer.py *)

Module Analyser.

Import Dynamics.

(** The thresholds of [VideoAnalyzer.__init__]. *)
Record VideoAnalyzer := {
  duplicate_threshold : Q;
  motion_threshold : Q;
  wobble_threshold : Q;
  fps_drop_threshold : Q
}.

Definition default_analyzer : VideoAnalyzer :=
  {| duplicate_threshold := 98 # 100; motion_threshold := 3 # 10;
     wobble_threshold := 2 # 100; fps_drop_threshold := 8 # 10 |}.

Record VideoAnalysisResult := {
  filepath : string;
  total_frames : Z;
  duration : Q;
  fps : Q;
  actual_fps : Q;
  resolution : Z * Z;
  fps_variance : Q;
  fps_drops : list (Z * Q * Q);
  duplicate_frames : list Z;
  duplicate_percentage : Q;
  motion_scores : list Q;
  motion_discontinuities : list Z;
  avg_motion_score : Q;
  wobble_scores : list Q;
  wobble_frames : list Z;
  avg_wobble_score : Q;
  fps_quality_score : Q;
  motion_quality_score : Q;
  duplicate_quality_score : Q;
  wobble_quality_score : Q;
  overall_quality_score : Q
}.

Definition _calculate_similarity `{Backend} (frame1 frame2 : gray) : Q :=
  matchTemplate frame1 frame2.

Definition _calculate_motion (prev_gray curr_gray : gray) : Q :=
  let diff := absdiff prev_gray curr_gray in
  Py.mean (pixels diff).

Definition _calculate_optical_flow `{Backend} (prev_gray curr_gray : gray)
    : flow_field :=
  calcOpticalFlowFarneback prev_gray curr_gray.

(** [np.std] of the magnitudes of [curr_flow - prev_flow]. *)
Definition _calculate_wobble `{Backend} (prev_flow curr_flow : flow_field) : Q :=
  let flow_diff :=
    zip_with (zip_with (fun c p => (fst c - fst p, snd c - snd p)))
             curr_flow prev_flow in
  Py.std (map Motion.magnitude (concat flow_diff)).

(** What [_analyze_frames] accumulates while reading. *)
Record walker := {
  prev_gray : option gray;
  prev_flow : option flow_field;
  frame_times : list Q;
  frame_num : Z;
  w_duplicate_frames : list Z;
  w_motion_scores : list Q;
  w_motion_discontinuities : list Z;
  w_wobble_scores : list Q;
  w_wobble_frames : list Z
}.

Definition walker_init : walker :=
  {| prev_gray := None; prev_flow := None; frame_times := []; frame_num := 0;
     w_duplicate_frames := []; w_motion_scores := [];
     w_motion_discontinuities := []; w_wobble_scores := [];
     w_wobble_frames := [] |}.

(** [motion_ratio] leaves [1 ± motion_threshold] while the motion is above 5. *)
Definition is_discontinuity (a : VideoAnalyzer) (motion_scores : list Q)
    (motion_score : Q) : bool :=
  match rev motion_scores with
  | _ :: prev_motion :: _ =>
      Py.gtb prev_motion 0 &&
      (let motion_ratio := motion_score / prev_motion in
       (Py.gtb motion_ratio (1 + motion_threshold a)
        || Py.gtb (1 - motion_threshold a) motion_ratio)
       && Py.gtb motion_score 5)
  | _ => false
  end.

Definition walk_frame `{Backend} (a : VideoAnalyzer) (st : walker)
    (frame : gray * Q) : walker :=
  let '(gray_frame, pos) := frame in
  let timestamp := pos / 1000 in
  match prev_gray st with
  | Some prev =>
      let similarity := _calculate_similarity prev gray_frame in
      let motion_score := _calculate_motion prev gray_frame in
      let motion_scores := w_motion_scores st ++ [motion_score] in
      let flow := _calculate_optical_flow prev gray_frame in
      let wobble := option_map (fun pf => _calculate_wobble pf flow) (prev_flow st) in
      {| prev_gray := Some gray_frame;
         prev_flow := Some flow;
         frame_times := frame_times st ++ [timestamp];
         frame_num := (frame_num st + 1)%Z;
         w_duplicate_frames :=
           if Py.gtb similarity (duplicate_threshold a)
           then w_duplicate_frames st ++ [frame_num st]
           else w_duplicate_frames st;
         w_motion_scores := motion_scores;
         w_motion_discontinuities :=
           if is_discontinuity a motion_scores motion_score
           then w_motion_discontinuities st ++ [frame_num st]
           else w_motion_discontinuities st;
         w_wobble_scores :=
           match wobble with
           | Some wobble_score => w_wobble_scores st ++ [wobble_score]
           | None => w_wobble_scores st
           end;
         w_wobble_frames :=
           match wobble with
           | Some wobble_score =>
               if Py.gtb wobble_score (wobble_threshold a)
               then w_wobble_frames st ++ [frame_num st]
               else w_wobble_frames st
           | None => w_wobble_frames st
           end |}
  | None =>
      {| prev_gray := Some gray_frame;
         prev_flow := prev_flow st;
         frame_times := frame_times st ++ [timestamp];
         frame_num := (frame_num st + 1)%Z;
         w_duplicate_frames := w_duplicate_frames st;
         w_motion_scores := w_motion_scores st;
         w_motion_discontinuities := w_motion_discontinuities st;
         w_wobble_scores := w_wobble_scores st;
         w_wobble_frames := w_wobble_frames st |}
  end.

(** [frame_intervals = np.diff(frame_times)] without the non-positive ones. *)
Definition frame_intervals_of (frame_times : list Q) : list Q :=
  filter (fun d => Py.gtb d 0 = true)
         (zip_with (fun prev t => t - prev) frame_times (tail frame_times)).

(** [len(xs) / total_frames * 100] *)
Definition rate_of {A} (xs : list A) (total_frames : Z) : Q :=
  Py.len xs / inject_Z total_frames * 100.

(** [analyze] on an opened capture: [_analyze_frames], then
    [_calculate_quality_scores].  When frame intervals exist,
    [1.0 / result.fps] raises for a declared rate of zero and
    [expected_interval / self.fps_drop_threshold] for a threshold of
    zero. *)
Definition analyze_capture `{Backend} (a : VideoAnalyzer) (video_path : string)
    (v : video) : exn + VideoAnalysisResult :=
  let fps := declared_fps v in
  let total_frames := total_frame_count v in
  let st := fold_left (walk_frame a) (zip (frames v) (pos_msec v)) walker_init in
  let frame_intervals := frame_intervals_of (frame_times st) in
  if bool_decide (frame_intervals <> [])
     && (Qeq_bool fps 0 || Qeq_bool (fps_drop_threshold a) 0)
  then inl ZeroDivisionError
  else
    let expected_interval := 1 / fps in
    let fps_variance :=
      match frame_intervals with [] => 0 | _ :: _ => Py.var frame_intervals end in
    let fps_drops :=
      omap (fun '(i, interval) =>
              if Py.gtb interval (expected_interval / fps_drop_threshold a)
              then Some ((Z.of_nat i + 1)%Z, expected_interval, interval)
              else None)
           (imap pair frame_intervals) in
    let fps_penalty :=
      Qmin (fps_variance * 1000) 50 + Py.len fps_drops * 2 in
    let fps_quality_score := Qmax 0 (100 - fps_penalty) in
    let duplicate_percentage :=
      if (0 <? total_frames)%Z
      then rate_of (w_duplicate_frames st) total_frames
      else 0 in
    let duplicate_quality_score := Qmax 0 (100 - duplicate_percentage * 2) in
    let motion_quality_score :=
      if (0 <? total_frames)%Z
      then Qmax 0 (100 - rate_of (w_motion_discontinuities st) total_frames * 10)
      else 100 in
    let wobble_quality_score :=
      if (0 <? total_frames)%Z
      then Qmax 0 (100 - rate_of (w_wobble_frames st) total_frames * 5)
      else 100 in
    inr {| filepath := video_path;
           total_frames := total_frames;
           duration :=
             if Py.gtb fps 0 then inject_Z total_frames / fps else 0;
           fps := fps;
           actual_fps :=
             match frame_intervals with
             | [] => fps
             | _ :: _ =>
                 if Py.gtb (Py.mean frame_intervals) 0
                 then 1 / Py.mean frame_intervals
                 else fps
             end;
           resolution := (width v, height v);
           fps_variance := fps_variance;
           fps_drops := fps_drops;
           duplicate_frames := w_duplicate_frames st;
           duplicate_percentage := duplicate_percentage;
           motion_scores := w_motion_scores st;
           motion_discontinuities := w_motion_discontinuities st;
           avg_motion_score :=
             match w_motion_scores st with
             | [] => 0
             | _ :: _ => Py.mean (w_motion_scores st)
             end;
           wobble_scores := w_wobble_scores st;
           wobble_frames := w_wobble_frames st;
           avg_wobble_score :=
             match w_wobble_scores st with
             | [] => 0
             | _ :: _ => Py.mean (w_wobble_scores st)
             end;
           fps_quality_score := fps_quality_score;
           motion_quality_score := motion_quality_score;
           duplicate_quality_score := duplicate_quality_score;
           wobble_quality_score := wobble_quality_score;
           overall_quality_score :=
             fps_quality_score * (2 # 10) + duplicate_quality_score * (3 # 10)
             + motion_quality_score * (25 # 100)
             + wobble_quality_score * (25 # 100) |}.

(** [VideoAnalyzer.analyze(video_path)] *)
Definition analyze `{Backend} (a : VideoAnalyzer) (fs : gmap string file)
    (video_path : string) : exn + VideoAnalysisResult :=
  match fs !! video_path with
  | None => inl (FileNotFoundError video_path)
  | Some Unreadable => inl (ValueError video_path)
  | Some (Playable v) => analyze_capture a video_path v
  end.

End Analyser.

(** ** video_analyser/batch_processor.py *)

Module BatchProcessor.

Import Analyser.

(** What [process_files] leaves behind: the returned list, the log lines
    and the calls of the progress callback. *)
Inductive log_line :=
  | Info (filepath : string)
  | Error (filepath : string) (e : exn).

Record run := {
  results : list VideoAnalysisResult;
  completed : Z;
  log : list log_line;
  progress : list (Z * Z * string)
}.

Definition run_init : run :=
  {| results := []; completed := 0; log := []; progress := [] |}.

(** The body of [for future in as_completed(future_to_file)]:
    [future.result()] returns what [_analyze_file] returned or raises what
    it raised. *)
Definition harvest (analyze : string -> exn + VideoAnalysisResult) (total : Z)
    (st : run) (filepath : string) : run :=
  let completed := (completed st + 1)%Z in
  match analyze filepath with
  | inr result =>
      {| results := results st ++ [result];
         completed := completed;
         log := log st ++ [Info filepath];
         progress := progress st ++ [(completed, total, filepath)] |}
  | inl e =>
      {| results := results st;
         completed := completed;
         log := log st ++ [Error filepath e];
         progress := progress st ++ [(completed, total, filepath)] |}
  end.

(** [process_files(files, progress_callback)].  One future is submitted
    per element of [files]; [as_completed] yields them in an order the
    pool decides: [schedule] lists the positions in [files] in that
    order. *)
Definition process_files (analyze : string -> exn + VideoAnalysisResult)
    (files : list string) (schedule : list nat) : run :=
  let total := Z.of_nat (length files) in
  fold_left (harvest analyze total) (omap (fun i => files !! i) schedule) run_init.

End BatchProcessor.

(** ** A computable backend

    Rational stand-ins for the NumPy and OpenCV operations, used to run
    the definitions on concrete videos: integer square roots, a first-order
    approximation of the angle, nearest-neighbour resampling, the
    brightness change as motion field, and the correlation coefficient by
    its formula (OpenCV answers 1 for a template without variance). *)

Module Reference.

Import Dynamics.

Definition floor_sqrt (x : Q) : Q := Z.sqrt (Qnum x * Zpos (Qden x)) # Qden x.

Definition angle (y x : Q) : Q :=
  let pi := 355 # 113 in
  if Qeq_bool (Qabs x + Qabs y) 0 then 0
  else
    let a := pi / 2 * (y / (Qabs x + Qabs y)) in
    if Qle_bool 0 x then a
    else if Qle_bool 0 y then pi - a else - pi - a.

Definition resample (g : gray) : gray :=
  let h := length g in
  let w := match g with r :: _ => length r | [] => 0%nat end in
  map (fun r =>
         map (fun c => nth (c * w / 160) (nth (r * h / 120) g []) 0%Z)
             (seq 0 160))
      (seq 0 120).

Definition brightness_flow (prev curr : gray) : flow_field :=
  zip_with (zip_with (fun p c => (inject_Z (c - p), 0))) prev curr.

Definition energy (xs : list Q) : Q := Py.sum (map (fun x => x * x) xs).

Definition centred (xs : list Q) : list Q := map (fun x => x - Py.mean xs) xs.

Definition correlation (image templ : gray) : Q :=
  let i' := centred (pixels image) in
  let t' := centred (pixels templ) in
  if Qeq_bool (energy t') 0 then 1
  else Py.sum (zip_with Qmult t' i') / floor_sqrt (energy t' * energy i').

#[export] Instance backend : Backend :=
  {| sqrt := floor_sqrt;
     arctan2 := angle;
     resize := resample;
     calcOpticalFlowFarneback := brightness_flow;
     matchTemplate := correlation |}.

(** A two-frame clip of 2x2 pixels at 30 frames per second. *)
Definition tiny_clip : video :=
  {| declared_fps := 30; total_frame_count := 2; width := 2; height := 2;
     frames := [ [[10; 20]; [30; 40]]; [[10; 25]; [30; 40]] ]%Z;
     pos_msec := [0; 100 # 3] |}.

(** Four one-pixel frames at 2 frames per second: two seconds. *)
Definition two_second_clip : video :=
  {| declared_fps := 2; total_frame_count := 4; width := 1; height := 1;
     frames := repeat [[0%Z]] 4;
     pos_msec := [0; 500; 1000; 1500] |}.

(** Four frames of 2x2 pixels with uneven brightness changes, and the
    same clip cut after its first frame. *)
Definition moving_frames : list gray :=
  [ [[10; 20]; [30; 40]]; [[12; 20]; [30; 44]];
    [[40; 20]; [35; 44]]; [[41; 20]; [35; 44]] ]%Z.

Definition single_frame : list gray := [ [[10; 20]; [30; 40]] ]%Z.

(** Two frames of two pixels that differ by one intensity level in each
    pixel, in opposite directions. *)
Definition grid_up : gray := [[0; 1]]%Z.
Definition grid_down : gray := [[1; 0]]%Z.

(** A black frame and the frame one intensity level above it. *)
Definition dark_frame : gray := [[0]]%Z.
Definition bright_frame : gray := [[1]]%Z.

(** A directory with one playable clip; [missing.mp4] is not in it. *)
Definition one_clip_directory : gmap string file :=
  {[ "a.mp4"%string := Playable tiny_clip ]}.

Definition two_requests : list string := [ "a.mp4"; "missing.mp4" ]%string.

(** The analyzer outputs of a flawless 1920x1080 clip. *)
Definition flawless_stats : gmap string Q :=
  {[ "declared_fps"%string := 30; "mean_fps"%string := 30;
     "std_fps"%string := 0 ]}.

Definition flawless_jitter : gmap string Q :=
  {[ "jitter_percentage"%string := 0 ]}.

Definition flawless_duplicates : gmap string Q :=
  {[ "total_duplicate_ratio"%string := 0 ]}.

Definition flawless_continuity : gmap string Q :=
  {[ "jerkiness_score"%string := 0; "motion_continuity_score"%string := 100 ]}.

Definition flawless_wobble : gmap string Q :=
  {[ "wobble_distortion_score"%string := 0 ]}.

Definition flawless_fps : result_dict :=
  {[ "overall_stats"%string := flawless_stats ]}.

Definition flawless_motion : result_dict :=
  {[ "effective_fps_pts_jitter"%string := flawless_jitter;
     "duplicate_frame_ratio"%string := flawless_duplicates;
     "motion_continuity"%string := flawless_continuity;
     "wobble_distortion"%string := flawless_wobble ]}.

Definition full_hd : result_dict :=
  {[ "resolution"%string :=
       {[ "width"%string := 1920; "height"%string := 1080 ]} ]}.

End Reference.

(** ** Vocabulary of the statements *)

(** The ranges of the statistics the analyzers hand to the aggregator: a
    standard deviation, a jitter percentage, a duplicate ratio and a
    wobble score are not negative, a continuity score lies in [0, 100]. *)
Definition analyzer_ranges (fps motion : result_dict) : Prop :=
  (forall d x, fps !! "overall_stats"%string = Some d ->
               d !! "std_fps"%string = Some x -> 0 <= x) /\
  (forall d x, motion !! "effective_fps_pts_jitter"%string = Some d ->
               d !! "jitter_percentage"%string = Some x -> 0 <= x) /\
  (forall d x, motion !! "duplicate_frame_ratio"%string = Some d ->
               d !! "total_duplicate_ratio"%string = Some x -> 0 <= x) /\
  (forall d x, motion !! "motion_continuity"%string = Some d ->
               d !! "motion_continuity_score"%string = Some x ->
               0 <= x <= 100) /\
  (forall d x, motion !! "wobble_distortion"%string = Some d ->
               d !! "wobble_distortion_score"%string = Some x -> 0 <= x).

(** A whole number of hundredths. *)
Definition cents (x : Q) : Prop := exists k : Z, x == inject_Z k / 100.

(** The inputs of a flawless video, as the aggregator reads them: a
    positive mean rate without deviation, no jitter, no duplicates, a
    continuity score of 100 and no wobble. *)
Definition perfect_inputs (fps motion : result_dict) : Prop :=
  exists st jit dup mc wob : gmap string Q,
    fps !! "overall_stats"%string = Some st /\
    0 < Py.get st "mean_fps" 0 /\
    Py.get st "std_fps" 0 == 0 /\
    motion !! "effective_fps_pts_jitter"%string = Some jit /\
    Py.get jit "jitter_percentage" 100 == 0 /\
    motion !! "duplicate_frame_ratio"%string = Some dup /\
    Py.get dup "total_duplicate_ratio" 1 == 0 /\
    motion !! "motion_continuity"%string = Some mc /\
    Py.get mc "motion_continuity_score" 0 == 100 /\
    motion !! "wobble_distortion"%string = Some wob /\
    Py.get wob "wobble_distortion_score" 100 == 0.

(** The frames of a clip with their indices, from [k] on, and those the
    strided loops analyse. *)
Fixpoint enumerate {A} (k : Z) (fs : list A) : list (Z * A) :=
  match fs with
  | [] => []
  | f :: fs' => (k, f) :: enumerate (k + 1) fs'
  end.

Definition sampled {A} (sample_rate : Z) (fs : list A) : list (Z * A) :=
  filter (fun p => (fst p mod sample_rate)%Z = 0%Z) (enumerate 0 fs).

(** What the tracking loop keeps true: the magnitudes are not negative,
    every jerk is the absolute second difference of three of them, and
    there is one magnitude per analysed frame after the first. *)
Definition tracked (st : Motion.tracker) : Prop :=
  Forall (fun m => 0 <= m) (Motion.motion_magnitudes st) /\
  Forall (fun j => exists a b c,
            a ∈ Motion.motion_magnitudes st /\ b ∈ Motion.motion_magnitudes st /\
            c ∈ Motion.motion_magnitudes st /\ j = Qabs (a - 2 * b + c))
         (Motion.jerk_values st) /\
  match Motion.prev_gray st with
  | None => Motion.analyzed_count st = 0%Z /\ Motion.motion_magnitudes st = []
  | Some _ =>
      (1 <= Motion.analyzed_count st)%Z /\
      Z.of_nat (length (Motion.motion_magnitudes st)) = (Motion.analyzed_count st - 1)%Z
  end.

(** The sampled frames of a clip and the consecutive pairs among them. *)
Definition sampled_frames (sample_rate : Z) (fs : list gray) : list gray :=
  map snd (sampled sample_rate fs).

Definition consecutive_pairs {A} (l : list A) : list (A * A) := zip l (tail l).


(** The sum of a count over the buckets of a per-second table. *)
Definition total_by {B} (count : B -> Z) (m : gmap Z B) : Z :=
  map_fold (fun _ b acc => (count b + acc)%Z) 0%Z m.

(** The final bucket: the one with the largest second index. *)
Definition final_bucket {B} (m : gmap Z B) (second : Z) : Prop :=
  is_Some (m !! second) /\ forall k, is_Some (m !! k) -> (k <= second)%Z.

(** What [future.result()] contributes to the returned list. *)
Definition returned {R} (outcome : exn + R) : option R :=
  match outcome with inr result => Some result | inl _ => None end.

(** The log line of one harvested future. *)
Definition log_line_of (analyze : string -> exn + Analyser.VideoAnalysisResult)
    (filepath : string) : BatchProcessor.log_line :=
  match analyze filepath with
  | inr _ => BatchProcessor.Info filepath
  | inl e => BatchProcessor.Error filepath e
  end.

(** A file that both batch runners analyse without an exception. *)
Definition analysable `{Backend} (a : Analyser.VideoAnalyzer)
    (fs : gmap string file) (f : string) : Prop :=
  (exists r, Analyser.analyze a fs f = inr r) /\
  (exists r, BatchAnalyze.analyses fs f = inr r).

Definition is_error_line (l : BatchProcessor.log_line) : Prop :=
  match l with BatchProcessor.Error _ _ => True | BatchProcessor.Info _ => False end.

#[global] Instance is_error_line_dec (l : BatchProcessor.log_line) :
  Decision (is_error_line l).
Proof. destruct l; simpl; apply _. Defined.

(** The count the reading loop of [analyze_fps_dynamics] holds for second
    [s] after [n] frames at the integer rate [f]. *)
Definition count_after (f n s : Z) : option Z :=
  if decide (0 <= s /\ s * f < n)%Z then Some (Z.min f (n - s * f)) else None.

(** What the duplicate detector holds after the sampled frames [l]: one
    count per frame, no duplicate for the first one, one index per exact
    duplicate. *)
Definition detected (l : list (Z * gray)) (st : Duplicates.detector) : Prop :=
  Duplicates.analyzed_count st = Z.of_nat (length l) /\
  (Duplicates.prev_frame st = None <-> l = []) /\
  (0 <= Duplicates.duplicate_count st)%Z /\
  (0 <= Duplicates.near_duplicate_count st)%Z /\
  (Duplicates.duplicate_count st + Duplicates.near_duplicate_count st
   <= Z.max 0 (Z.of_nat (length l) - 1))%Z /\
  Z.of_nat (length (Duplicates.duplicate_frames st)) = Duplicates.duplicate_count st /\
  Forall (fun i => i ∈ map fst (tail l)) (Duplicates.duplicate_frames st).

(** Two buffers of one shape, and a buffer of 8-bit intensities. *)
Definition same_shape (a b : gray) : Prop := map length a = map length b.

Definition eight_bit (g : gray) : Prop :=
  Forall (fun x => (0 <= x <= 255)%Z) (concat g).

(** What [_analyze_frames] holds after the frames [l]: the timestamps in
    seconds, one motion score per frame after the first, one wobble score
    per frame after the second, and three increasing lists of indices of
    frames read. *)
Definition walked (l : list (gray * Q)) (st : Analyser.walker) : Prop :=
  Analyser.frame_num st = Z.of_nat (length l) /\
  Analyser.frame_times st = map (fun frame => snd frame / 1000) l /\
  (Analyser.prev_gray st = None <-> l = []) /\
  (Analyser.prev_flow st = None <-> (length l < 2)%nat) /\
  length (Analyser.w_motion_scores st) = (length l - 1)%nat /\
  length (Analyser.w_wobble_scores st) = (length l - 2)%nat /\
  Forall (fun m => 0 <= m) (Analyser.w_motion_scores st) /\
  StronglySorted Z.lt (Analyser.w_duplicate_frames st) /\
  Forall (fun i => (1 <= i < Z.of_nat (length l))%Z) (Analyser.w_duplicate_frames st) /\
  StronglySorted Z.lt (Analyser.w_motion_discontinuities st) /\
  Forall (fun i => (2 <= i < Z.of_nat (length l))%Z)
         (Analyser.w_motion_discontinuities st) /\
  StronglySorted Z.lt (Analyser.w_wobble_frames st) /\
  Forall (fun i => (2 <= i < Z.of_nat (length l))%Z) (Analyser.w_wobble_frames st).

(** A hundred black one-pixel frames in a container that declares no
    frame count. *)
Definition uncounted_clip : video :=
  {| declared_fps := 30; total_frame_count := 0; width := 1; height := 1;
     frames := repeat [[0%Z]] 100; pos_msec := [] |}.

(** What a record of [per_frame_data] holds for the frame [p]: its index
    and time and, for the frames after the first, the difference from the
    sampled frame before it. *)
Definition recorded (fps : Q) (first : bool) (frame : gmap string Q) (p : Z * gray) : Prop :=
  frame !! "frame_number"%string = Some (inject_Z (fst p)) /\
  frame !! "timestamp"%string = Some (Fps.timestamp_of fps (fst p)) /\
  frame !! "brightness"%string = Some (Py.mean (Dynamics.pixels (snd p))) /\
  if first
  then frame !! "frame_diff"%string = Some 0 /\
       frame !! "motion_intensity"%string = Some 0 /\
       frame !! "diff_percentage"%string = None
  else exists d,
         frame !! "frame_diff"%string = Some d /\
         frame !! "diff_percentage"%string = Some (d / 255 * 100).


(** * Properties *)

(** ** Facts about the arithmetic *)

(** [lra] after turning divisions by literals into products and injected
    integer literals into rational ones. *)
Ltac literal_div :=
  unfold Qdiv in *;
  change (inject_Z 0) with 0 in *;
  repeat match goal with
  | |- context [Qinv (Zpos ?n # ?d)] =>
      change (Qinv (Zpos n # d)) with (Zpos d # n)
  | H : context [Qinv (Zpos ?n # ?d)] |- _ =>
      change (Qinv (Zpos n # d)) with (Zpos d # n) in H
  | |- context [inject_Z (Zpos ?n)] =>
      is_ground n; change (inject_Z (Zpos n)) with (Zpos n # 1)
  | H : context [inject_Z (Zpos ?n)] |- _ =>
      is_ground n; change (inject_Z (Zpos n)) with (Zpos n # 1) in H
  end.

Ltac qlra := literal_div; lra.

Section PyFacts.

Lemma gtb_spec (x y : Q) : Py.gtb x y = true <-> y < x.
Proof.
  unfold Py.gtb. rewrite negb_true_iff, <- not_true_iff_false, Qle_bool_iff.
  split; [apply Qnot_le_lt | apply Qlt_not_le].
Qed.

Lemma gtb_false (x y : Q) : Py.gtb x y = false <-> x <= y.
Proof.
  unfold Py.gtb. rewrite negb_false_iff. apply Qle_bool_iff.
Qed.

Lemma geb_spec (x y : Q) : Py.geb x y = true <-> y <= x.
Proof. unfold Py.geb. apply Qle_bool_iff. Qed.

Lemma geb_false (x y : Q) : Py.geb x y = false <-> x < y.
Proof.
  unfold Py.geb. rewrite <- not_true_iff_false, Qle_bool_iff.
  split; [apply Qnot_le_lt | apply Qlt_not_le].
Qed.

Lemma fold_plus_shift (xs : list Q) (a : Q) :
  fold_left Qplus xs a == a + fold_left Qplus xs 0.
Proof.
  revert a. induction xs as [| x xs IH]; intros a; simpl.
  - lra.
  - rewrite (IH (a + x)), (IH (0 + x)). lra.
Qed.

Lemma sum_cons (x : Q) (xs : list Q) : Py.sum (x :: xs) == x + Py.sum xs.
Proof.
  unfold Py.sum. simpl. rewrite fold_plus_shift. lra.
Qed.

Lemma sum_nil : Py.sum [] == 0.
Proof. reflexivity. Qed.

Lemma sum_app (xs ys : list Q) : Py.sum (xs ++ ys) == Py.sum xs + Py.sum ys.
Proof.
  induction xs as [| x xs IH]; simpl.
  - rewrite sum_nil. lra.
  - rewrite !sum_cons, IH. lra.
Qed.

Lemma sum_nonneg (xs : list Q) : Forall (fun x => 0 <= x) xs -> 0 <= Py.sum xs.
Proof.
  induction 1 as [| x xs Hx _ IH].
  - rewrite sum_nil. lra.
  - rewrite sum_cons. lra.
Qed.

Lemma sum_zero (xs : list Q) : Forall (fun x => x == 0) xs -> Py.sum xs == 0.
Proof.
  induction 1 as [| x xs Hx _ IH].
  - reflexivity.
  - rewrite sum_cons, Hx, IH. lra.
Qed.

(** A sum of non-negative numbers that is not positive has only zeros. *)
Lemma sum_nonneg_zero (xs : list Q) :
  Forall (fun x => 0 <= x) xs -> Py.sum xs <= 0 -> Forall (fun x => x == 0) xs.
Proof.
  induction 1 as [| x xs Hx Hxs IH]; intros Hsum.
  - constructor.
  - rewrite sum_cons in Hsum. pose proof (sum_nonneg xs Hxs) as Hs.
    constructor; [lra | apply IH; lra].
Qed.

Lemma len_nonneg {A} (xs : list A) : 0 <= Py.len xs.
Proof.
  unfold Py.len. change 0 with (inject_Z 0). rewrite <- Zle_Qle. lia.
Qed.

Lemma len_pos {A} (xs : list A) : xs <> [] -> 0 < Py.len xs.
Proof.
  intros Hne. unfold Py.len. change 0 with (inject_Z 0). rewrite <- Zlt_Qlt.
  destruct xs; [congruence | simpl; lia].
Qed.

Lemma div_nonneg (a b : Q) : 0 <= a -> 0 <= b -> 0 <= a / b.
Proof.
  intros Ha Hb. destruct (Qeq_dec b 0) as [Hz | Hnz].
  - unfold Qdiv. rewrite Hz. change (/ 0) with 0. lra.
  - apply Qle_shift_div_l; lra.
Qed.

Lemma mean_nonneg (xs : list Q) : Forall (fun x => 0 <= x) xs -> 0 <= Py.mean xs.
Proof.
  intros H. unfold Py.mean.
  apply div_nonneg; [apply sum_nonneg; exact H | apply len_nonneg].
Qed.

Lemma mean_zero (xs : list Q) : Forall (fun x => x == 0) xs -> Py.mean xs == 0.
Proof.
  intros H. unfold Py.mean. rewrite (sum_zero xs H). unfold Qdiv. lra.
Qed.

(** A mean of non-negative numbers that is not positive: all are zero. *)
Lemma mean_nonneg_zero (xs : list Q) :
  Forall (fun x => 0 <= x) xs -> Py.mean xs <= 0 -> Forall (fun x => x == 0) xs.
Proof.
  intros Hxs Hmean. destruct xs as [| x xs']; [constructor |].
  apply sum_nonneg_zero; [exact Hxs |].
  unfold Py.mean in Hmean.
  pose proof (len_pos (x :: xs') ltac:(discriminate)) as Hlen.
  destruct (Qlt_le_dec 0 (Py.sum (x :: xs'))) as [Hpos | Hle]; [| exact Hle].
  exfalso. apply (Qlt_not_le _ _ (Qlt_shift_div_l _ _ _ Hlen
    ltac:(rewrite Qmult_0_l; exact Hpos))). exact Hmean.
Qed.

Lemma square_nonneg (a : Q) : 0 <= a * a.
Proof.
  destruct (Qlt_le_dec a 0) as [Hneg | Hpos].
  - assert (Hsq : a * a == (- a) * (- a)) by ring.
    rewrite Hsq. apply Qmult_le_0_compat; lra.
  - apply Qmult_le_0_compat; exact Hpos.
Qed.

Lemma var_nonneg (xs : list Q) : 0 <= Py.var xs.
Proof.
  unfold Py.var. apply mean_nonneg. apply Forall_map, Forall_forall.
  intros x _. apply square_nonneg.
Qed.

Lemma round_half_even_comp (x y : Q) :
  x == y -> Py.round_half_even x = Py.round_half_even y.
Proof.
  intros Hxy. unfold Py.round_half_even.
  rewrite (Qfloor_comp x y Hxy).
  assert (Hr : x - inject_Z (Qfloor y) == y - inject_Z (Qfloor y))
    by (rewrite Hxy; reflexivity).
  rewrite (Qcompare_comp _ _ Hr _ _ (Qeq_refl (1 # 2))). reflexivity.
Qed.

Lemma round_half_even_Z (k : Z) : Py.round_half_even (inject_Z k) = k.
Proof.
  unfold Py.round_half_even. rewrite Qfloor_Z.
  destruct (Qcompare_spec (inject_Z k - inject_Z k) (1 # 2)) as [Hc | Hc | Hc];
    [lra | reflexivity | lra].
Qed.

Lemma round_half_even_ge (y : Q) (k : Z) :
  inject_Z k <= y -> (k <= Py.round_half_even y)%Z.
Proof.
  intros Hk. apply Qfloor_resp_le in Hk. rewrite Qfloor_Z in Hk.
  unfold Py.round_half_even.
  destruct (Qcompare _ _); [destruct (Z.even _) | |]; lia.
Qed.

Lemma round_half_even_le (y : Q) (k : Z) :
  y <= inject_Z k -> (Py.round_half_even y <= k)%Z.
Proof.
  intros Hk. pose proof (Qfloor_le y) as Hfl.
  assert (Hfk : (Qfloor y <= k)%Z).
  { apply Qfloor_resp_le in Hk. rewrite Qfloor_Z in Hk. exact Hk. }
  assert (Hup : 1 # 2 <= y - inject_Z (Qfloor y) -> (Qfloor y + 1 <= k)%Z).
  { intros Hr. destruct (Z.eq_dec (Qfloor y) k) as [Heq | Hne]; [| lia].
    exfalso. rewrite Heq in Hr. lra. }
  unfold Py.round_half_even.
  destruct (Qcompare_spec (y - inject_Z (Qfloor y)) (1 # 2)) as [Hc | Hc | Hc].
  - destruct (Z.even _); [lia | apply Hup; lra].
  - lia.
  - apply Hup. lra.
Qed.

Lemma round2_unfold (x : Q) :
  Py.round x 2 = inject_Z (Py.round_half_even (x * 100)) / 100.
Proof. reflexivity. Qed.

Lemma round_comp (x y : Q) (n : Z) : x == y -> Py.round x n = Py.round y n.
Proof.
  intros Hxy. unfold Py.round.
  rewrite (round_half_even_comp (x * inject_Z (10 ^ n)) (y * inject_Z (10 ^ n)));
    [reflexivity | rewrite Hxy; reflexivity].
Qed.

(** Rounding to two digits keeps a value between two bounds that are
    themselves whole hundredths. *)
Lemma round2_between (x : Q) (a b : Z) :
  inject_Z a / 100 <= x -> x <= inject_Z b / 100 ->
  inject_Z a / 100 <= Py.round x 2 <= inject_Z b / 100.
Proof.
  intros Ha Hb. rewrite round2_unfold.
  assert (Hlo : inject_Z a <= x * 100) by qlra.
  assert (Hhi : x * 100 <= inject_Z b) by qlra.
  apply round_half_even_ge in Hlo. apply round_half_even_le in Hhi.
  rewrite Zle_Qle in Hlo, Hhi. split; qlra.
Qed.

(** A whole number of hundredths is its own rounding. *)
Lemma round2_exact (x : Q) (k : Z) : x == inject_Z k / 100 -> Py.round x 2 == x.
Proof.
  intros Hx. rewrite round2_unfold.
  rewrite (round_half_even_comp (x * 100) (inject_Z k)) by (rewrite Hx; field).
  rewrite round_half_even_Z. rewrite Hx. reflexivity.
Qed.

(** The result of a rounding to two digits is a whole number of
    hundredths. *)
Lemma round2_cents (x : Q) : exists k : Z, Py.round x 2 == inject_Z k / 100.
Proof.
  exists (Py.round_half_even (x * 100)). rewrite round2_unfold. reflexivity.
Qed.

End PyFacts.

(** ** The quality score aggregator *)

Section AggregatorFacts.

Import Aggregator.

(** [d.get(k, dflt)] satisfies what the stored value and the default do. *)
Lemma get_cases (P : Q -> Prop) (d : gmap string Q) (k : string) (dflt : Q) :
  (forall x, d !! k = Some x -> P x) -> P dflt -> P (Py.get d k dflt).
Proof.
  intros Hsome Hdflt. unfold Py.get. destruct (d !! k) as [x |]; simpl; auto.
Qed.

(** [round(max(0, y), 2)] for [y] below an integer cap. *)
Lemma capped_range (c : Z) (y : Q) :
  (0 <= c)%Z -> y <= inject_Z c ->
  0 <= Py.round (Qmax 0 y) 2 <= inject_Z c.
Proof.
  intros Hc Hy.
  assert (Hc' : 0 <= inject_Z c) by (change 0 with (inject_Z 0); rewrite <- Zle_Qle; lia).
  destruct (round2_between (Qmax 0 y) 0 (100 * c)) as [Hlo Hhi].
  - destruct (Q.max_spec 0 y) as [[Hlt ->] | [Hle ->]]; qlra.
  - rewrite inject_Z_mult.
    destruct (Q.max_spec 0 y) as [[Hlt ->] | [Hle ->]]; qlra.
  - rewrite inject_Z_mult in Hhi. split; qlra.
Qed.

Lemma fps_stability_range (fps : result_dict) :
  (forall d x, fps !! "overall_stats"%string = Some d ->
               d !! "std_fps"%string = Some x -> 0 <= x) ->
  0 <= fps_stability_of fps <= 25.
Proof.
  intros Hstd. unfold fps_stability_of.
  destruct (fps !! "overall_stats"%string) as [d |] eqn:Hd; [| lra].
  apply (capped_range 25); [lia |].
  destruct (Py.gtb (Py.get d "mean_fps" 0) 0) eqn:Hmean; [| change (inject_Z 25) with 25; lra].
  apply gtb_spec in Hmean.
  assert (Hs : 0 <= Py.get d "std_fps" 0).
  { apply get_cases; [intros x Hx; exact (Hstd d x eq_refl Hx) | lra]. }
  assert (Hm : 0 < Py.get d "mean_fps" 1).
  { unfold Py.get in *. destruct (d !! "mean_fps"%string); simpl in *; lra. }
  pose proof (div_nonneg _ _ Hs (Qlt_le_weak _ _ Hm)) as Hq.
  change (inject_Z 25) with 25. nra.
Qed.

Lemma pts_jitter_range (motion : result_dict) :
  (forall d x, motion !! "effective_fps_pts_jitter"%string = Some d ->
               d !! "jitter_percentage"%string = Some x -> 0 <= x) ->
  0 <= pts_jitter_of motion <= 15.
Proof.
  intros Hj. unfold pts_jitter_of.
  destruct (motion !! "effective_fps_pts_jitter"%string) as [d |]; [| lra].
  apply (capped_range 15); [lia |]. change (inject_Z 15) with 15.
  assert (0 <= Py.get d "jitter_percentage" 100)
    by (apply get_cases; [intros x Hx; exact (Hj d x eq_refl Hx) | lra]).
  lra.
Qed.

Lemma duplicate_frames_range (motion : result_dict) :
  (forall d x, motion !! "duplicate_frame_ratio"%string = Some d ->
               d !! "total_duplicate_ratio"%string = Some x -> 0 <= x) ->
  0 <= duplicate_frames_of motion <= 15.
Proof.
  intros Hr. unfold duplicate_frames_of.
  destruct (motion !! "duplicate_frame_ratio"%string) as [d |]; [| lra].
  apply (capped_range 15); [lia |]. change (inject_Z 15) with 15.
  assert (0 <= Py.get d "total_duplicate_ratio" 1)
    by (apply get_cases; [intros x Hx; exact (Hr d x eq_refl Hx) | lra]).
  lra.
Qed.

Lemma motion_continuity_range (motion : result_dict) :
  (forall d x, motion !! "motion_continuity"%string = Some d ->
               d !! "motion_continuity_score"%string = Some x ->
               0 <= x <= 100) ->
  0 <= motion_continuity_of motion <= 25.
Proof.
  intros Hc. unfold motion_continuity_of.
  destruct (motion !! "motion_continuity"%string) as [d |]; [| lra].
  assert (H : 0 <= Py.get d "motion_continuity_score" 0 <= 100)
    by (apply get_cases; [intros x Hx; exact (Hc d x eq_refl Hx) | lra]).
  destruct (round2_between
              (Py.get d "motion_continuity_score" 0 * (1 # 4)) 0 2500)
    as [Hlo Hhi]; [qlra | qlra |].
  split; qlra.
Qed.

Lemma wobble_range (motion : result_dict) :
  (forall d x, motion !! "wobble_distortion"%string = Some d ->
               d !! "wobble_distortion_score"%string = Some x -> 0 <= x) ->
  0 <= wobble_of motion <= 10.
Proof.
  intros Hw. unfold wobble_of.
  destruct (motion !! "wobble_distortion"%string) as [d |]; [| lra].
  apply (capped_range 10); [lia |]. change (inject_Z 10) with 10.
  assert (0 <= Py.get d "wobble_distortion_score" 100)
    by (apply get_cases; [intros x Hx; exact (Hw d x eq_refl Hx) | lra]).
  lra.
Qed.

(** The resolution tier is one of 0, 3, 5, 8, 10. *)
Lemma quality_tiers (basic : result_dict) :
  let q := quality_of basic in
  q = 0 \/ q = 3 \/ q = 5 \/ q = 8 \/ q = 10.
Proof.
  unfold quality_of. destruct (basic !! "resolution"%string) as [d |]; [| auto].
  repeat (destruct (_ || _); [tauto |]). tauto.
Qed.

Lemma quality_range (basic : result_dict) : 0 <= quality_of basic <= 10.
Proof.
  destruct (quality_tiers basic) as [H | [H | [H | [H | H]]]];
    rewrite H; lra.
Qed.

Lemma cents_Z (k : Z) : cents (inject_Z k).
Proof. exists (k * 100)%Z. rewrite inject_Z_mult. field. Qed.

Lemma cents_plus (x y : Q) : cents x -> cents y -> cents (x + y).
Proof.
  intros [k Hk] [l Hl]. exists (k + l)%Z.
  rewrite inject_Z_plus, Hk, Hl. field.
Qed.

Lemma cents_round_or_zero {A} (o : option A) (f : A -> Q) :
  cents match o with Some d => Py.round (f d) 2 | None => 0 end.
Proof.
  destruct o; [apply round2_cents | apply (cents_Z 0)].
Qed.

Lemma subscores_cents (basic fps motion : result_dict) :
  cents (fps_stability_of fps + pts_jitter_of motion + duplicate_frames_of motion
         + motion_continuity_of motion + wobble_of motion + quality_of basic).
Proof.
  repeat apply cents_plus;
    try (unfold fps_stability_of, pts_jitter_of, duplicate_frames_of,
           motion_continuity_of, wobble_of; apply cents_round_or_zero).
  destruct (quality_tiers basic) as [H | [H | [H | [H | H]]]]; rewrite H;
    [apply (cents_Z 0) | apply (cents_Z 3) | apply (cents_Z 5)
     | apply (cents_Z 8) | apply (cents_Z 10)].
Qed.

Lemma sum_six (a b c d e f : Q) :
  Py.sum [a; b; c; d; e; f] == a + b + c + d + e + f.
Proof. unfold Py.sum. simpl. lra. Qed.

Lemma total_is_sum (basic fps dynamics motion : result_dict) :
  let s := calculate_overall_score basic fps dynamics motion in
  total s == fps_stability s + pts_jitter s + duplicate_frames s
             + motion_continuity s + wobble s + quality s.
Proof.
  simpl. destruct (subscores_cents basic fps motion) as [k Hk].
  rewrite (round_comp _ _ 2 (sum_six _ _ _ _ _ _)).
  rewrite (round2_exact _ k Hk). reflexivity.
Qed.

End AggregatorFacts.

(** C2.  For inputs in the ranges the analyzers produce, each of the six
    sub-scores of [calculate_overall_score] lies between 0 and its cap
    (25, 15, 15, 25, 10, 10), the overall score equals the sum of the six
    sub-scores, and it lies between 0 and 100. *)
Theorem overall_score_bounds (basic fps dynamics motion : result_dict) :
  analyzer_ranges fps motion ->
  let s := Aggregator.calculate_overall_score basic fps dynamics motion in
  0 <= Aggregator.fps_stability s <= 25 /\
  0 <= Aggregator.pts_jitter s <= 15 /\
  0 <= Aggregator.duplicate_frames s <= 15 /\
  0 <= Aggregator.motion_continuity s <= 25 /\
  0 <= Aggregator.wobble s <= 10 /\
  0 <= Aggregator.quality s <= 10 /\
  Aggregator.total s ==
    Aggregator.fps_stability s + Aggregator.pts_jitter s
    + Aggregator.duplicate_frames s + Aggregator.motion_continuity s
    + Aggregator.wobble s + Aggregator.quality s /\
  0 <= Aggregator.total s <= 100.
Proof.
  intros (Hstd & Hjit & Hdup & Hcont & Hwob) s.
  pose proof (fps_stability_range fps Hstd) as H1.
  pose proof (pts_jitter_range motion Hjit) as H2.
  pose proof (duplicate_frames_range motion Hdup) as H3.
  pose proof (motion_continuity_range motion Hcont) as H4.
  pose proof (wobble_range motion Hwob) as H5.
  pose proof (quality_range basic) as H6.
  pose proof (total_is_sum basic fps dynamics motion) as Ht.
  subst s. simpl in *. repeat split; try tauto; try lra.
Qed.

(** The outputs of a flawless clip are in the analyzers' ranges. *)
Lemma flawless_in_ranges :
  analyzer_ranges Reference.flawless_fps Reference.flawless_motion.
Proof.
  assert (Hkey : forall (m : result_dict) (k : string) (d0 d : gmap string Q)
                        (j : string) (x0 x : Q),
             m !! k = Some d0 -> d0 !! j = Some x0 ->
             m !! k = Some d -> d !! j = Some x -> x = x0).
  { intros m k d0 d j x0 x H1 H2 H3 H4. congruence. }
  split; [| split; [| split; [| split]]]; intros d x Hd Hx.
  - rewrite (Hkey Reference.flawless_fps "overall_stats"%string Reference.flawless_stats
               d "std_fps"%string 0 x eq_refl eq_refl Hd Hx). lra.
  - rewrite (Hkey Reference.flawless_motion "effective_fps_pts_jitter"%string
               Reference.flawless_jitter d "jitter_percentage"%string 0 x
               eq_refl eq_refl Hd Hx). lra.
  - rewrite (Hkey Reference.flawless_motion "duplicate_frame_ratio"%string
               Reference.flawless_duplicates d "total_duplicate_ratio"%string 0 x
               eq_refl eq_refl Hd Hx). lra.
  - rewrite (Hkey Reference.flawless_motion "motion_continuity"%string
               Reference.flawless_continuity d "motion_continuity_score"%string
               100 x eq_refl eq_refl Hd Hx). lra.
  - rewrite (Hkey Reference.flawless_motion "wobble_distortion"%string
               Reference.flawless_wobble d "wobble_distortion_score"%string 0 x
               eq_refl eq_refl Hd Hx). lra.
Qed.

(** The theorem at the outputs of a flawless 1920x1080 clip. *)
Lemma overall_score_bounds_witness :
  analyzer_ranges Reference.flawless_fps Reference.flawless_motion /\
  0 <= Aggregator.total
         (Aggregator.calculate_overall_score
            Reference.full_hd Reference.flawless_fps ∅ Reference.flawless_motion)
    <= 100.
Proof.
  split; [exact flawless_in_ranges |].
  apply (overall_score_bounds Reference.full_hd Reference.flawless_fps ∅
           Reference.flawless_motion flawless_in_ranges).
Defined.

Section PerfectVideo.

Import Aggregator.

Lemma round2_of (x c : Q) : x == c -> Py.round c 2 == c -> Py.round x 2 == c.
Proof. intros Hx Hc. rewrite (round_comp x c 2 Hx). exact Hc. Qed.

Lemma max0_of (x c : Q) : x == c -> 0 <= c -> Qmax 0 x == c.
Proof.
  intros Hx Hc. destruct (Q.max_spec 0 x) as [[Hlt ->] | [Hle ->]]; lra.
Qed.

(** The five temporal sub-scores of flawless inputs are at their caps. *)
Lemma perfect_subscores (fps motion : result_dict) :
  perfect_inputs fps motion ->
  fps_stability_of fps == 25 /\ pts_jitter_of motion == 15 /\
  duplicate_frames_of motion == 15 /\ motion_continuity_of motion == 25 /\
  wobble_of motion == 10.
Proof.
  intros (st & jit & dup & mc & wob & Hst & Hmean & Hstd & Hjit & Hj
          & Hdup & Hd & Hmc & Hc & Hwob & Hw).
  unfold fps_stability_of, pts_jitter_of, duplicate_frames_of,
    motion_continuity_of, wobble_of.
  rewrite Hst, Hjit, Hdup, Hmc, Hwob.
  apply gtb_spec in Hmean. rewrite Hmean.
  repeat split; apply round2_of; try reflexivity;
    try (apply max0_of; [| lra]); rewrite ?Hstd, ?Hj, ?Hd, ?Hc, ?Hw;
    try lra.
  unfold Qdiv. lra.
Qed.

(** With flawless inputs the total is 90 plus the resolution tier, and the
    grade is the top one. *)
Lemma perfect_total (basic fps dynamics motion : result_dict) :
  perfect_inputs fps motion ->
  let s := calculate_overall_score basic fps dynamics motion in
  total s == 90 + quality s /\ score_grade s = Excellent.
Proof.
  intros Hp s.
  destruct (perfect_subscores fps motion Hp) as (H1 & H2 & H3 & H4 & H5).
  pose proof (total_is_sum basic fps dynamics motion) as Ht.
  pose proof (quality_range basic) as Hq.
  subst s. simpl in *. split; [lra |].
  unfold grade_of.
  assert (Hge : Py.geb (Py.sum [fps_stability_of fps; pts_jitter_of motion;
                                duplicate_frames_of motion;
                                motion_continuity_of motion; wobble_of motion;
                                quality_of basic]) 90 = true).
  { apply geb_spec. rewrite sum_six. lra. }
  rewrite Hge. reflexivity.
Qed.

(** The top tier is that of 4K frames. *)
Lemma quality_top (basic : result_dict) :
  quality_of basic == 10 <->
  exists res, basic !! "resolution"%string = Some res /\
              (3840 <= Py.get res "width" 0 \/ 2160 <= Py.get res "height" 0).
Proof.
  unfold quality_of. destruct (basic !! "resolution"%string) as [res |].
  - destruct (Py.geb (Py.get res "width" 0) 3840
              || Py.geb (Py.get res "height" 0) 2160) eqn:H4k.
    + split; [intros _ | reflexivity]. exists res. split; [reflexivity |].
      apply orb_true_iff in H4k. rewrite !geb_spec in H4k. exact H4k.
    + split.
      * repeat (destruct (_ || _)); intros H; exfalso; revert H;
          unfold Qeq; simpl; lia.
      * intros (res' & Hres & H). injection Hres as <-.
        rewrite <- !geb_spec, <- orb_true_iff in H. congruence.
  - split; [unfold Qeq; simpl; lia | intros (res & Hres & _); discriminate].
Qed.

End PerfectVideo.

(** C3, as the code has it.  With flawless inputs the five temporal
    sub-scores are at their caps (25, 15, 15, 25, 10), the overall score
    is 90 plus the resolution tier, the grade is the top one, and the
    overall score is 100 exactly for frames of at least 3840 columns or
    2160 rows. *)
Theorem perfect_video_score (basic fps dynamics motion : result_dict) :
  perfect_inputs fps motion ->
  let s := Aggregator.calculate_overall_score basic fps dynamics motion in
  Aggregator.fps_stability s == 25 /\
  Aggregator.pts_jitter s == 15 /\
  Aggregator.duplicate_frames s == 15 /\
  Aggregator.motion_continuity s == 25 /\
  Aggregator.wobble s == 10 /\
  Aggregator.total s == 90 + Aggregator.quality s /\
  Aggregator.score_grade s = Aggregator.Excellent /\
  (Aggregator.total s == 100 <->
   exists res, basic !! "resolution"%string = Some res /\
               (3840 <= Py.get res "width" 0 \/ 2160 <= Py.get res "height" 0)).
Proof.
  intros Hp s.
  destruct (perfect_subscores fps motion Hp) as (H1 & H2 & H3 & H4 & H5).
  destruct (perfect_total basic fps dynamics motion Hp) as [Ht Hg].
  repeat (split; [assumption |]).
  rewrite <- quality_top. subst s. simpl in *. split; intros H; lra.
Qed.

Lemma flawless_is_perfect :
  perfect_inputs Reference.flawless_fps Reference.flawless_motion.
Proof.
  exists Reference.flawless_stats, Reference.flawless_jitter,
    Reference.flawless_duplicates, Reference.flawless_continuity,
    Reference.flawless_wobble.
  repeat (split; [reflexivity |]). reflexivity.
Qed.

(** C3, counterexample to the claim as stated: a flawless 1920x1080 clip
    has the resolution sub-score 8, not its cap 10, and the overall score
    98. *)
Lemma perfect_full_hd_scores_98 :
  let s := Aggregator.calculate_overall_score
             Reference.full_hd Reference.flawless_fps ∅ Reference.flawless_motion in
  perfect_inputs Reference.flawless_fps Reference.flawless_motion /\
  Aggregator.quality s == 8 /\ Aggregator.total s == 98 /\
  ~ (Aggregator.quality s == 10 /\ Aggregator.total s == 100).
Proof.
  split; [exact flawless_is_perfect | split; [reflexivity | split; [reflexivity |]]].
  intros [H _]. discriminate H.
Qed.

(** The theorem at the flawless 1920x1080 clip. *)
Lemma perfect_video_score_witness :
  perfect_inputs Reference.flawless_fps Reference.flawless_motion /\
  Aggregator.score_grade
    (Aggregator.calculate_overall_score
       Reference.full_hd Reference.flawless_fps ∅ Reference.flawless_motion)
  = Aggregator.Excellent.
Proof.
  split; [exact flawless_is_perfect |].
  apply (perfect_video_score Reference.full_hd Reference.flawless_fps ∅
           Reference.flawless_motion flawless_is_perfect).
Defined.

(** ** Lists *)

Lemma filter_none {A} (P : A -> Prop) `{!forall x, Decision (P x)} (l : list A) :
  Forall (fun x => ~ P x) l -> filter P l = [].
Proof.
  induction 1 as [| x l Hx _ IH]; [reflexivity |].
  rewrite filter_cons. destruct (decide (P x)); [contradiction | exact IH].
Qed.

(** ** The strided loop *)

Section StridedLoop.

Context {S : Type}.

(** The loop analyses exactly the frames whose index is a multiple of the
    stride, in order. *)
Lemma strided_loop_from (sample_rate : Z) (body : Z -> gray -> S -> S)
    (fs : list gray) (k : Z) (init : S) :
  snd (fold_left
         (fun '(frame_number, st) frame =>
            if bool_decide ((frame_number mod sample_rate)%Z <> 0%Z)
            then ((frame_number + 1)%Z, st)
            else ((frame_number + 1)%Z, body frame_number frame st))
         fs (k, init))
  = fold_left (fun st p => body (fst p) (snd p) st)
      (filter (fun p => (fst p mod sample_rate)%Z = 0%Z) (enumerate k fs)) init.
Proof.
  revert k init. induction fs as [| f fs IH]; intros k init; [reflexivity |].
  cbn [fold_left enumerate]. rewrite filter_cons. cbn [fst].
  destruct (decide ((k mod sample_rate)%Z = 0%Z)) as [Hz | Hnz].
  - rewrite bool_decide_eq_false_2 by (intros Hn; exact (Hn Hz)).
    rewrite IH. reflexivity.
  - rewrite bool_decide_eq_true_2 by exact Hnz. apply IH.
Qed.

Lemma strided_loop_sampled (sample_rate : Z) (body : Z -> gray -> S -> S)
    (fs : list gray) (init : S) :
  strided_loop sample_rate body fs init
  = fold_left (fun st p => body (fst p) (snd p) st) (sampled sample_rate fs) init.
Proof. apply strided_loop_from. Qed.

(** A property of the state that every body step keeps holds at the end. *)
Lemma strided_loop_invariant (P : S -> Prop) (sample_rate : Z)
    (body : Z -> gray -> S -> S) (fs : list gray) (init : S) :
  P init -> (forall n f st, P st -> P (body n f st)) ->
  P (strided_loop sample_rate body fs init).
Proof.
  intros Hinit Hstep. rewrite strided_loop_sampled.
  generalize (sampled sample_rate fs). intros l. revert init Hinit.
  induction l as [| p l IH]; intros init Hinit; [exact Hinit |].
  simpl. apply IH, Hstep, Hinit.
Qed.

End StridedLoop.

Section ZeroStride.

Lemma zero_stride_false (sample_rate : Z) (fs : list gray) :
  sample_rate <> 0%Z -> zero_stride sample_rate fs = false.
Proof.
  intros Hrate. unfold zero_stride. destruct fs; [reflexivity |].
  apply Z.eqb_neq, Hrate.
Qed.

Lemma enumerate_from_positive {A} (k : Z) (fs : list A) :
  (0 < k)%Z ->
  filter (fun p => (fst p mod 0)%Z = 0%Z) (enumerate k fs) = [].
Proof.
  revert k. induction fs as [| f fs IH]; intros k Hk; [reflexivity |].
  cbn [enumerate]. rewrite filter_cons_False by (cbn; rewrite Z.mod_0_r; lia).
  apply IH. lia.
Qed.

(** Were the loop to run with the stride zero, it would analyse the first
    frame only. *)
Lemma sampled_zero_stride {A} (fs : list A) :
  sampled 0 fs = take 1 (enumerate 0 fs).
Proof.
  unfold sampled. destruct fs as [| f fs]; [reflexivity |].
  cbn [enumerate]. rewrite filter_cons_True by reflexivity.
  rewrite enumerate_from_positive by lia. reflexivity.
Qed.

End ZeroStride.

(** ** Motion continuity *)

Section MotionFacts.

Context `{Backend}.
Hypothesis sqrt_nonneg : forall x, 0 <= sqrt x.

Import Motion.

Lemma mean_magnitude_nonneg (flow : flow_field) : 0 <= mean_magnitude flow.
Proof.
  unfold mean_magnitude. apply mean_nonneg, Forall_map, Forall_forall.
  intros d _. apply sqrt_nonneg.
Qed.

Lemma std_nonneg (xs : list Q) : 0 <= Py.std xs.
Proof. apply sqrt_nonneg. Qed.

Lemma jerk_of_spec (ms : list Q) (j : Q) :
  jerk_of ms = Some j ->
  exists a b c, a ∈ ms /\ b ∈ ms /\ c ∈ ms /\ j = Qabs (a - 2 * b + c).
Proof.
  unfold jerk_of. destruct (rev ms) as [| m1 [| m2 [| m3 l]]] eqn:Hrev;
    try discriminate.
  intros [= <-]. exists m1, m2, m3.
  assert (Hin : forall x, x ∈ rev ms -> x ∈ ms).
  { intros x Hx. apply list_elem_of_In, in_rev, list_elem_of_In. exact Hx. }
  rewrite Hrev in Hin.
  repeat split; try apply Hin; set_solver.
Qed.

Lemma track_frame_tracked (n : Z) (f : gray) (st : tracker) :
  tracked st -> tracked (track_frame n f st).
Proof.
  intros (Hm & Hj & Hc). unfold track_frame.
  destruct (prev_gray st) as [prev |] eqn:Hprev.
  - unfold tracked. cbn [motion_magnitudes jerk_values prev_gray analyzed_count].
    split; [| split].
    + apply Forall_app. split; [exact Hm |].
      constructor; [apply mean_magnitude_nonneg | constructor].
    + assert (Hold : Forall (fun j => exists a b c,
                a ∈ motion_magnitudes st ++ [mean_magnitude (calcOpticalFlowFarneback prev f)] /\
                b ∈ motion_magnitudes st ++ [mean_magnitude (calcOpticalFlowFarneback prev f)] /\
                c ∈ motion_magnitudes st ++ [mean_magnitude (calcOpticalFlowFarneback prev f)] /\
                j = Qabs (a - 2 * b + c)) (jerk_values st)).
      { eapply Forall_impl; [exact Hj |]. intros j (a & b & c & Ha & Hb & Hc' & Hjabc).
        exists a, b, c. rewrite !elem_of_app. tauto. }
      destruct (jerk_of _) as [jerk |] eqn:Hjerk; [| exact Hold].
      apply Forall_app. split; [exact Hold |].
      constructor; [apply jerk_of_spec; exact Hjerk | constructor].
    + destruct Hc as [Hge Hlen]. rewrite length_app. simpl. lia.
  - unfold tracked. cbn [motion_magnitudes jerk_values prev_gray analyzed_count].
    destruct Hc as [Hz Hnil]. rewrite Hnil. split; [constructor | split].
    + rewrite Hnil in Hj. exact Hj.
    + simpl. lia.
Qed.

Lemma track_all_tracked (fs : list gray) (sample_rate : Z) :
  tracked (track_all fs sample_rate).
Proof.
  unfold track_all. apply strided_loop_invariant.
  - unfold tracked, tracker_init. simpl. repeat split; constructor.
  - intros n f st. apply track_frame_tracked.
Qed.

(** Without motion there is no jerk peak: when the mean magnitude is not
    positive, every magnitude and so every jerk is zero, and no jerk
    exceeds the threshold. *)
Lemma still_clip_no_peaks (st : tracker) :
  tracked st -> Py.mean (motion_magnitudes st) <= 0 ->
  jerk_peak_ratio_of (jerk_values st) == 0.
Proof.
  intros (Hm & Hj & _) Hmean.
  pose proof (mean_nonneg_zero _ Hm Hmean) as Hzero.
  assert (Hjz : Forall (fun j => j == 0) (jerk_values st)).
  { eapply Forall_impl; [exact Hj |].
    intros j (a & b & c & Ha & Hb & Hc & ->).
    rewrite Forall_forall in Hzero.
    rewrite (Hzero a Ha), (Hzero b Hb), (Hzero c Hc). reflexivity. }
  unfold jerk_peak_ratio_of.
  assert (Hnone : filter (fun j => Py.gtb j (Py.mean (jerk_values st)
                                             + 2 * Py.std (jerk_values st)) = true)
                         (jerk_values st) = []).
  { apply filter_none. eapply Forall_impl; [exact Hjz |].
    intros j Hj0 Hgt. apply gtb_spec in Hgt.
    pose proof (mean_zero _ Hjz) as Hmz.
    pose proof (std_nonneg (jerk_values st)) as Hs. cbv beta in Hj0. lra. }
  rewrite Hnone. unfold Qdiv. apply Qmult_0_l.
Qed.

End MotionFacts.

Section JerkinessFacts.

Context `{Backend}.
Hypothesis sqrt_nonneg : forall x, 0 <= sqrt x.

Import Motion.

(** The peak ratio is the fraction of jerk samples strictly above
    [mean_jerk + 2 * std_jerk]. *)
Lemma jerk_peak_ratio_spec (jerks : list Q) :
  jerk_peak_ratio_of jerks
  = Py.len (filter (fun j => Py.mean jerks + 2 * Py.std jerks < j) jerks)
    / Py.len jerks.
Proof.
  unfold jerk_peak_ratio_of, Py.len.
  rewrite (list_filter_iff _ (fun j => Py.mean jerks + 2 * Py.std jerks < j));
    [reflexivity |].
  intros j. apply gtb_spec.
Qed.

(** A jerk sample needs three magnitudes. *)
Lemma jerks_need_motion (st : tracker) :
  tracked st -> jerk_values st <> [] -> motion_magnitudes st <> [].
Proof.
  intros (_ & Hj & _) Hne Hnil.
  destruct (jerk_values st) as [| j js]; [congruence |].
  apply Forall_cons_1 in Hj as [(a & _ & _ & Ha & _) _].
  rewrite Hnil in Ha. inversion Ha.
Qed.

(** The jerkiness score in the words of the specification: the guard on
    the mean motion only matters for the ratio term, since a clip without
    motion has no jerk peaks. *)
Lemma jerkiness_score_spec (st : tracker) :
  tracked st -> jerk_values st <> [] ->
  jerkiness_score_of (motion_magnitudes st) (jerk_values st)
  == Qmin 100
       (50 * jerk_peak_ratio_of (jerk_values st)
        + (if Py.gtb (Py.mean (motion_magnitudes st)) 0
           then 50 * (Py.mean (jerk_values st) / Py.mean (motion_magnitudes st))
           else 0)).
Proof.
  intros Htr Hne. unfold jerkiness_score_of.
  destruct (jerk_values st) as [| j js] eqn:Hjs; [congruence |].
  rewrite <- Hjs.
  destruct (Py.gtb (Py.mean (motion_magnitudes st)) 0) eqn:Hmotion.
  - apply Q.min_compat; [reflexivity |]. unfold Qdiv. ring.
  - apply gtb_false in Hmotion.
    pose proof (still_clip_no_peaks sqrt_nonneg st Htr Hmotion) as Hz.
    apply Q.min_compat; [reflexivity |]. rewrite Hz. ring.
Qed.

End JerkinessFacts.

(** A clip with a jerk sample was not read with the stride zero. *)
Lemma jerks_need_stride `{Backend} (fs : list gray) (sample_rate : Z) :
  Motion.jerk_values (Motion.track_all fs sample_rate) <> [] ->
  zero_stride sample_rate fs = false.
Proof.
  intros Hne. unfold zero_stride. destruct fs as [| f fs]; [reflexivity |].
  destruct (Z.eqb_spec sample_rate 0) as [-> | Hrate]; [| reflexivity].
  exfalso. apply Hne. unfold Motion.track_all.
  rewrite strided_loop_sampled, sampled_zero_stride. reflexivity.
Qed.

(** What [_analyze_motion_continuity] returns when the loop test does not
    raise. *)
Lemma motion_continuity_returns `{Backend} (fs : list gray) (sample_rate : Z) :
  zero_stride sample_rate fs = false ->
  Motion._analyze_motion_continuity fs sample_rate
  = inr (Motion.continuity_dict
           (Motion.motion_magnitudes (Motion.track_all fs sample_rate))
           (Motion.jerk_values (Motion.track_all fs sample_rate))).
Proof.
  intros Hstride. unfold Motion._analyze_motion_continuity.
  rewrite Hstride. reflexivity.
Qed.

(** C5.  For every video with at least one jerk sample, the motion
    continuity analyzer returns a dictionary whose jerkiness score equals
    [min(100, 50 * spike_ratio + 50 * mean_jerk / mean_motion)], the
    second term being zero when the mean motion is zero, where
    [spike_ratio] is the fraction of jerk samples strictly above
    [mean_jerk + 2 * std_jerk]; the continuity score is 100 minus the
    jerkiness score. *)
Theorem jerkiness_score_formula `{Backend} (fs : list gray) (sample_rate : Z) :
  (forall x, 0 <= sqrt x) ->
  let st := Motion.track_all fs sample_rate in
  let jerks := Motion.jerk_values st in
  let mean_motion := Py.mean (Motion.motion_magnitudes st) in
  let mean_jerk := Py.mean jerks in
  let std_jerk := Py.std jerks in
  let spike_ratio :=
    Py.len (filter (fun j => mean_jerk + 2 * std_jerk < j) jerks) / Py.len jerks in
  jerks <> [] ->
  exists (result : gmap string Q) (jerkiness_score : Q),
    Motion._analyze_motion_continuity fs sample_rate = inr result /\
    result !! "jerkiness_score"%string = Some jerkiness_score /\
    jerkiness_score ==
      Qmin 100 (50 * spike_ratio
                + (if Py.gtb mean_motion 0
                   then 50 * (mean_jerk / mean_motion) else 0)) /\
    result !! "motion_continuity_score"%string = Some (100 - jerkiness_score).
Proof.
  intros Hsqrt st jerks mean_motion mean_jerk std_jerk spike_ratio Hne.
  pose proof (track_all_tracked Hsqrt fs sample_rate) as Htr.
  pose proof (jerks_need_motion st Htr Hne) as Hmotion.
  exists (Motion.continuity_dict (Motion.motion_magnitudes st) jerks),
    (Motion.jerkiness_score_of (Motion.motion_magnitudes st) jerks).
  split; [| split; [| split]].
  - apply motion_continuity_returns, jerks_need_stride, Hne.
  - unfold Motion.continuity_dict.
    destruct (Motion.motion_magnitudes st); [congruence | reflexivity].
  - subst spike_ratio mean_jerk std_jerk mean_motion jerks.
    rewrite <- jerk_peak_ratio_spec.
    apply (jerkiness_score_spec Hsqrt st Htr Hne).
  - unfold Motion.continuity_dict.
    destruct (Motion.motion_magnitudes st); [congruence | reflexivity].
Qed.

(** The computable backend's square root is not negative. *)
Lemma floor_sqrt_nonneg (x : Q) : 0 <= Reference.floor_sqrt x.
Proof.
  unfold Reference.floor_sqrt, Qle. simpl. rewrite Z.mul_1_r.
  apply Z.sqrt_nonneg.
Qed.

Lemma moving_frames_have_jerk :
  Motion.jerk_values
    (Motion.track_all (H := Reference.backend) Reference.moving_frames 1) <> [].
Proof. vm_compute. discriminate. Qed.

(** The theorem at a four-frame clip analysed with stride 1. *)
Lemma jerkiness_score_formula_witness :
  (forall x, 0 <= Reference.floor_sqrt x) /\
  Motion.jerk_values
    (Motion.track_all (H := Reference.backend) Reference.moving_frames 1) <> [] /\
  exists (result : gmap string Q) (jerkiness_score : Q),
    Motion._analyze_motion_continuity (H := Reference.backend)
      Reference.moving_frames 1 = inr result /\
    result !! "jerkiness_score"%string = Some jerkiness_score /\
    result !! "motion_continuity_score"%string = Some (100 - jerkiness_score).
Proof.
  split; [exact floor_sqrt_nonneg | split; [exact moving_frames_have_jerk |]].
  destruct (jerkiness_score_formula (H := Reference.backend)
              Reference.moving_frames 1 floor_sqrt_nonneg
              moving_frames_have_jerk) as (result & j & Hret & Hj & _ & Hc).
  exists result, j. split; [exact Hret | split; [exact Hj | exact Hc]].
Defined.

(** ** Clips too short for motion *)

Section ShortClips.

Context `{Backend}.

Import Motion.

(** Without a magnitude the result is the five-key default dictionary. *)
Lemma continuity_dict_default (jerks : list Q) :
  continuity_dict [] jerks !! "jerkiness_score"%string = Some 0 /\
  continuity_dict [] jerks !! "motion_continuity_score"%string = None.
Proof. split; reflexivity. Qed.

(** With a magnitude both scores are stored. *)
Lemma continuity_dict_scores (m : Q) (ms jerks : list Q) :
  continuity_dict (m :: ms) jerks !! "jerkiness_score"%string
  = Some (jerkiness_score_of (m :: ms) jerks) /\
  continuity_dict (m :: ms) jerks !! "motion_continuity_score"%string
  = Some (100 - jerkiness_score_of (m :: ms) jerks).
Proof. split; reflexivity. Qed.

(** One magnitude per analysed frame after the first. *)
Lemma magnitudes_count (fs : list gray) (sample_rate : Z) :
  let st := track_all fs sample_rate in
  ((analyzed_count st < 2)%Z -> motion_magnitudes st = []) /\
  ((2 <= analyzed_count st)%Z -> motion_magnitudes st <> []).
Proof.
  intros st.
  assert (Hinv : match prev_gray st with
                 | None => analyzed_count st = 0%Z /\ motion_magnitudes st = []
                 | Some _ =>
                     (1 <= analyzed_count st)%Z /\
                     Z.of_nat (length (motion_magnitudes st))
                     = (analyzed_count st - 1)%Z
                 end).
  { subst st. unfold track_all. apply strided_loop_invariant.
    - simpl. split; reflexivity.
    - intros n f s Hs. unfold track_frame.
      destruct (prev_gray s) as [prev |];
        cbn [prev_gray motion_magnitudes analyzed_count].
      + destruct Hs as [Hge Hlen]. rewrite length_app. simpl. lia.
      + destruct Hs as [Hz Hnil]. rewrite Hnil. simpl. lia. }
  destruct (prev_gray st) as [prev |].
  - destruct Hinv as [Hge Hlen]. split; intros Hc.
    + destruct (motion_magnitudes st); [reflexivity | simpl in Hlen; lia].
    + intros Hnil. rewrite Hnil in Hlen. simpl in Hlen. lia.
  - destruct Hinv as [Hz Hnil]. split; intros Hc; [exact Hnil | lia].
Qed.

(** The loop counts the frames it analyses. *)
Lemma track_all_count (fs : list gray) (sample_rate : Z) :
  analyzed_count (track_all fs sample_rate)
  = Z.of_nat (length (sampled_frames sample_rate fs)).
Proof.
  unfold track_all, sampled_frames. rewrite strided_loop_sampled, length_map.
  assert (Hgen : forall l st,
            analyzed_count
              (fold_left (fun st p => track_frame (fst p) (snd p) st) l st)
            = (analyzed_count st + Z.of_nat (length l))%Z).
  { induction l as [| p l IH]; intros st; [simpl; lia |].
    cbn [fold_left length]. rewrite IH. unfold track_frame.
    destruct (prev_gray st); cbn [analyzed_count]; lia. }
  rewrite Hgen. reflexivity.
Qed.

End ShortClips.

(** C10.  When fewer than two frames are sampled, the motion continuity
    analyzer returns, without raising, the default dictionary, which holds
    [jerkiness_score = 0] and has no [motion_continuity_score] key, and
    the aggregator gives the clip the continuity sub-score 0; a clip with
    at least two sampled frames and zero jerkiness gets the sub-score
    25. *)
Theorem short_clip_continuity_subscore `{Backend} (fs : list gray)
    (sample_rate : Z) :
  sample_rate <> 0%Z ->
  exists result : gmap string Q,
    Motion._analyze_motion_continuity fs sample_rate = inr result /\
    ((length (sampled_frames sample_rate fs) < 2)%nat ->
       result !! "jerkiness_score"%string = Some 0 /\
       result !! "motion_continuity_score"%string = None /\
       forall motion : result_dict,
         motion !! "motion_continuity"%string = Some result ->
         Aggregator.motion_continuity_of motion == 0) /\
    ((2 <= length (sampled_frames sample_rate fs))%nat ->
       Py.get result "jerkiness_score" 0 == 0 ->
       forall motion : result_dict,
         motion !! "motion_continuity"%string = Some result ->
         Aggregator.motion_continuity_of motion == 25).
Proof.
  intros Hrate. set (st := Motion.track_all fs sample_rate).
  exists (Motion.continuity_dict (Motion.motion_magnitudes st) (Motion.jerk_values st)).
  split; [apply motion_continuity_returns, zero_stride_false, Hrate |].
  destruct (magnitudes_count fs sample_rate) as [Hshort Hlong].
  fold st in Hshort, Hlong.
  pose proof (track_all_count fs sample_rate) as Hcount. fold st in Hcount.
  split.
  - intros Hlt. rewrite Hshort by lia.
    destruct (continuity_dict_default (Motion.jerk_values st)) as [Hj Hc].
    split; [exact Hj | split; [exact Hc |]].
    intros motion Hmotion. unfold Aggregator.motion_continuity_of.
    rewrite Hmotion. unfold Py.get. rewrite Hc. reflexivity.
  - intros Hge Hzero motion Hmotion. specialize (Hlong ltac:(lia)).
    unfold Aggregator.motion_continuity_of. rewrite Hmotion.
    destruct (Motion.motion_magnitudes st) as [| m ms]; [congruence |].
    destruct (continuity_dict_scores m ms (Motion.jerk_values st)) as [Hj Hc].
    unfold Py.get in *. rewrite Hj in Hzero. rewrite Hc. simpl in *.
    apply round2_of; [rewrite Hzero; reflexivity | reflexivity].
Qed.

Lemma single_frame_is_short :
  1%Z <> 0%Z /\ (length (sampled_frames 1 Reference.single_frame) < 2)%nat.
Proof. split; [discriminate | simpl; lia]. Qed.

(** The theorem at a one-frame clip. *)
Lemma short_clip_continuity_subscore_witness :
  1%Z <> 0%Z /\
  exists result : gmap string Q,
    Motion._analyze_motion_continuity (H := Reference.backend)
      Reference.single_frame 1 = inr result /\
    ((length (sampled_frames 1 Reference.single_frame) < 2)%nat ->
     result !! "motion_continuity_score"%string = None).
Proof.
  split; [exact (proj1 single_frame_is_short) |].
  destruct (short_clip_continuity_subscore (H := Reference.backend)
              Reference.single_frame 1 (proj1 single_frame_is_short))
    as (result & Hret & Hshort & _).
  exists result. split; [exact Hret |].
  intros Hlt. exact (proj1 (proj2 (Hshort Hlt))).
Defined.

(** ** Wobble distortion *)

Section GridFacts.

Context {A : Type}.

Import Wobble.





End GridFacts.

Section WobbleFacts.

Context `{Backend}.

Import Wobble.
















Lemma finite_inv (xs : list (option Q)) (l : list Q) :
  finite xs = Some l -> xs = map Some l.
Proof.
  revert l. induction xs as [| [x |] xs IH]; intros l; cbn [finite].
  - intros [= <-]. reflexivity.
  - destruct (finite xs) as [l' |]; [| discriminate].
    intros [= <-]. cbn [map]. rewrite (IH l' eq_refl). reflexivity.
  - discriminate.
Qed.




Lemma nan_mean_nonneg (xs : list (option Q)) (m : Q) :
  Forall (fun s => forall x, s = Some x -> 0 <= x) xs ->
  nan_mean xs = Some m -> 0 <= m.
Proof.
  intros Hnn Hmean. unfold nan_mean in Hmean.
  destruct xs as [| s xs]; [discriminate |].
  destruct (finite (s :: xs)) as [l |] eqn:Hfin; [| discriminate].
  injection Hmean as <-. apply finite_inv in Hfin. rewrite Hfin in Hnn.
  apply mean_nonneg, Forall_forall. intros x Hx.
  apply (proj1 (Forall_forall _ _) Hnn (Some x)); [| reflexivity].
  apply list_elem_of_fmap. exists x. auto.
Qed.

(** The score of a block that holds a vector. *)
Lemma block_variance_some (block : list (Q * Q)) :
  block <> [] ->
  block_variance block
  = Some (Py.var (map Motion.magnitude block) + Py.var (map direction block) * 10).
Proof. destruct block; [congruence | reflexivity]. Qed.

Lemma block_variance_nonneg (block : list (Q * Q)) (x : Q) :
  block_variance block = Some x -> 0 <= x.
Proof.
  destruct block as [| d block]; [discriminate |].
  rewrite block_variance_some by discriminate.
  pose proof (var_nonneg (map Motion.magnitude (d :: block))) as Hmag.
  pose proof (var_nonneg (map direction (d :: block))) as Hdir.
  set (mag_variance := Py.var (map Motion.magnitude (d :: block))) in *.
  set (dir_variance := Py.var (map direction (d :: block))) in *.
  intros Hx. injection Hx as Hx. rewrite <- Hx. lra.
Qed.

Lemma grid_variance_score_nonneg (flow : flow_field) (x : Q) :
  grid_variance_score flow = Some x -> 0 <= x.
Proof.
  unfold grid_variance_score. apply nan_mean_nonneg.
  apply Forall_map, Forall_forall. intros block _ y. apply block_variance_nonneg.
Qed.



(** The scanning loop stores one value per pair of consecutive sampled
    frames, computed from the motion field of the pair. *)
Lemma scan_from (l : list (Z * gray)) (st : scanner) :
  grid_variance_scores
    (fold_left (fun st p => scan_frame (fst p) (snd p) st) l st)
  = grid_variance_scores st ++
    map (fun p => grid_variance_score (calcOpticalFlowFarneback (fst p) (snd p)))
        (match prev_gray st with
         | Some prev => zip (prev :: map snd l) (map snd l)
         | None => consecutive_pairs (map snd l)
         end).
Proof.
  revert st. induction l as [| [n f] l IH]; intros st.
  - simpl. destruct (prev_gray st); simpl; rewrite app_nil_r; reflexivity.
  - cbn [fold_left]. rewrite IH. unfold scan_frame.
    cbn [prev_gray grid_variance_scores fst snd map].
    destruct (prev_gray st) as [prev |].
    + cbn [zip zip_with map fst snd]. rewrite <- app_assoc. reflexivity.
    + unfold consecutive_pairs. cbn [tail]. reflexivity.
Qed.

Lemma scan_all_scores (fs : list gray) (sample_rate : Z) :
  grid_variance_scores (scan_all fs sample_rate)
  = map (fun p => grid_variance_score (calcOpticalFlowFarneback (fst p) (snd p)))
        (consecutive_pairs (sampled_frames sample_rate fs)).
Proof.
  unfold scan_all. rewrite strided_loop_sampled, scan_from. reflexivity.
Qed.

Lemma distortion_score_range (scores : list (option Q)) :
  Forall (fun s => forall x, s = Some x -> 0 <= x) scores ->
  0 <= distortion_score_of scores <= 100.
Proof.
  intros Hnn. unfold distortion_score_of. destruct scores as [| s scores]; [lra |].
  destruct (nan_mean (s :: scores)) as [m |] eqn:Hmean; [| lra].
  pose proof (nan_mean_nonneg _ m Hnn Hmean) as Hm.
  destruct (Q.min_spec 100 (m * 10)) as [[Hlt ->] | [Hle ->]]; lra.
Qed.

(** The scores the loop stores are not negative where they are numbers. *)
Lemma scan_all_nonneg (fs : list gray) (sample_rate : Z) :
  Forall (fun s => forall x, s = Some x -> 0 <= x)
         (grid_variance_scores (scan_all fs sample_rate)).
Proof.
  rewrite scan_all_scores. apply Forall_map, Forall_forall.
  intros p _ x. apply grid_variance_score_nonneg.
Qed.

(** The dictionary always holds the distortion score. *)
Lemma wobble_dict_score (scores : list (option Q)) :
  wobble_dict scores !! "wobble_distortion_score"%string
  = Some (distortion_score_of scores).
Proof.
  unfold wobble_dict. destruct scores as [| s scores]; [reflexivity |].
  destruct (nan_mean (s :: scores)), (nan_std (s :: scores)); reflexivity.
Qed.

End WobbleFacts.


(** ** Per-second tables *)

Section Totals.

Context {B : Type} (count : B -> Z).

Lemma total_by_empty : total_by count ∅ = 0%Z.
Proof. unfold total_by. apply map_fold_empty. Qed.

Lemma total_by_insert_None (m : gmap Z B) (k : Z) (b : B) :
  m !! k = None -> total_by count (<[k := b]> m) = (count b + total_by count m)%Z.
Proof.
  intros Hk. unfold total_by.
  apply (map_fold_insert_L (fun _ b acc => (count b + acc)%Z)); [| exact Hk].
  intros. lia.
Qed.

Lemma total_by_insert_Some (m : gmap Z B) (k : Z) (b old : B) :
  m !! k = Some old ->
  total_by count (<[k := b]> m) = (count b + total_by count m - count old)%Z.
Proof.
  intros Hk. rewrite <- (insert_delete_eq m).
  rewrite total_by_insert_None by apply lookup_delete_eq.
  rewrite <- (insert_delete_id m k old Hk) at 2.
  rewrite total_by_insert_None by apply lookup_delete_eq. lia.
Qed.

End Totals.

Lemma total_by_fmap {B C : Type} (count : C -> Z) (f : B -> C) (m : gmap Z B) :
  total_by count (f <$> m) = total_by (fun b => count (f b)) m.
Proof.
  induction m as [| k b m Hk IH] using map_ind.
  - rewrite fmap_empty. reflexivity.
  - rewrite fmap_insert.
    rewrite !total_by_insert_None by (rewrite ?lookup_fmap, Hk; reflexivity).
    rewrite IH. reflexivity.
Qed.

Lemma total_by_imap {B C : Type} (count : C -> Z) (f : Z -> B -> C) (m : gmap Z B) :
  total_by count (map_imap (fun k b => Some (f k b)) m)
  = map_fold (fun k b acc => (count (f k b) + acc)%Z) 0%Z m.
Proof.
  induction m as [| k b m Hk IH] using map_ind.
  - reflexivity.
  - rewrite (map_imap_insert_Some _ k b m (f k b)) by reflexivity.
    rewrite total_by_insert_None by (rewrite map_lookup_imap, Hk; reflexivity).
    rewrite (map_fold_insert_L (fun k b acc => (count (f k b) + acc)%Z));
      [rewrite IH; reflexivity | intros; lia | exact Hk].
Qed.

(** ** FPS dynamics *)

Section FpsFacts.

Import Fps.

Lemma read_frame_total (declared_fps : Q) (st : reader) (frame : gray) :
  total_by id (frames_per_second (read_frame declared_fps st frame))
  = (total_by id (frames_per_second st) + 1)%Z.
Proof.
  unfold read_frame. cbn [frames_per_second].
  set (second := Py.int (timestamp_of declared_fps (frame_number st))).
  destruct (frames_per_second st !! second) as [c |] eqn:Hc.
  - rewrite (total_by_insert_Some id _ _ _ c Hc). simpl. unfold id. lia.
  - rewrite (total_by_insert_None id _ _ _ Hc). simpl. unfold id. lia.
Qed.

(** The reading loop counts every frame once: the counts sum to the
    number of frames read, which is also the final frame counter. *)
Lemma read_all_total (v : video) :
  total_by id (frames_per_second (read_all v)) = Z.of_nat (length (frames v)) /\
  frame_number (read_all v) = Z.of_nat (length (frames v)).
Proof.
  unfold read_all. generalize (declared_fps v). intros declared.
  induction (frames v) as [| f fs IH] using rev_ind.
  - split; reflexivity.
  - rewrite fold_left_app. cbn [fold_left]. destruct IH as [IHt IHn].
    rewrite read_frame_total, IHt, length_app.
    unfold read_frame at 1. cbn [frame_number]. rewrite IHn. simpl. split; lia.
Qed.

(** An entry of the table is built from the count of its second. *)
Lemma per_second_lookup (v : video) (second : Z) :
  per_second_fps v !! second
  = per_second_entry (last_second (frames_per_second (read_all v)))
      (duration_of v) second
    <$> frames_per_second (read_all v) !! second.
Proof.
  unfold per_second_fps. rewrite map_lookup_imap.
  destruct (frames_per_second (read_all v) !! second); reflexivity.
Qed.

Lemma per_second_total (v : video) :
  total_by frame_count (per_second_fps v) = Z.of_nat (length (frames v)).
Proof.
  unfold per_second_fps.
  rewrite (total_by_imap frame_count
             (per_second_entry (last_second (frames_per_second (read_all v)))
                (duration_of v))).
  apply (read_all_total v).
Qed.

End FpsFacts.

Section LastSecond.

Import Fps.

Lemma sorted_last (l : list Z) (s : Z) :
  StronglySorted Z.le l -> last l = Some s -> forall k, k ∈ l -> (k <= s)%Z.
Proof.
  induction 1 as [| x l Hsorted IH Hx]; intros Hlast k Hk; [inversion Hk |].
  destruct l as [| y l'].
  - injection Hlast as <-. apply list_elem_of_singleton in Hk. lia.
  - change (last (x :: y :: l')) with (last (y :: l')) in Hlast.
    apply elem_of_cons in Hk as [-> | Hk]; [| exact (IH Hlast k Hk)].
    rewrite Forall_forall in Hx. apply Hx, last_Some_elem_of, Hlast.
Qed.

Lemma all_seconds_elem {A} (m : gmap Z A) (k : Z) :
  k ∈ all_seconds m <-> is_Some (m !! k).
Proof.
  unfold all_seconds. rewrite merge_sort_Permutation, list_elem_of_fmap.
  split.
  - intros [[k' a] [-> Hin]]. apply elem_of_map_to_list in Hin. exists a. exact Hin.
  - intros [a Ha]. exists (k, a). split; [reflexivity |].
    apply elem_of_map_to_list. exact Ha.
Qed.

(** [sorted(keys)[-1]] is the largest second of the table. *)
Lemma last_second_final {A} (m : gmap Z A) (s : Z) :
  last_second m = Some s <-> final_bucket m s.
Proof.
  assert (Hfwd : forall s', last_second m = Some s' -> final_bucket m s').
  { intros s' Hlast. split.
    - apply all_seconds_elem, last_Some_elem_of, Hlast.
    - intros k Hk. apply all_seconds_elem in Hk.
      refine (sorted_last _ s' _ Hlast k Hk).
      apply StronglySorted_merge_sort; apply _. }
  split; [apply Hfwd |]. intros [Hs Hmax].
  destruct (last_second m) as [s' |] eqn:Hlast.
  - destruct (Hfwd s' eq_refl) as [Hs' Hmax'].
    f_equal. pose proof (Hmax s' Hs'). pose proof (Hmax' s Hs). lia.
  - apply all_seconds_elem in Hs. unfold last_second in Hlast.
    apply last_None in Hlast. rewrite Hlast in Hs. inversion Hs.
Qed.

Lemma per_second_is_Some (v : video) (k : Z) :
  is_Some (per_second_fps v !! k)
  <-> is_Some (frames_per_second (read_all v) !! k).
Proof. rewrite per_second_lookup. apply fmap_is_Some. Qed.

(** A bucket is flagged incomplete exactly when it is the final one. *)
Lemma incomplete_iff_final (v : video) (second : Z) (bucket : second_fps) :
  per_second_fps v !! second = Some bucket ->
  is_complete_second bucket = false <-> final_bucket (per_second_fps v) second.
Proof.
  rewrite per_second_lookup. intros Hb.
  destruct (frames_per_second (read_all v) !! second) as [c |]; [| discriminate].
  injection Hb as <-. unfold per_second_entry. cbn [is_complete_second].
  rewrite negb_false_iff, bool_decide_eq_true.
  split.
  - intros Hlast. symmetry in Hlast. apply last_second_final in Hlast.
    destruct Hlast as [Hs Hmax]. split.
    + apply per_second_is_Some, Hs.
    + intros k Hk. apply Hmax, per_second_is_Some, Hk.
  - intros [Hs Hmax]. symmetry. apply last_second_final. split.
    + apply per_second_is_Some, Hs.
    + intros k Hk. apply Hmax, per_second_is_Some, Hk.
Qed.

End LastSecond.

Section Returns.

Context `{Backend}.

Lemma raise_if_inr {A} (test : bool) (k : exn + A) (x : A) :
  (raise_if test;; k) = inr x <-> test = false /\ k = inr x.
Proof.
  destruct test; cbn; [split; [discriminate | intros [? _]; discriminate] | tauto].
Qed.

(** What [analyze_fps_dynamics] returns, when it returns. *)
Lemma analyze_fps_dynamics_inr (v : video) (table : gmap Z Fps.second_fps)
    (fps_result : result_dict) :
  Fps.analyze_fps_dynamics v = inr (table, fps_result) ->
  table = Fps.per_second_fps v /\
  fps_result = {[ "overall_stats"%string := Fps.overall_stats v ]}.
Proof.
  unfold Fps.analyze_fps_dynamics. rewrite raise_if_inr.
  intros [_ [= <- <-]]. split; reflexivity.
Qed.

(** It returns when the declared frame count is not zero. *)
Lemma analyze_fps_dynamics_returns (v : video) :
  total_frame_count v <> 0%Z -> is_Some (returned (Fps.analyze_fps_dynamics v)).
Proof.
  intros Hcount. unfold Fps.analyze_fps_dynamics.
  apply Z.eqb_neq in Hcount. rewrite Hcount. cbn. eauto.
Qed.

(** What [analyze_frame_dynamics] returns, when it returns. *)
Lemma analyze_frame_dynamics_inr (v : video) (sample_rate : Z)
    (frame_data : list (gmap string Q)) (table : gmap Z Dynamics.second_stats) :
  Dynamics.analyze_frame_dynamics v sample_rate = inr (frame_data, table) ->
  frame_data = Dynamics.frame_data (Dynamics.sample_all v sample_rate) /\
  table = Dynamics._aggregate_by_second frame_data (declared_fps v).
Proof.
  unfold Dynamics.analyze_frame_dynamics. rewrite !raise_if_inr.
  intros (_ & _ & [= <- <-]). split; reflexivity.
Qed.

(** It returns when neither the stride nor the declared frame count is
    zero. *)
Lemma analyze_frame_dynamics_returns (v : video) (sample_rate : Z) :
  sample_rate <> 0%Z -> total_frame_count v <> 0%Z ->
  is_Some (returned (Dynamics.analyze_frame_dynamics v sample_rate)).
Proof.
  intros Hrate Hcount. unfold Dynamics.analyze_frame_dynamics, zero_stride.
  apply Z.eqb_neq in Hrate, Hcount. rewrite Hrate, Hcount.
  destruct (frames v); cbn; eauto.
Qed.

End Returns.

(** C7, as the code has it.  In the per-second table that
    [analyze_fps_dynamics] returns, the final bucket is flagged incomplete
    whatever the duration of the video, and every other bucket is flagged
    complete. *)
Theorem final_bucket_flagged_incomplete `{Backend} (v : video)
    (table : gmap Z Fps.second_fps) (fps_result : result_dict)
    (second : Z) (bucket : Fps.second_fps) :
  Fps.analyze_fps_dynamics v = inr (table, fps_result) ->
  table !! second = Some bucket ->
  (final_bucket table second -> Fps.is_complete_second bucket = false) /\
  (~ final_bucket table second -> Fps.is_complete_second bucket = true).
Proof.
  intros Hret Hb. apply analyze_fps_dynamics_inr in Hret as [-> _].
  pose proof (incomplete_iff_final v second bucket Hb) as Hiff.
  split; [apply Hiff |].
  intros Hnot. destruct (Fps.is_complete_second bucket); [reflexivity |].
  exfalso. apply Hnot, Hiff. reflexivity.
Qed.

Lemma two_second_clip_returns :
  Fps.analyze_fps_dynamics (H := Reference.backend) Reference.two_second_clip
  = inr (Fps.per_second_fps Reference.two_second_clip,
         {[ "overall_stats"%string :=
              Fps.overall_stats (H := Reference.backend) Reference.two_second_clip ]}).
Proof. reflexivity. Qed.

Lemma two_second_clip_buckets :
  exists b0 b1,
    Fps.per_second_fps Reference.two_second_clip !! 0%Z = Some b0 /\
    Fps.per_second_fps Reference.two_second_clip !! 1%Z = Some b1 /\
    Fps.is_complete_second b0 = true /\
    Fps.is_complete_second b1 = false /\
    Fps.frame_count b1 = 2%Z /\ Fps.actual_duration b1 == 1.
Proof.
  assert (H0 : Fps.is_complete_second
                 <$> Fps.per_second_fps Reference.two_second_clip !! 0%Z
               = Some true) by (vm_compute; reflexivity).
  assert (H1 : (fun b => (Fps.is_complete_second b, Fps.frame_count b,
                          Qeq_bool (Fps.actual_duration b) 1))
                 <$> Fps.per_second_fps Reference.two_second_clip !! 1%Z
               = Some (false, 2%Z, true)) by (vm_compute; reflexivity).
  destruct (Fps.per_second_fps Reference.two_second_clip !! 0%Z) as [b0 |];
    [| discriminate].
  destruct (Fps.per_second_fps Reference.two_second_clip !! 1%Z) as [b1 |];
    [| discriminate].
  injection H0 as H0. injection H1 as Hc Hn Hd.
  exists b0, b1. repeat (split; [first [reflexivity | assumption] |]).
  apply Qeq_bool_iff. exact Hd.
Qed.

(** C7, counterexample to the claim as stated: a clip of 4 frames at 2
    frames per second lasts two whole seconds, and in the table that
    [analyze_fps_dynamics] returns its final bucket, the second one with 2
    frames over a full second, is flagged incomplete. *)
Lemma whole_seconds_final_bucket_incomplete :
  Fps.duration_of Reference.two_second_clip == 2 /\
  exists table fps_result bucket,
    Fps.analyze_fps_dynamics (H := Reference.backend) Reference.two_second_clip
    = inr (table, fps_result) /\
    table !! 1%Z = Some bucket /\
    final_bucket table 1 /\
    Fps.actual_duration bucket == 1 /\
    Fps.is_complete_second bucket = false.
Proof.
  split; [reflexivity |].
  destruct two_second_clip_buckets as (b0 & b1 & H0 & H1 & _ & Hinc & _ & Hdur).
  exists (Fps.per_second_fps Reference.two_second_clip),
    {[ "overall_stats"%string :=
         Fps.overall_stats (H := Reference.backend) Reference.two_second_clip ]},
    b1.
  split; [exact two_second_clip_returns |].
  split; [exact H1 | split; [| split; [exact Hdur | exact Hinc]]].
  apply (incomplete_iff_final _ _ _ H1). exact Hinc.
Qed.

(** The theorem at the final bucket of the two-second clip. *)
Lemma final_bucket_flagged_incomplete_witness :
  exists table fps_result bucket,
    Fps.analyze_fps_dynamics (H := Reference.backend) Reference.two_second_clip
    = inr (table, fps_result) /\
    table !! 1%Z = Some bucket /\
    (final_bucket table 1 -> Fps.is_complete_second bucket = false).
Proof.
  destruct two_second_clip_buckets as (b0 & b1 & H0 & H1 & _).
  exists (Fps.per_second_fps Reference.two_second_clip),
    {[ "overall_stats"%string :=
         Fps.overall_stats (H := Reference.backend) Reference.two_second_clip ]},
    b1.
  split; [exact two_second_clip_returns | split; [exact H1 |]].
  apply (final_bucket_flagged_incomplete (H := Reference.backend)
           Reference.two_second_clip _ _ 1 b1 two_second_clip_returns H1).
Defined.

(** ** The analyzers' outputs *)

Section AnalyzerRanges.

Context `{Backend}.
Hypothesis sqrt_nonneg : forall x, 0 <= sqrt x.

Lemma bind_inr {A B} (m : exn + A) (k : A -> exn + B) (y : B) :
  (x ← m; k x) = inr y <-> exists x, m = inr x /\ k x = inr y.
Proof.
  destruct m as [e | x]; cbn.
  - split; [discriminate | intros (x & Hx & _); discriminate].
  - split; [eauto | intros (x' & [= <-] & Hk); exact Hk].
Qed.

Lemma ratio_of_nonneg (count total_frames : Z) :
  (0 <= count)%Z -> 0 <= Duplicates.ratio_of count total_frames.
Proof.
  intros Hc. unfold Duplicates.ratio_of.
  destruct (Z.ltb_spec 0 total_frames) as [Hpos | _]; [| lra].
  apply div_nonneg; change 0 with (inject_Z 0); rewrite <- Zle_Qle; lia.
Qed.

(** The counters of the duplicate detector never decrease. *)
Lemma detect_all_counts (fs : list gray) (sample_rate : Z)
    (diff_threshold ssim_threshold : Q) :
  let st := Duplicates.detect_all fs sample_rate diff_threshold ssim_threshold in
  (0 <= Duplicates.duplicate_count st)%Z /\
  (0 <= Duplicates.near_duplicate_count st)%Z.
Proof.
  unfold Duplicates.detect_all.
  apply (strided_loop_invariant
           (fun st => (0 <= Duplicates.duplicate_count st)%Z /\
                      (0 <= Duplicates.near_duplicate_count st)%Z)).
  - simpl. lia.
  - intros n f st [Hd Hn]. unfold Duplicates.detect_frame.
    cbn [Duplicates.duplicate_count Duplicates.near_duplicate_count].
    destruct (match Duplicates.prev_frame st with
              | Some prev => _
              | None => _
              end); lia.
Qed.

(** The jerkiness score lies between 0 and 100. *)
Lemma jerkiness_score_of_range (magnitudes jerks : list Q) :
  Forall (fun j => 0 <= j) jerks ->
  0 <= Motion.jerkiness_score_of magnitudes jerks <= 100.
Proof.
  intros Hj. unfold Motion.jerkiness_score_of.
  destruct jerks as [| j js]; [lra |].
  set (jerks := j :: js) in *.
  set (x := if Py.gtb _ 0 then _ else _).
  assert (Hx : 0 <= x).
  { subst x. destruct (Py.gtb _ 0) eqn:Hmotion; [| lra].
    apply gtb_spec in Hmotion.
    assert (Hratio : 0 <= Motion.jerk_peak_ratio_of jerks).
    { unfold Motion.jerk_peak_ratio_of. apply div_nonneg; [| apply len_nonneg].
      change 0 with (inject_Z 0). rewrite <- Zle_Qle. lia. }
    pose proof (mean_nonneg _ Hj) as Hmean.
    pose proof (div_nonneg _ _ Hmean (Qlt_le_weak _ _ Hmotion)) as Hdiv.
    lra. }
  destruct (Q.min_spec 100 x) as [[Hlt ->] | [Hle ->]]; lra.
Qed.

Lemma jerkiness_score_range (st : Motion.tracker) :
  tracked st ->
  0 <= Motion.jerkiness_score_of (Motion.motion_magnitudes st) (Motion.jerk_values st)
    <= 100.
Proof.
  intros (_ & Hj & _). apply jerkiness_score_of_range.
  eapply Forall_impl; [exact Hj |].
  intros jerk (a & b & c & _ & _ & _ & ->). apply Qabs_nonneg.
Qed.

(** The statistics that [analyze_fps_dynamics] and
    [analyze_motion_quality] return are in the ranges the aggregator's
    bounds assume. *)
Lemma analyzers_in_ranges (v : video) (sample_rate : Z)
    (duplicate_threshold ssim_threshold : Q)
    (fps_table : gmap Z Fps.second_fps) (fps motion : result_dict) :
  Fps.analyze_fps_dynamics v = inr (fps_table, fps) ->
  MotionQuality.analyze_motion_quality v sample_rate
    duplicate_threshold ssim_threshold = inr motion ->
  analyzer_ranges fps motion.
Proof.
  intros Hfps Hmotion.
  apply analyze_fps_dynamics_inr in Hfps as [_ ->].
  unfold MotionQuality.analyze_motion_quality in Hmotion.
  apply bind_inr in Hmotion as (dup & Hdup & Hmotion).
  apply bind_inr in Hmotion as (mc & Hmc & Hmotion).
  apply bind_inr in Hmotion as (wob & Hwob & Hmotion).
  injection Hmotion as <-.
  unfold Duplicates._analyze_duplicate_frames in Hdup.
  apply raise_if_inr in Hdup as [_ [= <-]].
  unfold Motion._analyze_motion_continuity in Hmc.
  apply raise_if_inr in Hmc as [_ [= <-]].
  unfold Wobble._analyze_wobble_distortion in Hwob.
  apply raise_if_inr in Hwob as [_ [= <-]].
  split; [| split; [| split; [| split]]]; intros d x Hd Hx.
  - rewrite lookup_singleton_eq in Hd. injection Hd as <-.
    unfold Fps.overall_stats, Fps.stats_of in Hx.
    destruct (Fps.fps_values Fps.is_complete_second _);
      [destruct (Fps.fps_values _ _) |]; simplify_map_eq;
      first [lra | apply sqrt_nonneg].
  - simplify_map_eq. unfold MotionQuality._analyze_pts_jitter in Hx.
    destruct (MotionQuality.frame_times_of _) as [| t ts]; simplify_map_eq.
    destruct (Py.gtb _ 0) eqn:Hdelta; [| lra]. apply gtb_spec in Hdelta.
    pose proof (div_nonneg _ _ (sqrt_nonneg (Py.var (t :: ts)))
                  (Qlt_le_weak _ _ Hdelta)) as Hdiv.
    unfold Py.std. lra.
  - simplify_map_eq. unfold Duplicates.duplicate_dict in Hx. simplify_map_eq.
    destruct (detect_all_counts (frames v) sample_rate
                duplicate_threshold ssim_threshold) as [Hc Hn].
    apply ratio_of_nonneg. lia.
  - simplify_map_eq. unfold Motion.continuity_dict in Hx.
    pose proof (jerkiness_score_range _
                  (track_all_tracked sqrt_nonneg (frames v) sample_rate)) as Hrange.
    destruct (Motion.motion_magnitudes _); simplify_map_eq. lra.
  - simplify_map_eq.
    assert (Hscore : x = Wobble.distortion_score_of
                           (Wobble.grid_variance_scores
                              (Wobble.scan_all (frames v) sample_rate))).
    { rewrite wobble_dict_score in Hx. injection Hx as <-. reflexivity. }
    rewrite Hscore. apply distortion_score_range, scan_all_nonneg.
Qed.

End AnalyzerRanges.

(** ** Bucket counts *)

Section SubSecond.

Import Fps.

Lemma int_small (x : Q) : 0 <= x -> x < 1 -> Py.int x = 0%Z.
Proof.
  unfold Py.int, Qle, Qlt. simpl. intros Hlo Hhi.
  apply Z.quot_small. lia.
Qed.

(** In a clip shorter than one second every frame falls into second 0. *)
Lemma sub_second_timestamp (declared : Q) (n k : Z) :
  timestamp_of declared n < 1 -> (0 <= k < n)%Z ->
  Py.int (timestamp_of declared k) = 0%Z.
Proof.
  unfold timestamp_of. intros Hdur Hk.
  destruct (Py.gtb declared 0) eqn:Hfps; [| reflexivity].
  apply gtb_spec in Hfps.
  assert (Hinv : 0 < / declared) by (apply Qinv_lt_0_compat; exact Hfps).
  assert (Hk0 : 0 <= inject_Z k)
    by (change 0 with (inject_Z 0); rewrite <- Zle_Qle; lia).
  assert (Hkn : inject_Z k < inject_Z n) by (rewrite <- Zlt_Qlt; lia).
  unfold Qdiv in *. apply int_small; nra.
Qed.

(** When every frame falls into second 0 the counts are a single bucket. *)
Lemma read_single_bucket (declared : Q) (fs : list gray) :
  (forall k, (0 <= k < Z.of_nat (length fs))%Z ->
             Py.int (timestamp_of declared k) = 0%Z) ->
  fs <> [] ->
  frames_per_second (fold_left (read_frame declared) fs reader_init)
  = {[ 0%Z := Z.of_nat (length fs) ]} /\
  frame_number (fold_left (read_frame declared) fs reader_init)
  = Z.of_nat (length fs).
Proof.
  induction fs as [| f fs IH] using rev_ind; intros Hzero Hne; [congruence |].
  rewrite fold_left_app. cbn [fold_left]. rewrite length_app in *.
  cbn [length] in *.
  destruct (decide (fs = [])) as [-> | Hfs].
  - cbn [fold_left]. unfold read_frame.
    cbn [frames_per_second frame_number reader_init].
    rewrite (Hzero 0%Z) by (simpl; lia). split; reflexivity.
  - destruct IH as [IHm IHn]; [intros k Hk; apply Hzero; lia | exact Hfs |].
    set (st := fold_left (read_frame declared) fs reader_init) in *.
    unfold read_frame. cbn [frames_per_second frame_number].
    rewrite IHn, IHm. rewrite (Hzero (Z.of_nat (length fs))) by lia.
    rewrite lookup_singleton_eq. cbn [default].
    rewrite insert_singleton_eq. split; [f_equal |]; unfold id; lia.
Qed.

Lemma last_second_singleton {A} (x : A) :
  last_second ({[ 0%Z := x ]} : gmap Z A) = Some 0%Z.
Proof.
  apply last_second_final. split.
  - rewrite lookup_singleton_eq. eauto.
  - intros k [y Hk]. apply lookup_singleton_Some in Hk as [<- _]. lia.
Qed.

(** A clip with a frame and shorter than one second has one bucket: it
    holds every frame and is flagged incomplete. *)
Lemma sub_second_table (v : video) :
  frames v <> [] -> duration_of v < 1 ->
  exists bucket,
    per_second_fps v = {[ 0%Z := bucket ]} /\
    frame_count bucket = Z.of_nat (length (frames v)) /\
    is_complete_second bucket = false.
Proof.
  intros Hne Hdur. unfold duration_of in Hdur.
  rewrite (proj2 (read_all_total v)) in Hdur.
  destruct (read_single_bucket (declared_fps v) (frames v)) as [Hm Hn];
    [intros k Hk; exact (sub_second_timestamp _ _ k Hdur Hk) | exact Hne |].
  exists (per_second_entry (Some 0%Z) (duration_of v) 0
            (Z.of_nat (length (frames v)))).
  split; [| split; reflexivity].
  unfold per_second_fps. cbv zeta. unfold read_all at 1 2. rewrite Hm.
  rewrite last_second_singleton.
  rewrite <- insert_empty.
  rewrite (map_imap_insert_Some _ 0%Z _ ∅ _ eq_refl), map_imap_empty.
  rewrite insert_empty. reflexivity.
Qed.

End SubSecond.

Section DynamicsFacts.

Context `{Backend}.

Import Dynamics.

Lemma enumerate_bounds {A} (fs : list A) (k n : Z) (f : A) :
  (n, f) ∈ enumerate k fs -> (k <= n < k + Z.of_nat (length fs))%Z.
Proof.
  revert k. induction fs as [| f0 fs IH]; intros k Hin; [inversion Hin |].
  cbn [enumerate length] in *. apply elem_of_cons in Hin as [Heq | Hin].
  - injection Heq as -> ->. lia.
  - apply IH in Hin. lia.
Qed.

Lemma sampled_bounds {A} (sample_rate : Z) (fs : list A) (p : Z * A) :
  p ∈ sampled sample_rate fs -> (0 <= fst p < Z.of_nat (length fs))%Z.
Proof.
  unfold sampled. intros Hin. apply list_elem_of_filter in Hin as [_ Hin].
  destruct p as [n f]. apply enumerate_bounds in Hin. simpl. lia.
Qed.

(** The first frame of a clip is always sampled. *)
Lemma sampled_nonempty {A} (sample_rate : Z) (fs : list A) :
  fs <> [] -> sampled sample_rate fs <> [].
Proof.
  destruct fs as [| f fs]; [congruence |]. intros _.
  unfold sampled. cbn [enumerate]. rewrite filter_cons_True by reflexivity.
  discriminate.
Qed.

Lemma sample_frame_timestamp (fps : Q) (n : Z) (f : gray) (st : sampler) :
  exists frame,
    frame_data (sample_frame fps n f st) = frame_data st ++ [frame] /\
    item frame "timestamp" = Fps.timestamp_of fps n.
Proof.
  unfold sample_frame. eexists. split; [reflexivity |].
  unfold item. rewrite lookup_insert_eq. reflexivity.
Qed.

(** The sampling loop appends one record per sampled frame, stamped with
    the time of its index. *)
Lemma sample_fold (fps : Q) (l : list (Z * gray)) (st : sampler) :
  exists new,
    frame_data (fold_left (fun st p => sample_frame fps (fst p) (snd p) st) l st)
    = frame_data st ++ new /\
    Forall2 (fun frame p => item frame "timestamp" = Fps.timestamp_of fps (fst p))
            new l.
Proof.
  revert st. induction l as [| p l IH]; intros st.
  - exists []. split; [rewrite app_nil_r; reflexivity | constructor].
  - cbn [fold_left].
    destruct (sample_frame_timestamp fps (fst p) (snd p) st) as (frame & Hf & Ht).
    destruct (IH (sample_frame fps (fst p) (snd p) st)) as (new & Hnew & Hall).
    exists (frame :: new). split.
    + rewrite Hnew, Hf, <- app_assoc. reflexivity.
    + constructor; assumption.
Qed.

Lemma sample_all_spec (v : video) (sample_rate : Z) :
  Forall2 (fun frame p =>
             item frame "timestamp" = Fps.timestamp_of (declared_fps v) (fst p))
          (frame_data (sample_all v sample_rate))
          (sampled sample_rate (frames v)).
Proof.
  unfold sample_all. rewrite strided_loop_sampled.
  destruct (sample_fold (declared_fps v) (sampled sample_rate (frames v))
              {| frame_data := []; prev_frame := None |}) as (new & Hnew & Hall).
  rewrite Hnew. exact Hall.
Qed.

Lemma add_frame_total (per_second : gmap Z second_lists) (frame : gmap string Q) :
  total_by frame_count (add_frame per_second frame)
  = (total_by frame_count per_second + 1)%Z.
Proof.
  unfold add_frame.
  set (second := Py.int (item frame "timestamp")).
  destruct (per_second !! second) as [data |] eqn:Hd.
  - rewrite (total_by_insert_Some frame_count _ _ _ data Hd). simpl. lia.
  - rewrite (total_by_insert_None frame_count _ _ _ Hd). simpl. lia.
Qed.

Lemma aggregate_total (fd : list (gmap string Q)) (fps : Q) :
  total_by stats_frame_count (_aggregate_by_second fd fps) = Z.of_nat (length fd).
Proof.
  unfold _aggregate_by_second. rewrite total_by_fmap.
  change (fun b => stats_frame_count (summarize b)) with frame_count.
  induction fd as [| frame fd IH] using rev_ind; [reflexivity |].
  rewrite fold_left_app. cbn [fold_left].
  rewrite add_frame_total, IH, length_app. simpl. lia.
Qed.

(** Records that all fall into second 0 make a single bucket. *)
Lemma aggregate_single (fd : list (gmap string Q)) :
  Forall (fun frame => Py.int (item frame "timestamp") = 0%Z) fd -> fd <> [] ->
  exists data,
    fold_left add_frame fd ∅ = {[ 0%Z := data ]} /\
    frame_count data = Z.of_nat (length fd).
Proof.
  induction fd as [| frame fd IH] using rev_ind; intros Hzero Hne; [congruence |].
  apply Forall_app in Hzero as [Hfd Hframe]. apply Forall_cons_1 in Hframe as [Hframe _].
  rewrite fold_left_app. cbn [fold_left]. rewrite length_app. cbn [length].
  destruct (decide (fd = [])) as [-> | Hfd'].
  - cbn [fold_left]. unfold add_frame. rewrite Hframe, lookup_empty. cbn [default].
    eexists. split; [apply insert_empty | reflexivity].
  - destruct (IH Hfd Hfd') as (data & Hm & Hc).
    set (m := fold_left add_frame fd ∅) in *.
    unfold add_frame. rewrite Hframe, Hm, lookup_singleton_eq. cbn [default].
    eexists. split; [apply insert_singleton_eq |].
    cbn [frame_count]. unfold id. rewrite Hc. lia.
Qed.

End DynamicsFacts.

(** C8.  The frame counts of the per-second buckets sum to the number of
    sampled frames: in the table [analyze_fps_dynamics] returns, which
    reads every frame, and in the table [analyze_frame_dynamics] builds
    with [_aggregate_by_second], for any stride.  A clip with a frame and
    shorter than one second yields a single bucket holding all sampled
    frames, flagged incomplete in the table that carries the flag.  Both
    analyses return when neither the stride nor the declared frame count
    is zero. *)
Theorem bucket_counts_sum `{Backend} (v : video) (sample_rate : Z) :
  (forall fps_table fps_result,
     Fps.analyze_fps_dynamics v = inr (fps_table, fps_result) ->
     total_by Fps.frame_count fps_table = Z.of_nat (length (frames v)) /\
     (frames v <> [] -> Fps.duration_of v < 1 ->
      exists bucket,
        fps_table = {[ 0%Z := bucket ]} /\
        Fps.frame_count bucket = Z.of_nat (length (frames v)) /\
        Fps.is_complete_second bucket = false)) /\
  (forall frame_data dynamics_table,
     Dynamics.analyze_frame_dynamics v sample_rate
     = inr (frame_data, dynamics_table) ->
     length frame_data = length (sampled sample_rate (frames v)) /\
     total_by Dynamics.stats_frame_count dynamics_table
     = Z.of_nat (length frame_data) /\
     (frames v <> [] -> Fps.duration_of v < 1 ->
      exists stats,
        dynamics_table = {[ 0%Z := stats ]} /\
        Dynamics.stats_frame_count stats = Z.of_nat (length frame_data))) /\
  (total_frame_count v <> 0%Z ->
   is_Some (returned (Fps.analyze_fps_dynamics v)) /\
   (sample_rate <> 0%Z ->
    is_Some (returned (Dynamics.analyze_frame_dynamics v sample_rate)))).
Proof.
  pose proof (sample_all_spec v sample_rate) as Hspec.
  split; [| split].
  - intros fps_table fps_result Hret.
    apply analyze_fps_dynamics_inr in Hret as [-> _].
    split; [apply per_second_total |].
    intros Hne Hdur. apply sub_second_table; assumption.
  - intros frame_data dynamics_table Hret.
    apply analyze_frame_dynamics_inr in Hret as [-> ->].
    split; [exact (Forall2_length _ _ _ Hspec) | split; [apply aggregate_total |]].
    intros Hne Hdur. unfold Dynamics._aggregate_by_second.
    destruct (aggregate_single (Dynamics.frame_data (Dynamics.sample_all v sample_rate)))
      as (data & Hm & Hc).
    + unfold Fps.duration_of in Hdur. rewrite (proj2 (read_all_total v)) in Hdur.
      apply Forall_forall. intros frame Hframe.
      apply list_elem_of_lookup in Hframe as [i Hi].
      destruct (Forall2_lookup_l _ _ _ _ _ Hspec Hi) as (p & Hp & Ht).
      rewrite Ht. apply (sub_second_timestamp _ _ _ Hdur).
      apply (sampled_bounds sample_rate), list_elem_of_lookup. eauto.
    + intros Hnil. apply (sampled_nonempty sample_rate) in Hne.
      apply Forall2_length in Hspec. rewrite Hnil in Hspec.
      destruct (sampled sample_rate (frames v)); [congruence | discriminate].
    + exists (Dynamics.summarize data). rewrite Hm, map_fmap_singleton.
      split; [reflexivity | exact Hc].
  - intros Hcount. split; [apply analyze_fps_dynamics_returns, Hcount |].
    intros Hrate. apply analyze_frame_dynamics_returns; assumption.
Qed.

Lemma tiny_clip_is_short :
  frames Reference.tiny_clip <> [] /\ Fps.duration_of Reference.tiny_clip < 1.
Proof. split; [discriminate | reflexivity]. Qed.

Lemma tiny_clip_returns :
  Fps.analyze_fps_dynamics (H := Reference.backend) Reference.tiny_clip
  = inr (Fps.per_second_fps Reference.tiny_clip,
         {[ "overall_stats"%string :=
              Fps.overall_stats (H := Reference.backend) Reference.tiny_clip ]}).
Proof. reflexivity. Qed.

(** The theorem at the two-frame clip with stride 1. *)
Lemma bucket_counts_sum_witness :
  total_by Fps.frame_count (Fps.per_second_fps Reference.tiny_clip) = 2%Z /\
  exists bucket,
    Fps.per_second_fps Reference.tiny_clip = {[ 0%Z := bucket ]} /\
    Fps.is_complete_second bucket = false.
Proof.
  destruct (proj1 (bucket_counts_sum (H := Reference.backend) Reference.tiny_clip 1)
              _ _ tiny_clip_returns) as (Hsum & Hshort).
  destruct (Hshort (proj1 tiny_clip_is_short) (proj2 tiny_clip_is_short))
    as (bucket & Htable & _ & Hflag).
  split; [exact Hsum |].
  exists bucket. split; [exact Htable | exact Hflag].
Defined.

(** ** The duplicate classifier *)

Section DuplicateFacts.

Import Dynamics Duplicates.

(** The nested test: the configurable gate, then the fixed test. *)
Lemma classify_spec (diff_threshold ssim_threshold d s : Q) :
  let gate := diff_threshold <= d \/ ssim_threshold <= s in
  let fixed := 995 # 1000 <= d \/ 99 # 100 <= s in
  (classify diff_threshold ssim_threshold d s = ExactDuplicate <-> gate /\ fixed) /\
  (classify diff_threshold ssim_threshold d s = NearDuplicate <-> gate /\ ~ fixed) /\
  (classify diff_threshold ssim_threshold d s = Distinct <-> ~ gate).
Proof.
  intros gate fixed. unfold classify.
  assert (Hgate : Py.geb d diff_threshold || Py.geb s ssim_threshold = true <-> gate)
    by (rewrite orb_true_iff, !geb_spec; reflexivity).
  assert (Hfixed : Py.geb d (995 # 1000) || Py.geb s (99 # 100) = true <-> fixed)
    by (rewrite orb_true_iff, !geb_spec; reflexivity).
  destruct (Py.geb d diff_threshold || Py.geb s ssim_threshold).
  - assert (Hg : gate) by (apply Hgate; reflexivity).
    destruct (Py.geb d (995 # 1000) || Py.geb s (99 # 100)).
    + assert (Hf : fixed) by (apply Hfixed; reflexivity).
      split; [| split]; split; try discriminate; try tauto.
    + assert (Hf : ~ fixed) by (intros Hf; apply Hfixed in Hf; discriminate).
      split; [| split]; split; try discriminate; try tauto.
  - assert (Hg : ~ gate) by (intros Hg; apply Hgate in Hg; discriminate).
    split; [| split]; split; try discriminate; try tauto.
Qed.

(** The counters of the loop move as the classification says. *)
Lemma detect_frame_counts `{Backend} (diff_threshold ssim_threshold : Q)
    (n : Z) (gray_frame prev : gray) (st : detector) :
  prev_frame st = Some prev ->
  let st' := detect_frame diff_threshold ssim_threshold n gray_frame st in
  match classify_frame diff_threshold ssim_threshold gray_frame prev with
  | ExactDuplicate =>
      duplicate_count st' = (duplicate_count st + 1)%Z /\
      near_duplicate_count st' = near_duplicate_count st /\
      duplicate_frames st' = duplicate_frames st ++ [n]
  | NearDuplicate =>
      duplicate_count st' = duplicate_count st /\
      near_duplicate_count st' = (near_duplicate_count st + 1)%Z /\
      duplicate_frames st' = duplicate_frames st
  | Distinct =>
      duplicate_count st' = duplicate_count st /\
      near_duplicate_count st' = near_duplicate_count st /\
      duplicate_frames st' = duplicate_frames st
  end.
Proof.
  intros Hprev st'. subst st'. unfold detect_frame. rewrite Hprev.
  destruct (classify_frame _ _ _ _); cbn; repeat split.
Qed.

(** Identical buffers differ nowhere. *)
Lemma absdiff_self (g : gray) : Forall (fun x => x == 0) (pixels (absdiff g g)).
Proof.
  unfold pixels, absdiff. rewrite zip_with_diag.
  apply Forall_map, Forall_concat, Forall_fmap, Forall_forall. intros row _.
  unfold compose. rewrite zip_with_diag. apply Forall_fmap, Forall_forall.
  intros x _. unfold compose. rewrite Z.sub_diag. reflexivity.
Qed.




End DuplicateFacts.

(** C4, as the code has it.  For a sampled frame after the first, with
    thresholds that do not exceed the fixed ones
    ([duplicate_threshold <= 0.995], [ssim_threshold <= 0.99], as the
    defaults 0.98 and 0.95), the frame counts as exact duplicate exactly
    when [diff_pct >= 0.995] or the approximate SSIM is [>= 0.99];
    otherwise as near duplicate exactly when
    [diff_pct >= duplicate_threshold] or [SSIM >= ssim_threshold];
    otherwise as distinct; [diff_pct] is [1 - mean(|A - B|) / 255] over the
    two downsampled grids, and the counters of the loop move with the
    class.  For any thresholds, a frame counts as exact duplicate only if
    it also passes the configurable test: it is an exact duplicate exactly
    when it passes both tests, a near duplicate exactly when it passes the
    configurable test alone, and distinct exactly when it fails the
    configurable test. *)
Theorem duplicate_classification `{Backend} (duplicate_threshold ssim_threshold : Q)
    (n : Z) (gray_frame prev : gray) (st : Duplicates.detector) :
  Duplicates.prev_frame st = Some prev ->
  let small := resize gray_frame in
  let prev_small := resize prev in
  let diff_pct := Duplicates.diff_percentage_of small prev_small in
  let ssim := Duplicates._calculate_simple_ssim small prev_small in
  let kind :=
    Duplicates.classify_frame duplicate_threshold ssim_threshold gray_frame prev in
  let st' :=
    Duplicates.detect_frame duplicate_threshold ssim_threshold n gray_frame st in
  let fixed := 995 # 1000 <= diff_pct \/ 99 # 100 <= ssim in
  let configurable := duplicate_threshold <= diff_pct \/ ssim_threshold <= ssim in
  diff_pct = 1 - Py.mean (Dynamics.pixels (Dynamics.absdiff small prev_small)) / 255 /\
  (duplicate_threshold <= 995 # 1000 -> ssim_threshold <= 99 # 100 ->
   (kind = Duplicates.ExactDuplicate <-> fixed) /\
   (kind = Duplicates.NearDuplicate <-> ~ fixed /\ configurable) /\
   (kind = Duplicates.Distinct <-> ~ fixed /\ ~ configurable)) /\
  (kind = Duplicates.ExactDuplicate -> configurable) /\
  (kind = Duplicates.ExactDuplicate <-> configurable /\ fixed) /\
  (kind = Duplicates.NearDuplicate <-> configurable /\ ~ fixed) /\
  (kind = Duplicates.Distinct <-> ~ configurable) /\
  (Duplicates.duplicate_count st' =
     match kind with
     | Duplicates.ExactDuplicate => (Duplicates.duplicate_count st + 1)%Z
     | _ => Duplicates.duplicate_count st
     end) /\
  (Duplicates.near_duplicate_count st' =
     match kind with
     | Duplicates.NearDuplicate => (Duplicates.near_duplicate_count st + 1)%Z
     | _ => Duplicates.near_duplicate_count st
     end).
Proof.
  intros Hprev small prev_small diff_pct ssim kind st' fixed configurable.
  destruct (classify_spec duplicate_threshold ssim_threshold diff_pct ssim)
    as (Hexact & Hnear & Hdistinct).
  cbv zeta in Hexact, Hnear, Hdistinct.
  change (Duplicates.classify duplicate_threshold ssim_threshold diff_pct ssim)
    with kind in Hexact, Hnear, Hdistinct.
  fold fixed configurable in Hexact, Hnear, Hdistinct.
  pose proof (detect_frame_counts duplicate_threshold ssim_threshold n
                gray_frame prev st Hprev) as Hcount.
  fold kind in Hcount. fold st' in Hcount.
  split; [reflexivity |].
  split; [| split; [| split; [| split; [| split; [| split]]]]].
  - intros Hd Hs.
    assert (Hgate : fixed -> configurable)
      by (intros Hfixed; destruct Hfixed; [left | right]; lra).
    split; [| split].
    + rewrite Hexact. tauto.
    + rewrite Hnear. tauto.
    + rewrite Hdistinct. tauto.
  - rewrite Hexact. tauto.
  - exact Hexact.
  - exact Hnear.
  - exact Hdistinct.
  - destruct kind; destruct Hcount as (Hc & _ & _); exact Hc.
  - destruct kind; destruct Hcount as (_ & Hc & _); exact Hc.
Qed.

Section FlatGrids.

Import Dynamics Duplicates.

Lemma sum_all (xs : list Q) (c : Q) :
  Forall (fun x => x == c) xs -> Py.sum xs == Py.len xs * c.
Proof.
  induction 1 as [| x xs Hx _ IH].
  - rewrite sum_nil. unfold Py.len. simpl. ring.
  - rewrite sum_cons, IH. unfold Py.len. cbn [length].
    rewrite Nat2Z.inj_succ, <- Z.add_1_r, inject_Z_plus, Hx. ring.
Qed.

(** The mean of a flat array is its value. *)
Lemma mean_all (xs : list Q) (c : Q) :
  xs <> [] -> Forall (fun x => x == c) xs -> Py.mean xs == c.
Proof.
  intros Hne Hxs. unfold Py.mean. rewrite (sum_all xs c Hxs).
  pose proof (len_pos xs Hne) as Hlen. field. lra.
Qed.

(** A flat array has no variance, and no covariance with another one. *)
Lemma var_all (xs : list Q) (c : Q) :
  Forall (fun x => x == c) xs -> Py.var xs == 0.
Proof.
  intros Hxs. destruct (decide (xs = [])) as [-> | Hne]; [reflexivity |].
  unfold Py.var. pose proof (mean_all xs c Hne Hxs) as Hmu.
  apply mean_zero, Forall_map. eapply Forall_impl; [exact Hxs |].
  intros x Hx. unfold compose. cbv beta in *. rewrite Hx, Hmu. ring.
Qed.

Lemma covariance_all (xs ys : list Q) (c mu1 mu2 : Q) :
  mu1 == c -> Forall (fun x => x == c) xs ->
  Py.mean (zip_with (fun a b => (a - mu1) * (b - mu2)) xs ys) == 0.
Proof.
  intros Hmu Hxs. apply mean_zero. revert ys.
  induction Hxs as [| x xs Hx _ IH]; intros [| y ys]; try constructor.
  - rewrite Hx, Hmu. ring.
  - apply IH.
Qed.

(** The two scores of an all-ones grid against an all-zeros grid. *)
Lemma flat_grids_scores (small prev_small : gray) :
  pixels small <> [] ->
  Forall (fun x => x == 1) (pixels small) ->
  Forall (fun x => x == 0) (pixels prev_small) ->
  Forall (fun x => x == 1) (pixels (absdiff small prev_small)) ->
  pixels (absdiff small prev_small) <> [] ->
  diff_percentage_of small prev_small == 254 # 255 /\
  _calculate_simple_ssim small prev_small == 1 # 10001.
Proof.
  intros Hne Hones Hzeros Hdiff Hdne. split.
  - unfold diff_percentage_of. rewrite (mean_all _ 1 Hdne Hdiff). reflexivity.
  - unfold _calculate_simple_ssim.
    pose proof (mean_all _ 1 Hne Hones) as Hmu1.
    pose proof (mean_zero _ Hzeros) as Hmu2.
    rewrite (covariance_all (pixels small) (pixels prev_small) 1 _ _ Hmu1 Hones).
    rewrite (var_all _ 1 Hones), (var_all _ 0 Hzeros), Hmu1, Hmu2.
    reflexivity.
Qed.

End FlatGrids.

(** The reference resampling of the black and of the near-black frame:
    flat grids of 120 rows and 160 columns. *)
Lemma flat_frames_resized :
  let small := resize (Backend := Reference.backend) Reference.bright_frame in
  let prev_small := resize (Backend := Reference.backend) Reference.dark_frame in
  Dynamics.pixels small = replicate (120 * 160) 1 /\
  Dynamics.pixels prev_small = replicate (120 * 160) 0 /\
  Dynamics.pixels (Dynamics.absdiff small prev_small) = replicate (120 * 160) 1.
Proof. split; [| split]; vm_compute; reflexivity. Qed.

(** C4, counterexample to the claim as stated, for a duplicate threshold
    above 0.995: with [duplicate_threshold = 0.999] and the default
    [ssim_threshold = 0.95], a frame one intensity level above its all-black
    predecessor has [diff_pct = 254/255 >= 0.995] and counts as distinct,
    not as exact duplicate. *)
Lemma strict_threshold_hides_exact_duplicate :
  let small := resize (Backend := Reference.backend) Reference.bright_frame in
  let prev_small := resize (Backend := Reference.backend) Reference.dark_frame in
  let diff_pct := Duplicates.diff_percentage_of small prev_small in
  diff_pct == 254 # 255 /\
  (995 # 1000 <= diff_pct \/
   99 # 100 <= Duplicates._calculate_simple_ssim small prev_small) /\
  Duplicates.classify_frame (H := Reference.backend) (999 # 1000) (95 # 100)
    Reference.bright_frame Reference.dark_frame
  = Duplicates.Distinct.
Proof.
  intros small prev_small diff_pct.
  destruct flat_frames_resized as (Hsmall & Hprev & Hdiff).
  fold small in Hsmall, Hdiff. fold prev_small in Hprev, Hdiff.
  destruct (flat_grids_scores small prev_small) as [Hd Hs].
  - rewrite Hsmall. discriminate.
  - rewrite Hsmall. apply Forall_replicate. reflexivity.
  - rewrite Hprev. apply Forall_replicate. reflexivity.
  - rewrite Hdiff. apply Forall_replicate. reflexivity.
  - rewrite Hdiff. discriminate.
  - fold diff_pct in Hd. split; [exact Hd | split; [left; rewrite Hd; discriminate |]].
    unfold Duplicates.classify_frame, Duplicates.classify_grids.
    fold small prev_small diff_pct.
    apply classify_spec. rewrite Hd, Hs. intros [Hgate | Hgate]; revert Hgate;
      unfold Qle; simpl; lia.
Qed.

Lemma detector_after_first_frame :
  Duplicates.prev_frame
    (Duplicates.detect_frame (H := Reference.backend) (98 # 100) (95 # 100) 0
       Reference.grid_down Duplicates.detector_init)
  = Some Reference.grid_down.
Proof. reflexivity. Qed.

Lemma default_thresholds_below_fixed : 98 # 100 <= 995 # 1000 /\ 95 # 100 <= 99 # 100.
Proof. split; discriminate. Qed.

(** The theorem at the default thresholds, for a second frame. *)
Lemma duplicate_classification_witness :
  Duplicates.prev_frame
    (Duplicates.detect_frame (H := Reference.backend) (98 # 100) (95 # 100) 0
       Reference.grid_down Duplicates.detector_init)
  = Some Reference.grid_down /\
  98 # 100 <= 995 # 1000 /\ 95 # 100 <= 99 # 100 /\
  (Duplicates.classify_frame (H := Reference.backend) (98 # 100) (95 # 100)
     Reference.grid_up Reference.grid_down
   = Duplicates.ExactDuplicate <->
   995 # 1000 <= Duplicates.diff_percentage_of
                   (resize (Backend := Reference.backend) Reference.grid_up)
                   (resize (Backend := Reference.backend) Reference.grid_down) \/
   99 # 100 <= Duplicates._calculate_simple_ssim
                 (resize (Backend := Reference.backend) Reference.grid_up)
                 (resize (Backend := Reference.backend) Reference.grid_down)).
Proof.
  split; [exact detector_after_first_frame |].
  split; [exact (proj1 default_thresholds_below_fixed) |].
  split; [exact (proj2 default_thresholds_below_fixed) |].
  exact (proj1 (proj1 (proj2 (duplicate_classification (H := Reference.backend)
                                (98 # 100) (95 # 100) 1
                                Reference.grid_up Reference.grid_down _
                                detector_after_first_frame))
                  (proj1 default_thresholds_below_fixed)
                  (proj2 default_thresholds_below_fixed))).
Defined.

(** ** Identical buffers *)


Section SelfCorrelation.

Context `{Backend}.

Hypothesis sqrt_square : forall x, 0 <= x -> sqrt (x * x) == x.

Lemma energy_nonneg (xs : list Q) : 0 <= Reference.energy xs.
Proof.
  unfold Reference.energy. apply sum_nonneg, Forall_map, Forall_forall.
  intros x _. apply square_nonneg.
Qed.


End SelfCorrelation.


Section ReferenceBackend.

Import Reference.

Lemma floor_sqrt_square (x : Q) : 0 <= x -> floor_sqrt (x * x) == x.
Proof.
  destruct x as [n d]. unfold Qle, floor_sqrt, Qeq. simpl. intros Hn.
  rewrite Z.mul_1_r in Hn.
  replace (n * n * Z.pos (d * d))%Z with ((n * Z.pos d) * (n * Z.pos d))%Z
    by (rewrite Pos2Z.inj_mul; ring).
  rewrite Z.sqrt_square by lia. rewrite Pos2Z.inj_mul. ring.
Qed.

(** The correlation coefficient of a buffer with itself is 1. *)
Lemma correlation_self (f : gray) : correlation f f == 1.
Proof.
  unfold correlation.
  set (t := centred (Dynamics.pixels f)).
  destruct (Qeq_bool (energy t) 0) eqn:Hflat; [reflexivity |].
  apply Qeq_bool_neq in Hflat.
  rewrite zip_with_diag. change (Py.sum ((fun x => x * x) <$> t)) with (energy t).
  rewrite (floor_sqrt_square (energy t) (energy_nonneg t)).
  apply Qmult_inv_r. exact Hflat.
Qed.

End ReferenceBackend.




(** ** Batch runs *)

Section BatchFacts.

Import Analyser BatchProcessor.

(** Looking every position up, in order, gives the list back. *)
Lemma omap_lookup_seq {A} (pre l : list A) :
  omap (fun i => (pre ++ l) !! i) (seq (length pre) (length l)) = l.
Proof.
  revert pre. induction l as [| x l IH]; intros pre; [reflexivity |].
  cbn [length seq omap list_omap].
  rewrite (list_lookup_middle pre l x _ eq_refl).
  f_equal. specialize (IH (pre ++ [x])).
  rewrite <- app_assoc, length_app, Nat.add_1_r in IH. exact IH.
Qed.

(** Whatever order the pool completes the futures in, the loop harvests
    each submitted file once. *)
Lemma harvested_files (files : list string) (schedule : list nat) :
  schedule ≡ₚ seq 0 (length files) ->
  omap (fun i => files !! i) schedule ≡ₚ files.
Proof.
  intros Hperm. rewrite Hperm.
  pose proof (omap_lookup_seq [] files) as Hall. cbn [app length] in Hall.
  rewrite Hall. reflexivity.
Qed.

(** The harvesting loop, unfolded: the successes in completion order, one
    log line and one progress call per future. *)
Lemma harvest_fold (analyze : string -> exn + VideoAnalysisResult) (total : Z)
    (done : list string) (st : run) :
  let st' := fold_left (harvest analyze total) done st in
  results st' = results st ++ omap (fun f => returned (analyze f)) done /\
  completed st' = (completed st + Z.of_nat (length done))%Z /\
  log st' = log st ++ map (log_line_of analyze) done /\
  progress st'
  = progress st ++
    imap (fun i f => ((completed st + Z.of_nat i + 1)%Z, total, f)) done.
Proof.
  revert st. induction done as [| f done IH]; intros st.
  - cbn. rewrite !app_nil_r. repeat split; lia.
  - cbn [fold_left]. specialize (IH (harvest analyze total st f)).
    cbv zeta in *. destruct IH as (Hr & Hc & Hl & Hp).
    rewrite Hr, Hc, Hl, Hp. clear Hr Hc Hl Hp.
    unfold harvest, log_line_of. cbn [omap list_omap map imap length].
    destruct (analyze f) as [e | result];
      cbn [results completed log progress returned];
      rewrite <- ?app_assoc; cbn [app];
      (split; [reflexivity | split; [lia | split; [reflexivity |]]]);
      (f_equal; f_equal; [f_equal; f_equal; lia |];
       apply imap_ext; intros i x _; cbn; f_equal; f_equal; lia).
Qed.

(** A successful analysis carries the path it was asked for. *)
Lemma analyze_filepath `{Backend} (a : VideoAnalyzer) (fs : gmap string file)
    (video_path : string) (result : VideoAnalysisResult) :
  analyze a fs video_path = inr result -> filepath result = video_path.
Proof.
  unfold analyze. destruct (fs !! video_path) as [[| v] |]; try discriminate.
  unfold analyze_capture. destruct (_ && _); [discriminate |].
  intros [= <-]. reflexivity.
Qed.

Lemma analyze_unavailable `{Backend} (a : VideoAnalyzer) (fs : gmap string file)
    (video_path : string) :
  fs !! video_path = None \/ fs !! video_path = Some Unreadable ->
  exists e, analyze a fs video_path = inl e.
Proof.
  unfold analyze. intros [-> | ->]; eauto.
Qed.

End BatchFacts.

Section FailureIsolation.

Context `{Backend}.

Import Analyser BatchProcessor.

Lemma successes_of (analyze : string -> exn + VideoAnalysisResult)
    (fs : list string) :
  Forall (fun f => exists r, analyze f = inr r) fs ->
  Forall2 (fun f r => analyze f = inr r) fs
          (omap (fun f => returned (analyze f)) fs).
Proof.
  induction 1 as [| f fs [r Hr] _ IH]; [constructor |].
  cbn [omap list_omap]. rewrite Hr. cbn [returned]. constructor; assumption.
Qed.

Lemma log_of_successes (analyze : string -> exn + VideoAnalysisResult)
    (fs : list string) :
  Forall (fun f => exists r, analyze f = inr r) fs ->
  filter is_error_line (map (log_line_of analyze) fs) = [].
Proof.
  intros Hok. apply filter_none, Forall_map.
  eapply Forall_impl; [exact Hok |]. intros f [r Hr]. cbv beta.
  unfold log_line_of. rewrite Hr. simpl. tauto.
Qed.

(** [analyze_batch] is the list of the outcomes, in order. *)
Lemma analyze_batch_map (fs : gmap string file) (video_files : list string) :
  BatchAnalyze.analyze_batch fs video_files
  = map (BatchAnalyze.analyze_video fs) video_files.
Proof.
  unfold BatchAnalyze.analyze_batch.
  assert (Hgen : forall acc,
            fold_left (fun results video_path =>
                         results ++ [BatchAnalyze.analyze_video fs video_path])
                      video_files acc
            = acc ++ map (BatchAnalyze.analyze_video fs) video_files).
  { induction video_files as [| p ps IH]; intros acc.
    - simpl. rewrite app_nil_r. reflexivity.
    - cbn [fold_left map]. rewrite IH, <- app_assoc. reflexivity. }
  apply Hgen.
Qed.

Lemma analyze_video_filepath (fs : gmap string file) (video_path : string) :
  BatchAnalyze.filepath_of (BatchAnalyze.analyze_video fs video_path) = video_path.
Proof.
  unfold BatchAnalyze.analyze_video.
  destruct (BatchAnalyze.analyses fs video_path); reflexivity.
Qed.

(** The outcome is the error dictionary exactly when the body raised. *)
Lemma analyze_video_is_error (fs : gmap string file) (video_path : string) :
  BatchAnalyze.is_error (BatchAnalyze.analyze_video fs video_path)
  = match BatchAnalyze.analyses fs video_path with
    | inl _ => true
    | inr _ => false
    end.
Proof.
  unfold BatchAnalyze.analyze_video.
  destruct (BatchAnalyze.analyses fs video_path); reflexivity.
Qed.

(** The body raises on a path that is missing or cannot be opened. *)
Lemma analyses_unavailable (fs : gmap string file) (video_path : string) :
  fs !! video_path = None \/ fs !! video_path = Some Unreadable ->
  exists e, BatchAnalyze.analyses fs video_path = inl e.
Proof.
  unfold BatchAnalyze.analyses, BatchAnalyze.open_video.
  intros [-> | ->]; cbn; eauto.
Qed.

Lemma analysed_not_error (fs : gmap string file) (files : list string) :
  Forall (fun f => exists r, BatchAnalyze.analyses fs f = inr r) files ->
  map (fun f => BatchAnalyze.is_error (BatchAnalyze.analyze_video fs f)) files
  = replicate (length files) false.
Proof.
  induction 1 as [| f files [r Hr] _ IH]; [reflexivity |].
  cbn [map length replicate]. rewrite IH, analyze_video_is_error, Hr.
  reflexivity.
Qed.

(** The results of a harvest in which only [K] fails: those of the other
    files, in the order of the harvest. *)
Lemma harvested_successes (analyze : string -> exn + VideoAnalysisResult)
    (K : string) (e : exn) (done : list string) :
  analyze K = inl e ->
  (forall f, f ∈ done -> f <> K -> exists r, analyze f = inr r) ->
  Forall2 (fun f r => analyze f = inr r)
          (filter (fun f => f <> K) done)
          (omap (fun f => returned (analyze f)) done).
Proof.
  intros HK Hok. induction done as [| f done IH]; [constructor |].
  cbn [omap list_omap]. rewrite filter_cons.
  assert (Hrest : forall g, g ∈ done -> g <> K -> exists r, analyze g = inr r)
    by (intros g Hg; apply Hok; right; exact Hg).
  destruct (decide (f <> K)) as [Hne | Heq].
  - destruct (Hok f ltac:(left) Hne) as [r Hr]. rewrite Hr. cbn [returned].
    constructor; [exact Hr | exact (IH Hrest)].
  - assert (f = K) as -> by (destruct (decide (f = K)); [assumption | contradiction]).
    rewrite HK. cbn [returned]. exact (IH Hrest).
Qed.

End FailureIsolation.

(** C1, as the code has it.  In a batch of N files of which exactly one,
    K, is missing or unreadable, the others being analysed without an
    exception, the loop of [batch_analyze.py] yields N outcomes in the
    order of the files, each carrying its path, of which exactly the one
    of K is an error outcome.  [process_files] returns, for any order of
    completion, the N - 1 successful results, each exactly once and in
    the order of completion, and no outcome for K: the failure is logged
    and reported to the progress callback, which is called once per file
    with the counts 1..N. *)
Theorem batch_failure_isolation `{Backend} (a : Analyser.VideoAnalyzer)
    (fs : gmap string file) (before after : list string) (K : string)
    (schedule : list nat) :
  let files := before ++ K :: after in
  schedule ≡ₚ seq 0 (length files) ->
  fs !! K = None \/ fs !! K = Some Unreadable ->
  Forall (analysable a fs) (before ++ after) ->
  let outcomes := BatchAnalyze.analyze_batch fs files in
  let run := BatchProcessor.process_files (Analyser.analyze a fs) files schedule in
  let harvested := omap (fun i => files !! i) schedule in
  (map BatchAnalyze.filepath_of outcomes = files /\
   map BatchAnalyze.is_error outcomes
   = replicate (length before) false ++ true :: replicate (length after) false) /\
  (exists successes,
     Forall2 (fun f r => Analyser.analyze a fs f = inr r) (before ++ after) successes /\
     BatchProcessor.results run ≡ₚ successes) /\
  length (BatchProcessor.results run) = (length files - 1)%nat /\
  Forall (fun r => Analyser.filepath r <> K) (BatchProcessor.results run) /\
  (exists e, filter is_error_line (BatchProcessor.log run) = [BatchProcessor.Error K e]) /\
  harvested ≡ₚ files /\
  BatchProcessor.progress run
  = imap (fun i f => ((Z.of_nat i + 1)%Z, Z.of_nat (length files), f)) harvested /\
  BatchProcessor.results run
  = omap (fun f => returned (Analyser.analyze a fs f)) harvested /\
  Forall2 (fun f r => Analyser.analyze a fs f = inr r)
          (filter (fun f => f <> K) harvested) (BatchProcessor.results run).
Proof.
  intros files Hsched HK Hboth outcomes run harvested.
  assert (Hok : Forall (fun f => exists r, Analyser.analyze a fs f = inr r)
                       (before ++ after))
    by (eapply Forall_impl; [exact Hboth | intros f Hf; exact (proj1 Hf)]).
  assert (Hok' : Forall (fun f => exists r, BatchAnalyze.analyses fs f = inr r)
                        (before ++ after))
    by (eapply Forall_impl; [exact Hboth | intros f Hf; exact (proj2 Hf)]).
  destruct (analyze_unavailable a fs K HK) as [e He].
  destruct (analyses_unavailable fs K HK) as [e' He'].
  pose proof (harvested_files files schedule Hsched) as Hdone. fold harvested in Hdone.
  destruct (harvest_fold (Analyser.analyze a fs) (Z.of_nat (length files))
              harvested BatchProcessor.run_init) as (Hres & _ & Hlog & Hprog).
  change (fold_left _ harvested BatchProcessor.run_init) with run in Hres, Hlog, Hprog.
  cbn [BatchProcessor.results BatchProcessor.log BatchProcessor.progress
       BatchProcessor.completed BatchProcessor.run_init app] in Hres, Hlog, Hprog.
  assert (Hreturned : BatchProcessor.results run
                      ≡ₚ omap (fun f => returned (Analyser.analyze a fs f))
                              (before ++ after)).
  { rewrite Hres, Hdone. subst files. rewrite !omap_app. cbn [omap list_omap].
    rewrite He. reflexivity. }
  pose proof (successes_of _ _ Hok) as Hsucc.
  split; [| split; [| split; [| split; [| split; [| split; [| split; [| split]]]]]]].
  - subst outcomes. rewrite analyze_batch_map, !map_map. split.
    + rewrite <- (map_id files) at 2. apply map_ext. intros f.
      apply analyze_video_filepath.
    + apply Forall_app in Hok' as [Hb Ha]. subst files. rewrite map_app.
      cbn [map]. rewrite (analysed_not_error fs before Hb),
        (analysed_not_error fs after Ha), analyze_video_is_error, He'.
      reflexivity.
  - eexists. split; [exact Hsucc | exact Hreturned].
  - rewrite Hreturned, <- (Forall2_length _ _ _ Hsucc). subst files.
    rewrite !length_app. cbn [length]. lia.
  - rewrite Hreturned. apply Forall_forall. intros r Hr.
    apply list_elem_of_lookup in Hr as [i Hi].
    destruct (Forall2_lookup_r _ _ _ _ _ Hsucc Hi) as (f & _ & Hf).
    rewrite (analyze_filepath a fs f r Hf). intros ->. congruence.
  - exists e. apply Permutation_singleton_r.
    rewrite Hlog, Hdone. subst files. rewrite map_app. cbn [map].
    apply Forall_app in Hok as [Hb Ha].
    rewrite filter_app, filter_cons_True.
    + rewrite (log_of_successes _ _ Hb), (log_of_successes _ _ Ha).
      unfold log_line_of. rewrite He. reflexivity.
    + unfold log_line_of. rewrite He. exact I.
  - exact Hdone.
  - rewrite Hprog. apply imap_ext. intros i f _.
    replace (0 + Z.of_nat i + 1)%Z with (Z.of_nat i + 1)%Z by lia. reflexivity.
  - exact Hres.
  - rewrite Hres. apply (harvested_successes _ K e).
    + exact He.
    + intros f Hf HfK.
      assert (Hin : f ∈ before ++ after).
      { rewrite Hdone in Hf. subst files.
        rewrite elem_of_app, elem_of_cons in Hf. rewrite elem_of_app. tauto. }
      exact (proj1 (Forall_forall _ _) Hok f Hin).
Qed.

Lemma missing_file_request :
  Reference.two_requests = ["a.mp4"%string] ++ "missing.mp4"%string :: [] /\
  [1; 0]%nat ≡ₚ seq 0 (length Reference.two_requests) /\
  (Reference.one_clip_directory !! "missing.mp4"%string = None \/
   Reference.one_clip_directory !! "missing.mp4"%string = Some Unreadable) /\
  Forall (analysable (H := Reference.backend) Analyser.default_analyzer
            Reference.one_clip_directory)
         (["a.mp4"%string] ++ []).
Proof.
  split; [reflexivity | split; [apply perm_swap | split; [left; reflexivity |]]].
  constructor; [| constructor]. split.
  - assert (Hok : match Analyser.analyze (H := Reference.backend)
                          Analyser.default_analyzer
                          Reference.one_clip_directory "a.mp4" with
                  | inr _ => true
                  | inl _ => false
                  end = true)
      by (vm_compute; reflexivity).
    destruct (Analyser.analyze _ _ _) as [e | r]; [discriminate | eauto].
  - assert (Hok : match BatchAnalyze.analyses (H := Reference.backend)
                          Reference.one_clip_directory "a.mp4" with
                  | inr _ => true
                  | inl _ => false
                  end = true)
      by reflexivity.
    destruct (BatchAnalyze.analyses _ _) as [e | r]; [discriminate | eauto].
Qed.

(** C1, counterexample to the claim as stated, for [process_files]: of
    two requested files, one missing, it returns one outcome, not two, and
    none for the missing file. *)
Lemma process_files_drops_failure :
  let run :=
    BatchProcessor.process_files
      (Analyser.analyze (H := Reference.backend) Analyser.default_analyzer
         Reference.one_clip_directory)
      Reference.two_requests [1; 0]%nat in
  length Reference.two_requests = 2%nat /\
  length (BatchProcessor.results run) = 1%nat /\
  map Analyser.filepath (BatchProcessor.results run) = ["a.mp4"%string].
Proof.
  split; [reflexivity | split; vm_compute; reflexivity].
Qed.

(** The theorem at the two requests, the missing file completing first. *)
Lemma batch_failure_isolation_witness :
  [1; 0]%nat ≡ₚ seq 0 (length (["a.mp4"%string] ++ "missing.mp4"%string :: [])) /\
  (Reference.one_clip_directory !! "missing.mp4"%string = None \/
   Reference.one_clip_directory !! "missing.mp4"%string = Some Unreadable) /\
  Forall (analysable (H := Reference.backend) Analyser.default_analyzer
            Reference.one_clip_directory)
         (["a.mp4"%string] ++ []) /\
  length (BatchProcessor.results
            (BatchProcessor.process_files
               (Analyser.analyze (H := Reference.backend)
                  Analyser.default_analyzer Reference.one_clip_directory)
               (["a.mp4"%string] ++ "missing.mp4"%string :: []) [1; 0]%nat))
  = (length (["a.mp4"%string] ++ "missing.mp4"%string :: []) - 1)%nat.
Proof.
  destruct missing_file_request as (_ & Hsched & HK & Hok).
  split; [exact Hsched | split; [exact HK | split; [exact Hok |]]].
  exact (proj1 (proj2 (proj2 (batch_failure_isolation (H := Reference.backend)
           Analyser.default_analyzer Reference.one_clip_directory
           ["a.mp4"%string] [] "missing.mp4"%string [1; 0]%nat
           Hsched HK Hok)))).
Defined.

(** ** Defaults and ranges of the total score *)

Section ComparisonFacts.

Lemma geb_comp (x y c : Q) : x == y -> Py.geb x c = Py.geb y c.
Proof.
  intros Hxy. unfold Py.geb.
  destruct (Qle_bool c x) eqn:Hx, (Qle_bool c y) eqn:Hy; try reflexivity.
  - apply Qle_bool_iff in Hx. rewrite Hxy in Hx. apply Qle_bool_iff in Hx. congruence.
  - apply Qle_bool_iff in Hy. rewrite <- Hxy in Hy. apply Qle_bool_iff in Hy. congruence.
Qed.

End ComparisonFacts.

Section MissingStatistics.

Import Aggregator.

Lemma get_missing (d : gmap string Q) (k : string) (dflt : Q) :
  d !! k = None -> Py.get d k dflt = dflt.
Proof. intros Hk. unfold Py.get. rewrite Hk. reflexivity. Qed.

Lemma round2_zero (x : Q) : x == 0 -> Py.round x 2 == 0.
Proof. intros Hx. rewrite (round_comp x 0 2 Hx). reflexivity. Qed.

Lemma max0_nonpos (x : Q) : x <= 0 -> Qmax 0 x == 0.
Proof.
  intros Hx. destruct (Q.max_spec 0 x) as [[Hlt Hmax] | [Hle Hmax]];
    rewrite Hmax; lra.
Qed.

End MissingStatistics.

(** X2.  The defaults of the aggregator are the pessimistic ones: a
    section that lacks the statistic a sub-score reads ([mean_fps],
    [jitter_percentage], [total_duplicate_ratio],
    [motion_continuity_score], [wobble_distortion_score]) gives that
    sub-score 0, as does a mean rate that is not positive. *)
Theorem missing_statistic_scores_zero (fps motion : result_dict)
    (d : gmap string Q) :
  (fps !! "overall_stats"%string = Some d ->
   d !! "mean_fps"%string = None \/
   (exists x, d !! "mean_fps"%string = Some x /\ x <= 0) ->
   Aggregator.fps_stability_of fps == 0) /\
  (motion !! "effective_fps_pts_jitter"%string = Some d ->
   d !! "jitter_percentage"%string = None ->
   Aggregator.pts_jitter_of motion == 0) /\
  (motion !! "duplicate_frame_ratio"%string = Some d ->
   d !! "total_duplicate_ratio"%string = None ->
   Aggregator.duplicate_frames_of motion == 0) /\
  (motion !! "motion_continuity"%string = Some d ->
   d !! "motion_continuity_score"%string = None ->
   Aggregator.motion_continuity_of motion == 0) /\
  (motion !! "wobble_distortion"%string = Some d ->
   d !! "wobble_distortion_score"%string = None ->
   Aggregator.wobble_of motion == 0).
Proof.
  split; [| split; [| split; [| split]]]; intros Hd Hk.
  - unfold Aggregator.fps_stability_of. rewrite Hd.
    assert (Hmean : Py.gtb (Py.get d "mean_fps" 0) 0 = false).
    { apply gtb_false. unfold Py.get.
      destruct Hk as [-> | (x & -> & Hx)]; simpl; lra. }
    rewrite Hmean. reflexivity.
  - unfold Aggregator.pts_jitter_of. rewrite Hd, (get_missing _ _ _ Hk). reflexivity.
  - unfold Aggregator.duplicate_frames_of. rewrite Hd, (get_missing _ _ _ Hk). reflexivity.
  - unfold Aggregator.motion_continuity_of. rewrite Hd, (get_missing _ _ _ Hk). reflexivity.
  - unfold Aggregator.wobble_of. rewrite Hd, (get_missing _ _ _ Hk). reflexivity.
Qed.

Section EndToEnd.

Context `{Backend}.

(** What the body of [analyze_video] computed when it did not raise. *)
Lemma analyses_inr (fs : gmap string file) (video_path : string)
    (result : BatchAnalyze.analysis) :
  BatchAnalyze.analyses fs video_path = inr result ->
  exists v fps_table fps_result frame_data dynamics_table motion_result,
    fs !! video_path = Some (Playable v) /\
    Fps.analyze_fps_dynamics v = inr (fps_table, fps_result) /\
    Dynamics.analyze_frame_dynamics v 5 = inr (frame_data, dynamics_table) /\
    MotionQuality.analyze_motion_quality v 5 (98 # 100) (95 # 100)
    = inr motion_result /\
    result =
      {| BatchAnalyze.basic := BatchAnalyze.basic_of v;
         BatchAnalyze.fps_dynamics := fps_result;
         BatchAnalyze.frame_dynamics := BatchAnalyze.dynamics_of v frame_data;
         BatchAnalyze.motion_quality := motion_result;
         BatchAnalyze.overall_score :=
           Aggregator.calculate_overall_score (BatchAnalyze.basic_of v)
             fps_result (BatchAnalyze.dynamics_of v frame_data) motion_result |}.
Proof.
  unfold BatchAnalyze.analyses. intros Hret.
  apply bind_inr in Hret as (v & Hopen & Hret).
  apply bind_inr in Hret as ([fps_table fps_result] & Hfps & Hret).
  apply bind_inr in Hret as ([frame_data dynamics_table] & Hdyn & Hret).
  apply bind_inr in Hret as (motion_result & Hmotion & Hret).
  injection Hret as <-.
  exists v, fps_table, fps_result, frame_data, dynamics_table, motion_result.
  split; [| repeat split; assumption].
  unfold BatchAnalyze.open_video in Hopen.
  destruct (fs !! video_path) as [[| v'] |]; try discriminate.
  injection Hopen as ->. reflexivity.
Qed.

End EndToEnd.

(** X3.  For every file that [analyze_video] analyses without an error,
    with a backend whose square root is not negative, the six sub-scores
    of the outcome lie within their caps (25, 15, 15, 25, 10, 10), the
    total is their sum, and it lies between 0 and 100. *)
Theorem analysed_scores_in_range `{Backend} (fs : gmap string file)
    (video_path : string) (result : BatchAnalyze.analysis) :
  (forall x, 0 <= sqrt x) ->
  BatchAnalyze.analyses fs video_path = inr result ->
  let s := BatchAnalyze.overall_score result in
  0 <= Aggregator.fps_stability s <= 25 /\
  0 <= Aggregator.pts_jitter s <= 15 /\
  0 <= Aggregator.duplicate_frames s <= 15 /\
  0 <= Aggregator.motion_continuity s <= 25 /\
  0 <= Aggregator.wobble s <= 10 /\
  0 <= Aggregator.quality s <= 10 /\
  Aggregator.total s ==
    Aggregator.fps_stability s + Aggregator.pts_jitter s
    + Aggregator.duplicate_frames s + Aggregator.motion_continuity s
    + Aggregator.wobble s + Aggregator.quality s /\
  0 <= Aggregator.total s <= 100.
Proof.
  intros Hsqrt Hret s.
  apply analyses_inr in Hret
    as (v & fps_table & fps_result & frame_data & dynamics_table & motion_result
        & _ & Hfps & _ & Hmotion & ->).
  destruct (analyzers_in_ranges Hsqrt v 5 (98 # 100) (95 # 100) fps_table
              fps_result motion_result Hfps Hmotion)
    as (Hstd & Hjit & Hdup & Hcont & Hwob).
  pose proof (fps_stability_range fps_result Hstd) as H1.
  pose proof (pts_jitter_range motion_result Hjit) as H2.
  pose proof (duplicate_frames_range motion_result Hdup) as H3.
  pose proof (motion_continuity_range motion_result Hcont) as H4.
  pose proof (wobble_range motion_result Hwob) as H5.
  pose proof (quality_range (BatchAnalyze.basic_of v)) as H6.
  pose proof (total_is_sum (BatchAnalyze.basic_of v) fps_result
                (BatchAnalyze.dynamics_of v frame_data) motion_result) as Ht.
  subst s. simpl in *. repeat split; try tauto; try lra.
Qed.

Lemma tiny_clip_analysed :
  exists result,
    BatchAnalyze.analyses (H := Reference.backend)
      Reference.one_clip_directory "a.mp4" = inr result.
Proof.
  assert (Hok : match BatchAnalyze.analyses (H := Reference.backend)
                        Reference.one_clip_directory "a.mp4" with
                | inr _ => true
                | inl _ => false
                end = true)
    by reflexivity.
  destruct (BatchAnalyze.analyses _ _) as [e | r]; [discriminate | eauto].
Qed.

(** The theorem at the two-frame clip. *)
Lemma analysed_scores_in_range_witness :
  (forall x, 0 <= Reference.floor_sqrt x) /\
  exists result,
    BatchAnalyze.analyses (H := Reference.backend)
      Reference.one_clip_directory "a.mp4" = inr result /\
    0 <= Aggregator.total (BatchAnalyze.overall_score result) <= 100.
Proof.
  split; [exact floor_sqrt_nonneg |].
  destruct tiny_clip_analysed as [result Hret].
  exists result. split; [exact Hret |].
  apply (analysed_scores_in_range (H := Reference.backend)
           Reference.one_clip_directory "a.mp4" result floor_sqrt_nonneg Hret).
Defined.

(** X4.  A video with fewer than two frames, analysed with a stride that
    is not zero: [analyze_motion_quality] returns, and the aggregator gives
    it the full duplicate and wobble sub-scores (15 and 10) and the jitter
    and continuity sub-scores 0. *)
Theorem short_video_subscores `{Backend} (v : video) (sample_rate : Z)
    (duplicate_threshold ssim_threshold : Q) :
  sample_rate <> 0%Z ->
  (length (frames v) < 2)%nat -> (length (pos_msec v) < 2)%nat ->
  exists motion : result_dict,
    MotionQuality.analyze_motion_quality v sample_rate
      duplicate_threshold ssim_threshold = inr motion /\
    Aggregator.pts_jitter_of motion == 0 /\
    Aggregator.duplicate_frames_of motion == 15 /\
    Aggregator.motion_continuity_of motion == 0 /\
    Aggregator.wobble_of motion == 10.
Proof.
  intros Hrate Hframes Hpos.
  destruct v as [declared count w h fs pos]. cbn [frames pos_msec] in *.
  unfold MotionQuality.analyze_motion_quality,
    Duplicates._analyze_duplicate_frames, Motion._analyze_motion_continuity,
    Wobble._analyze_wobble_distortion.
  cbn [frames pos_msec declared_fps total_frame_count].
  rewrite (zero_stride_false sample_rate fs Hrate).
  destruct fs as [| f [| f' fs]]; [| | simpl in Hframes; lia];
    (destruct pos as [| p [| p' pos]]; [| | simpl in Hpos; lia]);
    (eexists; split; [reflexivity |]);
    (split; [| split; [| split]]); reflexivity.
Qed.

Lemma single_frame_video_is_short :
  let v := {| declared_fps := 30; total_frame_count := 1; width := 2; height := 2;
              frames := Reference.single_frame; pos_msec := [0] |} in
  1%Z <> 0%Z /\ (length (frames v) < 2)%nat /\ (length (pos_msec v) < 2)%nat.
Proof. split; [discriminate | split; simpl; lia]. Qed.

(** The theorem at a one-frame clip with stride 1 and the default
    thresholds. *)
Lemma short_video_subscores_witness :
  let v := {| declared_fps := 30; total_frame_count := 1; width := 2; height := 2;
              frames := Reference.single_frame; pos_msec := [0] |} in
  1%Z <> 0%Z /\ (length (frames v) < 2)%nat /\ (length (pos_msec v) < 2)%nat /\
  exists motion : result_dict,
    MotionQuality.analyze_motion_quality (H := Reference.backend) v 1
      (98 # 100) (95 # 100) = inr motion /\
    Aggregator.duplicate_frames_of motion == 15.
Proof.
  intros v.
  destruct single_frame_video_is_short as (Hrate & Hframes & Hpos).
  split; [exact Hrate | split; [exact Hframes | split; [exact Hpos |]]].
  destruct (short_video_subscores (H := Reference.backend) v 1
              (98 # 100) (95 # 100) Hrate Hframes Hpos)
    as (motion & Hret & _ & Hdup & _).
  exists motion. split; [exact Hret | exact Hdup].
Defined.

(** ** Timestamps and frame rates *)

Section RegularTimestamps.

Context `{Backend}.

Import MotionQuality.

(** Consecutive differences of a list that advances by a fixed step. *)
Lemma steps_all (l : list Q) (step : Q) :
  (forall i p q, l !! i = Some p -> l !! S i = Some q -> q - p == step) ->
  Forall (fun t => t == step) (zip_with (fun prev x => x - prev) l (tail l)).
Proof.
  induction l as [| p l IH]; intros Hstep; [constructor |].
  destruct l as [| q l]; [constructor |].
  cbn [tail zip_with]. constructor.
  - apply (Hstep 0%nat p q); reflexivity.
  - apply IH. intros i p' q' Hp Hq. apply (Hstep (S i) p' q'); assumption.
Qed.

(** The intervals between grabs whose positions advance by [1000 / fps]
    milliseconds are [1 / fps] seconds. *)
Lemma regular_frame_times (pos : list Q) (fps : Q) :
  ~ fps == 0 ->
  (forall i p q, pos !! i = Some p -> pos !! S i = Some q ->
                 q - p == 1000 / fps) ->
  Forall (fun t => t == 1 / fps) (frame_times_of pos).
Proof.
  intros Hfps Hstep. unfold frame_times_of. apply steps_all.
  intros i p q Hp Hq. rewrite list_lookup_fmap in Hp, Hq.
  destruct (pos !! i) as [p0 |] eqn:Hp0; [| discriminate].
  destruct (pos !! S i) as [q0 |] eqn:Hq0; [| discriminate].
  injection Hp as <-. injection Hq as <-.
  pose proof (Hstep i p0 q0 Hp0 Hq0) as Hd.
  assert (Hq1 : q0 == p0 + 1000 / fps) by lra.
  rewrite Hq1. field. exact Hfps.
Qed.

Lemma frame_times_length (pos : list Q) :
  length (frame_times_of pos) = (length pos - 1)%nat.
Proof.
  unfold frame_times_of. rewrite length_zip_with.
  destruct pos as [| p pos]; [reflexivity |].
  cbn [map tail length]. rewrite length_map. lia.
Qed.

End RegularTimestamps.

(** X5.  Timestamps that advance by exactly [1000 / declared_fps]
    milliseconds from grab to grab, at least two of them: the jitter
    analysis reports the declared rate as effective rate, no jitter, and
    the aggregator grants the full jitter sub-score 15.  The square root
    of the backend maps zero to zero. *)
Theorem regular_timestamps_no_jitter `{Backend} (pos : list Q) (declared : Q)
    (motion : result_dict) :
  (forall x, x == 0 -> sqrt x == 0) ->
  0 < declared -> (2 <= length pos)%nat ->
  (forall i p q, pos !! i = Some p -> pos !! S i = Some q ->
                 q - p == 1000 / declared) ->
  let pts_data := MotionQuality._analyze_pts_jitter pos declared in
  motion !! "effective_fps_pts_jitter"%string = Some pts_data ->
  exists effective_fps jitter_std jitter_percentage,
    pts_data !! "effective_fps"%string = Some effective_fps /\
    effective_fps == declared /\
    pts_data !! "pts_jitter_std"%string = Some jitter_std /\
    jitter_std == 0 /\
    pts_data !! "jitter_percentage"%string = Some jitter_percentage /\
    jitter_percentage == 0 /\
    Aggregator.pts_jitter_of motion == 15.
Proof.
  intros Hsqrt Hfps Hlen Hstep pts_data Hmotion.
  assert (Hne : ~ declared == 0) by lra.
  pose proof (regular_frame_times pos declared Hne Hstep) as Hall.
  pose proof (frame_times_length pos) as Htimes.
  subst pts_data. unfold Aggregator.pts_jitter_of. rewrite Hmotion.
  unfold MotionQuality._analyze_pts_jitter in *.
  destruct (MotionQuality.frame_times_of pos) as [| t ts] eqn:Hft;
    [simpl in Htimes; lia |].
  set (times := t :: ts) in *.
  assert (Hmean : Py.mean times == 1 / declared)
    by (apply mean_all; [discriminate | exact Hall]).
  assert (Hinv : 0 < 1 / declared).
  { unfold Qdiv. rewrite Qmult_1_l. apply Qinv_lt_0_compat, Hfps. }
  assert (Hstd : Py.std times == 0)
    by (apply Hsqrt, (var_all times (1 / declared)), Hall).
  assert (Hdelta : Py.gtb (MotionQuality.expected_delta_of declared) 0 = true).
  { unfold MotionQuality.expected_delta_of.
    rewrite (proj2 (gtb_spec declared 0) Hfps). apply gtb_spec, Hinv. }
  assert (Hpos : Py.gtb (Py.mean times) 0 = true)
    by (apply gtb_spec; rewrite Hmean; exact Hinv).
  assert (Hpct : Py.std times / MotionQuality.expected_delta_of declared * 100 == 0).
  { rewrite Hstd. unfold Qdiv. ring. }
  eexists _, _, _.
  split; [reflexivity |]. rewrite Hpos.
  split; [rewrite Hmean; field; exact Hne |].
  split; [reflexivity |]. split; [exact Hstd |].
  split; [reflexivity |]. rewrite Hdelta. split; [exact Hpct |].
  unfold Py.get.
  match goal with
  | |- Py.round (Qmax 0 (15 - default 100 ?o * _)) 2 == 15 =>
      change o with (Some (Py.std times / MotionQuality.expected_delta_of declared * 100))
  end.
  cbn [default]. apply round2_of; [| reflexivity].
  apply max0_of; [rewrite Hpct; reflexivity | lra].
Qed.

(** The computable backend's square root of zero is zero. *)
Lemma floor_sqrt_zero (x : Q) : x == 0 -> Reference.floor_sqrt x == 0.
Proof.
  unfold Qeq, Reference.floor_sqrt. simpl. intros Hx.
  rewrite Z.mul_1_r in Hx. rewrite Hx. reflexivity.
Qed.

Lemma tiny_clip_is_regular :
  0 < 30 /\ (2 <= length (pos_msec Reference.tiny_clip))%nat /\
  (forall i p q, pos_msec Reference.tiny_clip !! i = Some p ->
                 pos_msec Reference.tiny_clip !! S i = Some q ->
                 q - p == 1000 / 30).
Proof.
  split; [reflexivity | split; [simpl; lia |]].
  intros [| [| i]] p q Hp Hq; simpl in *; try discriminate.
  injection Hp as <-. injection Hq as <-. reflexivity.
Qed.

(** The theorem at the positions of the two-frame clip. *)
Lemma regular_timestamps_no_jitter_witness :
  let pts_data :=
    MotionQuality._analyze_pts_jitter (H := Reference.backend)
      (pos_msec Reference.tiny_clip) 30 in
  let motion : result_dict := {[ "effective_fps_pts_jitter"%string := pts_data ]} in
  (forall x, x == 0 -> Reference.floor_sqrt x == 0) /\
  0 < 30 /\ (2 <= length (pos_msec Reference.tiny_clip))%nat /\
  motion !! "effective_fps_pts_jitter"%string = Some pts_data /\
  Aggregator.pts_jitter_of motion == 15.
Proof.
  intros pts_data motion.
  assert (Hm : motion !! "effective_fps_pts_jitter"%string = Some pts_data)
    by apply lookup_singleton_eq.
  destruct tiny_clip_is_regular as (Hfps & Hlen & Hstep).
  split; [exact floor_sqrt_zero |].
  split; [exact Hfps | split; [exact Hlen | split; [exact Hm |]]].
  destruct (regular_timestamps_no_jitter (H := Reference.backend)
              (pos_msec Reference.tiny_clip) 30 motion
              floor_sqrt_zero Hfps Hlen Hstep Hm)
    as (e & s & p & _ & _ & _ & _ & _ & _ & Hscore).
  exact Hscore.
Defined.

Section FpsTables.

Context `{Backend}.

Import Fps.

(** The rates of a table with the single bucket 0. *)
Lemma fps_values_singleton (keep : second_fps -> bool) (bucket : second_fps) :
  fps_values keep {[ 0%Z := bucket ]}
  = if keep bucket then [fps bucket] else [].
Proof.
  unfold fps_values, all_seconds. rewrite map_to_list_singleton.
  cbn [map fst]. change (merge_sort Z.le [0%Z]) with [0%Z].
  cbn [omap list_omap]. rewrite lookup_singleton_eq.
  rewrite filter_cons, filter_nil.
  destruct (keep bucket); reflexivity.
Qed.

(** The mean of a single rate is that rate, and it has no deviation. *)
Lemma mean_singleton (x : Q) : Py.mean [x] == x.
Proof. apply mean_all; [discriminate | repeat constructor; reflexivity]. Qed.

Lemma var_singleton (x : Q) : Py.var [x] == 0.
Proof. apply (var_all [x] x). repeat constructor. Qed.

(** The stability sub-score of statistics with a positive mean and no
    deviation. *)
Lemma steady_stats_score (fps_result : result_dict) (stats : gmap string Q)
    (mean std : Q) :
  fps_result !! "overall_stats"%string = Some stats ->
  stats !! "mean_fps"%string = Some mean -> 0 < mean ->
  stats !! "std_fps"%string = Some std -> std == 0 ->
  Aggregator.fps_stability_of fps_result == 25.
Proof.
  intros Hstats Hmean Hpos Hstd Hzero. unfold Aggregator.fps_stability_of.
  rewrite Hstats. unfold Py.get. rewrite Hmean, Hstd.
  cbn [default from_option]. unfold id.
  rewrite (proj2 (gtb_spec mean 0) Hpos).
  apply round2_of; [| reflexivity].
  apply max0_of; [| lra]. rewrite Hzero. unfold Qdiv. ring.
Qed.

End FpsTables.

(** X6.  A video whose declared frame rate is not positive, with at least
    one frame: every frame is stamped 0, so the table that
    [analyze_fps_dynamics] returns has the single bucket 0; it holds all
    frames, is flagged incomplete and reports the frame count as its rate.
    The overall statistics fall back to this bucket (mean = frame count,
    no deviation), and the aggregator grants the full stability sub-score
    25.  The square root of the backend maps zero to zero. *)
Theorem nonpositive_rate_single_bucket `{Backend} (v : video)
    (table : gmap Z Fps.second_fps) (fps_result : result_dict) :
  (forall x, x == 0 -> sqrt x == 0) ->
  declared_fps v <= 0 -> frames v <> [] ->
  Fps.analyze_fps_dynamics v = inr (table, fps_result) ->
  let frame_total := Z.of_nat (length (frames v)) in
  exists bucket stats mean_fps std_fps,
    table = {[ 0%Z := bucket ]} /\
    Fps.frame_count bucket = frame_total /\
    Fps.is_complete_second bucket = false /\
    Fps.fps bucket = inject_Z frame_total /\
    fps_result !! "overall_stats"%string = Some stats /\
    stats !! "mean_fps"%string = Some mean_fps /\
    mean_fps == inject_Z frame_total /\
    stats !! "std_fps"%string = Some std_fps /\ std_fps == 0 /\
    Aggregator.fps_stability_of fps_result == 25.
Proof.
  intros Hsqrt Hrate Hne Hret frame_total.
  apply analyze_fps_dynamics_inr in Hret as [-> ->].
  assert (Hgtb : Py.gtb (declared_fps v) 0 = false) by (apply gtb_false, Hrate).
  assert (Hstamp : forall k, Fps.timestamp_of (declared_fps v) k = 0)
    by (intros k; unfold Fps.timestamp_of; rewrite Hgtb; reflexivity).
  destruct (read_single_bucket (declared_fps v) (frames v)) as [Hm Hn];
    [intros k _; rewrite Hstamp; reflexivity | exact Hne |].
  set (bucket := Fps.per_second_entry (Some 0%Z) (Fps.duration_of v) 0 frame_total).
  assert (Htable : Fps.per_second_fps v = {[ 0%Z := bucket ]}).
  { unfold Fps.per_second_fps. cbv zeta. unfold Fps.read_all at 1 2. rewrite Hm.
    rewrite last_second_singleton, <- insert_empty.
    rewrite (map_imap_insert_Some _ 0%Z _ ∅ _ eq_refl), map_imap_empty.
    rewrite insert_empty. reflexivity. }
  assert (Hfps : Fps.fps bucket = inject_Z frame_total).
  { subst bucket. unfold Fps.per_second_entry, Fps.duration_of.
    cbn [Fps.fps]. rewrite Hstamp. reflexivity. }
  assert (Hpos : 0 < inject_Z frame_total).
  { change 0 with (inject_Z 0). rewrite <- Zlt_Qlt. subst frame_total.
    destruct (frames v); [congruence | simpl; lia]. }
  assert (Hstats : Fps.overall_stats v
                   = Fps.stats_of (declared_fps v) [inject_Z frame_total] 0 1).
  { unfold Fps.overall_stats. rewrite Htable, !fps_values_singleton, Hfps.
    reflexivity. }
  exists bucket, (Fps.overall_stats v),
    (Py.mean [inject_Z frame_total]), (Py.std [inject_Z frame_total]).
  split; [exact Htable |]. split; [reflexivity |]. split; [reflexivity |].
  split; [exact Hfps |]. split; [apply lookup_singleton_eq |].
  rewrite Hstats. split; [reflexivity |]. split; [apply mean_singleton |].
  split; [reflexivity |].
  assert (Hstd : Py.std [inject_Z frame_total] == 0)
    by apply Hsqrt, var_singleton.
  split; [exact Hstd |].
  apply (steady_stats_score _ (Fps.stats_of (declared_fps v) [inject_Z frame_total] 0 1)
           (Py.mean [inject_Z frame_total]) (Py.std [inject_Z frame_total])).
  - rewrite lookup_singleton_eq. reflexivity.
  - reflexivity.
  - rewrite mean_singleton. exact Hpos.
  - reflexivity.
  - exact Hstd.
Qed.

Lemma rateless_clip_facts :
  let v := {| declared_fps := 0; total_frame_count := 1; width := 2; height := 2;
              frames := Reference.single_frame; pos_msec := [0] |} in
  declared_fps v <= 0 /\ frames v <> [] /\
  Fps.analyze_fps_dynamics (H := Reference.backend) v
  = inr (Fps.per_second_fps v,
         {[ "overall_stats"%string := Fps.overall_stats (H := Reference.backend) v ]}).
Proof. split; [discriminate | split; [discriminate | reflexivity]]. Qed.

(** The theorem at a one-frame clip that declares the rate 0. *)
Lemma nonpositive_rate_single_bucket_witness :
  let v := {| declared_fps := 0; total_frame_count := 1; width := 2; height := 2;
              frames := Reference.single_frame; pos_msec := [0] |} in
  (forall x, x == 0 -> Reference.floor_sqrt x == 0) /\
  declared_fps v <= 0 /\ frames v <> [] /\
  exists table fps_result,
    Fps.analyze_fps_dynamics (H := Reference.backend) v = inr (table, fps_result) /\
    Aggregator.fps_stability_of fps_result == 25.
Proof.
  intros v. destruct rateless_clip_facts as (Hrate & Hne & Hret).
  split; [exact floor_sqrt_zero | split; [exact Hrate | split; [exact Hne |]]].
  eexists _, _. split; [exact Hret |].
  destruct (nonpositive_rate_single_bucket (H := Reference.backend) v _ _
              floor_sqrt_zero Hrate Hne Hret)
    as (b & s & m & d & _ & _ & _ & _ & _ & _ & _ & _ & _ & Hscore).
  exact Hscore.
Defined.

Section IntegerRate.

Context `{Backend}.

Import Fps.

(** [int] of a number that is not negative is its floor. *)
Lemma int_nonneg (x : Q) : 0 <= x -> Py.int x = Qfloor x.
Proof.
  destruct x as [n d]. unfold Qle, Py.int. simpl. intros Hn.
  apply Z.quot_div_nonneg; lia.
Qed.

Lemma floor_of_quotient (n f : Z) :
  (0 < f)%Z -> Qfloor (inject_Z n / inject_Z f) = (n / f)%Z.
Proof.
  intros Hf. destruct f as [| p | p]; try lia.
  unfold Qdiv, Qinv, inject_Z. simpl.
  rewrite Z.mul_1_r. reflexivity.
Qed.

(** With the integer rate [f], frame [n] falls into second [n / f]. *)
Lemma second_of_frame (declared : Q) (f n : Z) :
  declared == inject_Z f -> (0 < f)%Z -> (0 <= n)%Z ->
  Py.int (timestamp_of declared n) = (n / f)%Z.
Proof.
  intros Hrate Hf Hn. unfold timestamp_of.
  assert (Hpos : 0 < declared).
  { rewrite Hrate. change 0 with (inject_Z 0). rewrite <- Zlt_Qlt. exact Hf. }
  rewrite (proj2 (gtb_spec declared 0) Hpos).
  rewrite int_nonneg.
  - rewrite <- (floor_of_quotient n f Hf). apply Qfloor_comp.
    rewrite Hrate. reflexivity.
  - apply div_nonneg; [| lra].
    change 0 with (inject_Z 0). rewrite <- Zle_Qle. exact Hn.
Qed.

Lemma read_integer_rate (declared : Q) (f : Z) (fs : list gray) :
  declared == inject_Z f -> (0 < f)%Z ->
  let st := fold_left (read_frame declared) fs reader_init in
  frame_number st = Z.of_nat (length fs) /\
  forall s, frames_per_second st !! s = count_after f (Z.of_nat (length fs)) s.
Proof.
  intros Hrate Hf. induction fs as [| frame fs IH] using rev_ind.
  - cbn. split; [reflexivity |]. intros s. unfold count_after.
    rewrite lookup_empty. destruct (decide _) as [[H0 H1] | _]; [nia | reflexivity].
  - cbv zeta in *. rewrite fold_left_app. cbn [fold_left].
    destruct IH as [IHn IHm].
    set (st := fold_left (read_frame declared) fs reader_init) in *.
    rewrite length_app. cbn [length].
    set (n := Z.of_nat (length fs)) in *.
    replace (Z.of_nat (length fs + 1)) with (n + 1)%Z by (subst n; lia).
    assert (Hn : (0 <= n)%Z) by (subst n; lia).
    unfold read_frame. cbn [frames_per_second frame_number].
    rewrite IHn, (second_of_frame declared f n Hrate Hf Hn).
    split; [reflexivity |]. intros s.
    pose proof (Z.mul_div_le n f Hf) as Hlo.
    pose proof (Z.mul_succ_div_gt n f Hf) as Hhi.
    set (sec := (n / f)%Z) in *.
    assert (Hsec : (0 <= sec)%Z) by (subst sec; apply Z.div_pos; lia).
    rewrite lookup_insert. destruct (decide (sec = s)) as [<- | Hne].
    + rewrite IHm. unfold count_after.
      rewrite (decide_True (P := (0 <= sec /\ sec * f < n + 1)%Z)) by lia.
      destruct (decide (0 <= sec /\ sec * f < n)%Z) as [_ | Hnot];
        cbn [default from_option]; unfold id; f_equal; lia.
    + rewrite IHm. unfold count_after.
      destruct (decide (0 <= s /\ s * f < n)%Z) as [[H0 H1] | Hnot].
      * rewrite (decide_True (P := (0 <= s /\ s * f < n + 1)%Z)) by lia.
        f_equal. assert (s < sec)%Z by nia. nia.
      * rewrite (decide_False (P := (0 <= s /\ s * f < n + 1)%Z)); [reflexivity |].
        intros [H0 H1]. apply Hnot. split; [exact H0 |].
        assert (s * f <> n)%Z; [| lia].
        intros Heq. apply Hne. subst sec. rewrite <- Heq.
        apply Z.div_mul. lia.
Qed.

End IntegerRate.

Section IntegerRateTable.

Context `{Backend}.

Import Fps.

(** The rates [fps_values] collects are those of the kept buckets. *)
Lemma fps_values_elem (keep : second_fps -> bool) (m : gmap Z second_fps) (x : Q) :
  x ∈ fps_values keep m <->
  exists k d, m !! k = Some d /\ keep d = true /\ x = fps d.
Proof.
  unfold fps_values. rewrite list_elem_of_fmap. split.
  - intros (d & -> & Hd). apply list_elem_of_filter in Hd as [Hkeep Hd].
    apply list_elem_of_omap in Hd as (k & _ & Hk). eauto.
  - intros (k & d & Hk & Hkeep & ->). exists d. split; [reflexivity |].
    apply list_elem_of_filter. split; [exact Hkeep |].
    apply list_elem_of_omap. exists k. split; [| exact Hk].
    apply all_seconds_elem. eauto.
Qed.

Section Table.

Variables (v : video) (f : Z).
Hypothesis Hrate : declared_fps v == inject_Z f.
Hypothesis Hf : (0 < f)%Z.

Local Abbreviation frame_total := (Z.of_nat (length (frames v))).

Lemma integer_rate_counts (s : Z) :
  frames_per_second (read_all v) !! s = count_after f frame_total s.
Proof. apply (read_integer_rate (declared_fps v) f (frames v) Hrate Hf). Qed.

Lemma integer_rate_is_Some (s : Z) :
  is_Some (per_second_fps v !! s) <-> (0 <= s /\ s * f < frame_total)%Z.
Proof.
  rewrite per_second_is_Some, integer_rate_counts. unfold count_after.
  destruct (decide _) as [Hs | Hs]; split; intros Hx;
    [exact Hs | eauto | destruct Hx as [? ?]; discriminate | contradiction].
Qed.

Lemma integer_rate_final (s : Z) :
  (0 <= s /\ s * f < frame_total)%Z ->
  final_bucket (per_second_fps v) s <-> (frame_total <= (s + 1) * f)%Z.
Proof.
  intros Hs. unfold final_bucket. split.
  - intros [_ Hmax].
    destruct (Z.le_gt_cases frame_total ((s + 1) * f)) as [Hle | Hgt]; [exact Hle |].
    assert (Hnext : is_Some (per_second_fps v !! (s + 1)%Z))
      by (apply integer_rate_is_Some; lia).
    apply Hmax in Hnext. lia.
  - intros Hle. split; [apply integer_rate_is_Some, Hs |].
    intros k Hk. apply integer_rate_is_Some in Hk. nia.
Qed.

Lemma integer_rate_bucket (s : Z) (bucket : second_fps) :
  per_second_fps v !! s = Some bucket ->
  frame_count bucket = Z.min f (frame_total - s * f) /\
  (is_complete_second bucket = true <-> ((s + 1) * f < frame_total)%Z) /\
  (is_complete_second bucket = true ->
   frame_count bucket = f /\ fps bucket = inject_Z f).
Proof.
  intros Hb.
  assert (Hs : (0 <= s /\ s * f < frame_total)%Z)
    by (apply integer_rate_is_Some; eauto).
  pose proof (incomplete_iff_final v s bucket Hb) as Hflag.
  rewrite (integer_rate_final s Hs) in Hflag.
  assert (Hcomplete : is_complete_second bucket = true
                      <-> ((s + 1) * f < frame_total)%Z).
  { destruct (is_complete_second bucket); split; intros Hx;
      [| reflexivity | discriminate |].
    - destruct (Z.le_gt_cases frame_total ((s + 1) * f)) as [Hle | Hgt]; [| lia].
      apply Hflag in Hle. discriminate.
    - assert (frame_total <= (s + 1) * f)%Z by (apply Hflag; reflexivity). lia. }
  rewrite per_second_lookup, integer_rate_counts in Hb. unfold count_after in Hb.
  rewrite (decide_True _ _ Hs) in Hb. injection Hb as <-.
  cbn [per_second_entry frame_count]. unfold per_second_entry. cbn [frame_count].
  split; [reflexivity |]. split; [exact Hcomplete |].
  intros Hc. pose proof (proj1 Hcomplete Hc) as Hlt.
  unfold per_second_entry in Hc. cbn [is_complete_second] in Hc.
  cbn [fps]. rewrite Hc. split; [lia | f_equal; lia].
Qed.

End Table.

End IntegerRateTable.

(** X7.  A video with an integer declared rate [f > 0] and [N] frames: the
    table that [analyze_fps_dynamics] returns has exactly the buckets
    [0 .. ceil(N / f) - 1]; bucket [s] holds [min(f, N - s * f)] frames; a
    bucket is flagged complete exactly when a later frame exists; and
    every complete bucket holds [f] frames and reports the rate [f],
    whatever the timing of the frames. *)
Theorem integer_rate_buckets `{Backend} (v : video) (f : Z)
    (table : gmap Z Fps.second_fps) (fps_result : result_dict) :
  declared_fps v == inject_Z f -> (0 < f)%Z ->
  Fps.analyze_fps_dynamics v = inr (table, fps_result) ->
  let frame_total := Z.of_nat (length (frames v)) in
  (forall s, is_Some (table !! s) <-> (0 <= s /\ s * f < frame_total)%Z) /\
  (forall s bucket, table !! s = Some bucket ->
     Fps.frame_count bucket = Z.min f (frame_total - s * f) /\
     (Fps.is_complete_second bucket = true <-> ((s + 1) * f < frame_total)%Z) /\
     (Fps.is_complete_second bucket = true ->
      Fps.frame_count bucket = f /\ Fps.fps bucket = inject_Z f)).
Proof.
  intros Hrate Hf Hret frame_total.
  apply analyze_fps_dynamics_inr in Hret as [-> _].
  split.
  - intros s. apply integer_rate_is_Some; assumption.
  - intros s bucket. apply integer_rate_bucket; assumption.
Qed.

Lemma two_second_clip_rate :
  declared_fps Reference.two_second_clip == inject_Z 2 /\ (0 < 2)%Z.
Proof. split; reflexivity. Qed.

(** The theorem at the four-frame clip with the rate 2. *)
Lemma integer_rate_buckets_witness :
  declared_fps Reference.two_second_clip == inject_Z 2 /\ (0 < 2)%Z /\
  exists table fps_result,
    Fps.analyze_fps_dynamics (H := Reference.backend) Reference.two_second_clip
    = inr (table, fps_result) /\
    forall s, is_Some (table !! s) <-> (0 <= s /\ s * 2 < 4)%Z.
Proof.
  destruct two_second_clip_rate as [Hrate Hf].
  split; [exact Hrate | split; [exact Hf |]].
  eexists _, _. split; [exact two_second_clip_returns |].
  exact (proj1 (integer_rate_buckets (H := Reference.backend)
                  Reference.two_second_clip 2 _ _ Hrate Hf two_second_clip_returns)).
Defined.

(** X8.  A video with an integer declared rate [f > 0] and more than [f]
    frames: the overall statistics of [analyze_fps_dynamics] report the
    mean rate [f] without deviation, and the aggregator grants the full
    stability sub-score 25, whatever the frames and their timing.  The
    square root of the backend maps zero to zero. *)
Theorem integer_rate_is_steady `{Backend} (v : video) (f : Z)
    (table : gmap Z Fps.second_fps) (fps_result : result_dict) :
  (forall x, x == 0 -> sqrt x == 0) ->
  declared_fps v == inject_Z f -> (0 < f)%Z ->
  (f < Z.of_nat (length (frames v)))%Z ->
  Fps.analyze_fps_dynamics v = inr (table, fps_result) ->
  exists stats mean_fps std_fps,
    fps_result !! "overall_stats"%string = Some stats /\
    stats !! "mean_fps"%string = Some mean_fps /\ mean_fps == inject_Z f /\
    stats !! "std_fps"%string = Some std_fps /\ std_fps == 0 /\
    Aggregator.fps_stability_of fps_result == 25.
Proof.
  intros Hsqrt Hrate Hf Hlong Hret.
  apply analyze_fps_dynamics_inr in Hret as [-> ->].
  assert (Hall : Forall (fun x => x == inject_Z f)
                   (Fps.fps_values Fps.is_complete_second (Fps.per_second_fps v))).
  { apply Forall_forall. intros x Hx.
    apply fps_values_elem in Hx as (k & d & Hk & Hkeep & ->).
    destruct (integer_rate_bucket v f Hrate Hf k d Hk) as (_ & _ & Hfull).
    rewrite (proj2 (Hfull Hkeep)). reflexivity. }
  assert (Hsome : Fps.fps_values Fps.is_complete_second (Fps.per_second_fps v) <> []).
  { assert (H0 : is_Some (Fps.per_second_fps v !! 0%Z))
      by (apply (integer_rate_is_Some v f Hrate Hf); lia).
    destruct H0 as [d Hd].
    destruct (integer_rate_bucket v f Hrate Hf 0 d Hd) as (_ & Hcomplete & _).
    intros Hnil.
    assert (Hin : Fps.fps d ∈ Fps.fps_values Fps.is_complete_second
                                 (Fps.per_second_fps v)).
    { apply fps_values_elem. exists 0%Z, d.
      split; [exact Hd | split; [apply Hcomplete; lia | reflexivity]]. }
    rewrite Hnil in Hin. inversion Hin. }
  assert (Hpos : 0 < inject_Z f)
    by (change 0 with (inject_Z 0); rewrite <- Zlt_Qlt; exact Hf).
  unfold Fps.overall_stats.
  destruct (Fps.fps_values Fps.is_complete_second (Fps.per_second_fps v))
    as [| x xs] eqn:Hvalues; [congruence |].
  set (values := x :: xs) in *.
  assert (Hmean : Py.mean values == inject_Z f)
    by (apply mean_all; [discriminate | exact Hall]).
  assert (Hstd : Py.std values == 0)
    by (apply Hsqrt, (var_all values (inject_Z f)), Hall).
  eexists _, (Py.mean values), (Py.std values).
  split; [apply lookup_singleton_eq |]. split; [reflexivity |].
  split; [exact Hmean |]. split; [reflexivity |]. split; [exact Hstd |].
  eapply steady_stats_score;
    [apply lookup_singleton_eq | reflexivity | rewrite Hmean; exact Hpos
     | reflexivity | exact Hstd].
Qed.

Lemma two_second_clip_is_long :
  (2 < Z.of_nat (length (frames Reference.two_second_clip)))%Z.
Proof. reflexivity. Qed.

(** The theorem at the four-frame clip with the rate 2. *)
Lemma integer_rate_is_steady_witness :
  (forall x, x == 0 -> Reference.floor_sqrt x == 0) /\
  declared_fps Reference.two_second_clip == inject_Z 2 /\ (0 < 2)%Z /\
  (2 < Z.of_nat (length (frames Reference.two_second_clip)))%Z /\
  exists table fps_result,
    Fps.analyze_fps_dynamics (H := Reference.backend) Reference.two_second_clip
    = inr (table, fps_result) /\
    Aggregator.fps_stability_of fps_result == 25.
Proof.
  destruct two_second_clip_rate as [Hrate Hf].
  split; [exact floor_sqrt_zero |].
  split; [exact Hrate | split; [exact Hf | split; [exact two_second_clip_is_long |]]].
  eexists _, _. split; [exact two_second_clip_returns |].
  destruct (integer_rate_is_steady (H := Reference.backend)
              Reference.two_second_clip 2 _ _ floor_sqrt_zero Hrate Hf
              two_second_clip_is_long two_second_clip_returns)
    as (stats & m & s & _ & _ & _ & _ & _ & Hscore).
  exact Hscore.
Defined.

(** ** Counts of the duplicate and motion analyzers *)

Section DuplicateCounts.

Context `{Backend}.

Import Duplicates.

Lemma detect_fold (diff_threshold ssim_threshold : Q) (l : list (Z * gray)) :
  detected l
    (fold_left (fun st p => detect_frame diff_threshold ssim_threshold
                              (fst p) (snd p) st) l detector_init).
Proof.
  induction l as [| [n f] l IH] using rev_ind.
  - unfold detected. cbn. repeat split; try lia; try constructor.
  - rewrite fold_left_app. cbn [fold_left fst snd].
    set (st := fold_left _ l detector_init) in *.
    destruct IH as (Hcount & Hprev & Hdup & Hnear & Hsum & Hlen & Hidx).
    unfold detected, detect_frame.
    cbn [analyzed_count prev_frame duplicate_count near_duplicate_count
         duplicate_frames].
    rewrite length_app. cbn [length].
    assert (Hweaken : forall i, i ∈ map fst (tail l)
                                -> i ∈ map fst (tail (l ++ [(n, f)]))).
    { intros i Hi. destruct l as [| p l']; [inversion Hi |].
      cbn [app tail] in *. rewrite map_app. apply elem_of_app. left. exact Hi. }
    destruct (prev_frame st) as [prev |] eqn:Hp.
    + assert (Hne : l <> []) by (intros Hl; apply Hprev in Hl; discriminate).
      assert (Hpos : (1 <= Z.of_nat (length l))%Z)
        by (destruct l; [congruence | simpl; lia]).
      assert (Hnew : n ∈ map fst (tail (l ++ [(n, f)]))).
      { destruct l as [| p l']; [congruence |]. cbn [app tail].
        rewrite map_app. apply elem_of_app. right. cbn. left. }
      destruct (classify_frame _ _ _ _);
        (split; [lia |]); (split; [split; [discriminate | intros Hl; destruct l; discriminate] |]);
        (split; [lia |]); (split; [lia |]); (split; [lia |]);
        rewrite ?length_app; cbn [length];
        (split; [lia |]);
        rewrite ?Forall_app; repeat split;
        try (eapply Forall_impl; [exact Hidx | exact Hweaken]);
        repeat constructor; exact Hnew.
    + assert (Hl : l = []) by (apply Hprev; reflexivity). subst l.
      cbn in *. repeat split; try lia; try discriminate.
      eapply Forall_impl; [exact Hidx |]. intros i Hi. inversion Hi.
Qed.

Lemma detect_all_detected (fs : list gray) (sample_rate : Z)
    (diff_threshold ssim_threshold : Q) :
  detected (sampled sample_rate fs)
    (detect_all fs sample_rate diff_threshold ssim_threshold).
Proof.
  unfold detect_all. rewrite strided_loop_sampled. apply detect_fold.
Qed.

Lemma ratio_of_sum (a b total_frames : Z) :
  ratio_of (a + b) total_frames == ratio_of a total_frames + ratio_of b total_frames.
Proof.
  unfold ratio_of. destruct (Z.ltb_spec 0 total_frames) as [Hpos | _]; [| reflexivity].
  rewrite inject_Z_plus. field.
  change 0 with (inject_Z 0). rewrite inject_Z_injective. lia.
Qed.

Lemma ratio_of_below_one (count total_frames : Z) :
  (count <= Z.max 0 (total_frames - 1))%Z -> ratio_of count total_frames < 1.
Proof.
  intros Hle. unfold ratio_of.
  destruct (Z.ltb_spec 0 total_frames) as [Hpos | _]; [| reflexivity].
  apply Qlt_shift_div_r.
  - change 0 with (inject_Z 0). rewrite <- Zlt_Qlt. exact Hpos.
  - rewrite Qmult_1_l, <- Zlt_Qlt. lia.
Qed.

End DuplicateCounts.

(** X9.  Whatever [_analyze_duplicate_frames] returns: the analysed count
    is the number of sampled frames; the two counters are not negative
    and together at most that number minus one, the first sampled frame
    never being a duplicate; the total ratio is the sum of the two ratios
    and lies in [0, 1); and the index list holds [min(100, duplicates)]
    indices, each that of a sampled frame after the first. *)
Theorem duplicate_counts_bounded `{Backend} (fs : list gray) (sample_rate : Z)
    (diff_threshold ssim_threshold : Q) (result : gmap string Q)
    (indices : list Z) :
    Duplicates._analyze_duplicate_frames fs sample_rate
      diff_threshold ssim_threshold = inr (result, indices) ->
    exists (duplicates near analysed : Z) (r_dup r_near r_total : Q),
      result !! "duplicate_frame_count"%string = Some (inject_Z duplicates) /\
      result !! "near_duplicate_frame_count"%string = Some (inject_Z near) /\
      result !! "analyzed_frame_count"%string = Some (inject_Z analysed) /\
      result !! "duplicate_ratio"%string = Some r_dup /\
      result !! "near_duplicate_ratio"%string = Some r_near /\
      result !! "total_duplicate_ratio"%string = Some r_total /\
      analysed = Z.of_nat (length (sampled_frames sample_rate fs)) /\
      (0 <= duplicates)%Z /\ (0 <= near)%Z /\
      (duplicates + near <= Z.max 0 (analysed - 1))%Z /\
      r_total == r_dup + r_near /\ 0 <= r_total < 1 /\
      length indices = Z.to_nat (Z.min 100 duplicates) /\
      Forall (fun i => i ∈ map fst (tail (sampled sample_rate fs))) indices.
Proof.
  intros Hret.
  unfold Duplicates._analyze_duplicate_frames in Hret.
  apply raise_if_inr in Hret as [_ [= <- <-]].
  destruct (detect_all_detected fs sample_rate diff_threshold ssim_threshold)
    as (Hcount & _ & Hdup & Hnear & Hsum & Hlen & Hidx).
  set (st := Duplicates.detect_all fs sample_rate diff_threshold ssim_threshold) in *.
  exists (Duplicates.duplicate_count st), (Duplicates.near_duplicate_count st),
    (Duplicates.analyzed_count st),
    (Duplicates.ratio_of (Duplicates.duplicate_count st) (Duplicates.analyzed_count st)),
    (Duplicates.ratio_of (Duplicates.near_duplicate_count st) (Duplicates.analyzed_count st)),
    (Duplicates.ratio_of (Duplicates.duplicate_count st + Duplicates.near_duplicate_count st)
       (Duplicates.analyzed_count st)).
  repeat (split; [reflexivity |]).
  unfold sampled_frames. rewrite length_map.
  split; [exact Hcount |]. split; [exact Hdup |]. split; [exact Hnear |].
  split; [rewrite Hcount; exact Hsum |].
  split; [apply ratio_of_sum |].
  split; [split; [apply ratio_of_nonneg; lia
                 | apply ratio_of_below_one; rewrite Hcount; exact Hsum] |].
  split; [rewrite length_take; lia | apply Forall_take, Hidx].
Qed.

Lemma tiny_clip_duplicates :
  exists result indices,
    Duplicates._analyze_duplicate_frames (H := Reference.backend)
      (frames Reference.tiny_clip) 1 (999 # 1000) (95 # 100)
    = inr (result, indices).
Proof.
  exists (Duplicates.duplicate_dict
            (Duplicates.detect_all (H := Reference.backend)
               (frames Reference.tiny_clip) 1 (999 # 1000) (95 # 100))),
    (take 100 (Duplicates.duplicate_frames
                 (Duplicates.detect_all (H := Reference.backend)
                    (frames Reference.tiny_clip) 1 (999 # 1000) (95 # 100)))).
  unfold Duplicates._analyze_duplicate_frames.
  apply raise_if_inr. split; reflexivity.
Qed.

(** The theorem at the two-frame clip, every frame sampled. *)
Lemma duplicate_counts_bounded_witness :
  exists result indices,
    Duplicates._analyze_duplicate_frames (H := Reference.backend)
      (frames Reference.tiny_clip) 1 (999 # 1000) (95 # 100)
    = inr (result, indices) /\
    result !! "analyzed_frame_count"%string = Some 2 /\
    (length indices <= 1)%nat.
Proof.
  destruct tiny_clip_duplicates as (result & indices & Hret).
  exists result, indices. split; [exact Hret |].
  destruct (duplicate_counts_bounded (H := Reference.backend)
              (frames Reference.tiny_clip) 1 (999 # 1000) (95 # 100)
              result indices Hret)
    as (duplicates & near & analysed & r_dup & r_near & r_total
        & _ & _ & Hanalysed & _ & _ & _ & Hcount & Hdup & Hnear & Hsum & _ & _
        & Hlen & _).
  split.
  - rewrite Hanalysed, Hcount. reflexivity.
  - rewrite Hlen. rewrite Hcount in Hsum.
    change (Z.of_nat (length (sampled_frames 1 (frames Reference.tiny_clip))))
      with 2%Z in Hsum.
    lia.
Defined.

Section ScoreBounds.

Import Dynamics Duplicates.

Lemma mean_le (xs : list Q) (c : Q) :
  xs <> [] -> Forall (fun x => x <= c) xs -> Py.mean xs <= c.
Proof.
  intros Hne Hxs. unfold Py.mean.
  pose proof (len_pos xs Hne) as Hlen.
  apply Qle_shift_div_r; [exact Hlen |].
  clear Hne Hlen. induction Hxs as [| x xs Hx _ IH].
  - rewrite sum_nil. unfold Py.len. cbn [length].
    change (inject_Z (Z.of_nat 0)) with 0. lra.
  - rewrite sum_cons. unfold Py.len in *. cbn [length].
    rewrite Nat2Z.inj_succ, <- Z.add_1_r, inject_Z_plus.
    change (inject_Z 1) with 1. nra.
Qed.

(** The pixels of [absdiff] are built from pairs of pixels. *)
Lemma absdiff_pixels (P : Z -> Prop) (a b : gray) :
  (forall x y, x ∈ concat a -> y ∈ concat b -> P (Z.abs (x - y))) ->
  Forall P (concat (absdiff a b)).
Proof.
  unfold absdiff. revert b. induction a as [| r a IH]; intros b Hxy;
    destruct b as [| r' b]; cbn [zip_with concat]; try constructor.
  apply Forall_app. split.
  - assert (Hrow : forall x y, x ∈ r -> y ∈ r' -> P (Z.abs (x - y))).
    { intros x y Hx Hy. apply Hxy; cbn [concat]; apply elem_of_app; left; assumption. }
    clear Hxy IH. revert r' Hrow.
    induction r as [| x r IHr]; intros [| y r'] Hrow; cbn [zip_with];
      constructor.
    + apply Hrow; left.
    + apply IHr. intros x' y' Hx' Hy'. apply Hrow; right; assumption.
  - apply IH. intros x y Hx Hy.
    apply Hxy; cbn [concat]; apply elem_of_app; right; assumption.
Qed.

Lemma same_shape_pixels (a b : gray) :
  same_shape a b ->
  length (pixels a) = length (pixels b) /\
  length (pixels (absdiff a b)) = length (pixels a).
Proof.
  unfold same_shape, pixels, absdiff. rewrite !length_map.
  revert b. induction a as [| r a IH]; intros [| r' b] Hshape; try discriminate.
  - split; reflexivity.
  - cbn [map] in Hshape. injection Hshape as Hr Hrest.
    destruct (IH b Hrest) as [IH1 IH2].
    cbn [zip_with concat]. rewrite !length_app, length_zip_with, IH1, IH2, Hr.
    split; lia.
Qed.

(** Twice the cross terms are at most, and at least minus, the squares. *)
Lemma cross_terms (f g : Q -> Q) (xs ys : list Q) :
  let cross := Py.sum (zip_with (fun a b => f a * g b) xs ys) in
  let squares := Py.sum (map (fun a => f a * f a) xs)
                 + Py.sum (map (fun b => g b * g b) ys) in
  length xs = length ys -> - squares <= 2 * cross <= squares.
Proof.
  cbv zeta. revert ys. induction xs as [| a xs IH]; intros [| b ys] Hlen;
    try discriminate.
  - cbn. rewrite !sum_nil. lra.
  - cbn [zip_with map]. rewrite !sum_cons.
    injection Hlen as Hlen. specialize (IH ys Hlen).
    pose proof (square_nonneg (f a - g b)) as Hminus.
    pose proof (square_nonneg (f a + g b)) as Hplus.
    nra.
Qed.

Lemma len_eq {A B} (xs : list A) (ys : list B) :
  length xs = length ys -> Py.len xs = Py.len ys.
Proof. intros Hlen. unfold Py.len. rewrite Hlen. reflexivity. Qed.

(** The covariance of two arrays of one length is bounded by their
    variances. *)
Lemma covariance_bound (xs ys : list Q) :
  let sigma12 :=
    Py.mean (zip_with (fun a b => (a - Py.mean xs) * (b - Py.mean ys)) xs ys) in
  xs <> [] -> length xs = length ys ->
  - (Py.var xs + Py.var ys) <= 2 * sigma12 <= Py.var xs + Py.var ys.
Proof.
  intros sigma12 Hne Hlen. subst sigma12. unfold Py.var.
  pose proof (len_pos xs Hne) as Hpos.
  pose proof (cross_terms (fun a => a - Py.mean xs) (fun b => b - Py.mean ys)
                xs ys Hlen) as Hcross.
  cbv zeta beta in Hcross.
  set (c := zip_with _ xs ys) in *.
  set (m1 := map _ xs) in *. set (m2 := map _ ys) in *.
  assert (Hc : Py.len c = Py.len xs)
    by (apply len_eq; subst c; rewrite length_zip_with; lia).
  assert (Hm1 : Py.len m1 = Py.len xs) by (apply len_eq, length_map).
  assert (Hm2 : Py.len m2 = Py.len xs)
    by (apply len_eq; subst m2; rewrite length_map; lia).
  unfold Py.mean. rewrite Hc, Hm1, Hm2.
  assert (Hinv : 0 < / Py.len xs) by (apply Qinv_lt_0_compat, Hpos).
  unfold Qdiv. split; nra.
Qed.

Lemma pixels_nonneg (g : gray) :
  eight_bit g -> Forall (fun x => 0 <= x) (pixels g).
Proof.
  unfold eight_bit, pixels. intros Hg. apply Forall_map.
  eapply Forall_impl; [exact Hg |]. intros x Hx. cbv beta in *.
  change 0 with (inject_Z 0). rewrite <- Zle_Qle. lia.
Qed.

End ScoreBounds.

(** X10.  For two 8-bit grids of one shape with at least one pixel, the
    two scores of the duplicate test are bounded: [diff_percentage] lies
    in [0, 1], and the simplified SSIM is above -1 and at most 1. *)
Theorem duplicate_scores_bounded (small prev_small : gray) :
  same_shape small prev_small -> eight_bit small -> eight_bit prev_small ->
  concat small <> [] ->
  0 <= Duplicates.diff_percentage_of small prev_small <= 1 /\
  - (1) < Duplicates._calculate_simple_ssim small prev_small <= 1.
Proof.
  intros Hshape Hsmall Hprev Hne.
  destruct (same_shape_pixels small prev_small Hshape) as [Hlen Hdlen].
  assert (Hpix : Dynamics.pixels small <> []).
  { unfold Dynamics.pixels. destruct (concat small); [congruence | discriminate]. }
  split.
  - unfold Duplicates.diff_percentage_of.
    assert (Hd : Forall (fun q => 0 <= q <= 255)
                   (Dynamics.pixels (Dynamics.absdiff small prev_small))).
    { unfold Dynamics.pixels. apply Forall_map.
      apply (absdiff_pixels (fun z => 0 <= inject_Z z <= 255)).
      intros x y Hx Hy. unfold eight_bit in *.
      rewrite Forall_forall in Hsmall, Hprev.
      pose proof (Hsmall x Hx). pose proof (Hprev y Hy).
      change 0 with (inject_Z 0). change 255 with (inject_Z 255).
      rewrite <- !Zle_Qle. lia. }
    assert (Hdne : Dynamics.pixels (Dynamics.absdiff small prev_small) <> []).
    { intros Hnil. rewrite Hnil in Hdlen. destruct (Dynamics.pixels small);
        [congruence | discriminate]. }
    pose proof (mean_nonneg _ (Forall_impl _ _ _ Hd (fun q Hq => proj1 Hq))) as Hlo.
    pose proof (mean_le _ 255 Hdne (Forall_impl _ _ _ Hd (fun q Hq => proj2 Hq))) as Hhi.
    split; qlra.
  - unfold Duplicates._calculate_simple_ssim.
    pose proof (mean_nonneg _ (pixels_nonneg small Hsmall)) as Hmu1.
    pose proof (mean_nonneg _ (pixels_nonneg prev_small Hprev)) as Hmu2.
    pose proof (var_nonneg (Dynamics.pixels small)) as Hv1.
    pose proof (var_nonneg (Dynamics.pixels prev_small)) as Hv2.
    pose proof (covariance_bound (Dynamics.pixels small) (Dynamics.pixels prev_small)
                  Hpix Hlen) as Hcov.
    cbv zeta in Hcov.
    set (mu1 := Py.mean (Dynamics.pixels small)) in *.
    set (mu2 := Py.mean (Dynamics.pixels prev_small)) in *.
    set (v1 := Py.var (Dynamics.pixels small)) in *.
    set (v2 := Py.var (Dynamics.pixels prev_small)) in *.
    set (s12 := Py.mean (zip_with _ _ _)) in *.
    pose proof (square_nonneg (mu1 - mu2)) as Hsq.
    pose proof (Qmult_le_0_compat _ _ Hmu1 Hmu2) as Hprod.
    set (a := 2 * mu1 * mu2 + (1 # 100) * (1 # 100)).
    set (a' := mu1 * mu1 + mu2 * mu2 + (1 # 100) * (1 # 100)).
    set (b := 2 * s12 + (3 # 100) * (3 # 100)).
    set (b' := v1 + v2 + (3 # 100) * (3 # 100)).
    assert (Ha : 0 < a) by (subst a; nra).
    assert (Haa : a <= a') by (subst a a'; nra).
    assert (Hb' : 0 < b') by (subst b'; lra).
    assert (Hbb : - b' < b <= b') by (subst b b'; lra).
    assert (Hden : 0 < a' * b') by (apply Qmult_lt_0_compat; lra).
    split.
    + apply Qlt_shift_div_l; [exact Hden |].
      assert (- (a * b') < a * b) by nra.
      assert (a * b' <= a' * b') by nra. lra.
    + apply Qle_shift_div_r; [exact Hden |].
      destruct (Qlt_le_dec 0 b) as [Hpos | Hneg].
      * assert (a * b <= a' * b) by nra.
        assert (a' * b <= a' * b') by nra. lra.
      * assert (a * b <= 0) by nra. lra.
Qed.

Lemma two_pixel_grids :
  same_shape Reference.grid_up Reference.grid_down /\
  eight_bit Reference.grid_up /\ eight_bit Reference.grid_down /\
  concat Reference.grid_up <> [].
Proof.
  split; [reflexivity |].
  split; [repeat constructor; lia | split; [repeat constructor; lia | discriminate]].
Qed.

(** The theorem at two grids of two pixels. *)
Lemma duplicate_scores_bounded_witness :
  same_shape Reference.grid_up Reference.grid_down /\
  eight_bit Reference.grid_up /\ eight_bit Reference.grid_down /\
  concat Reference.grid_up <> [] /\
  Duplicates._calculate_simple_ssim Reference.grid_up Reference.grid_down <= 1.
Proof.
  destruct two_pixel_grids as (Hshape & Hup & Hdown & Hne).
  split; [exact Hshape | split; [exact Hup | split; [exact Hdown | split; [exact Hne |]]]].
  exact (proj2 (proj2 (duplicate_scores_bounded Reference.grid_up Reference.grid_down
                         Hshape Hup Hdown Hne))).
Defined.

Section Symmetry.

Import Dynamics Duplicates.

Lemma absdiff_comm (a b : gray) : absdiff a b = absdiff b a.
Proof.
  unfold absdiff. revert b. induction a as [| r a IH]; intros [| r' b];
    cbn [zip_with]; try reflexivity.
  f_equal; [| apply IH].
  revert r'. induction r as [| x r IHr]; intros [| y r']; cbn [zip_with];
    try reflexivity.
  f_equal; [lia | apply IHr].
Qed.

Lemma Qmult_comm_eq (x y : Q) : Qmult x y = Qmult y x.
Proof. unfold Qmult. f_equal; [apply Z.mul_comm | apply Pos.mul_comm]. Qed.

Lemma covariance_comm (mu1 mu2 : Q) (xs ys : list Q) :
  zip_with (fun a b => (a - mu1) * (b - mu2)) xs ys
  = zip_with (fun a b => (a - mu2) * (b - mu1)) ys xs.
Proof.
  revert ys. induction xs as [| x xs IH]; intros [| y ys]; cbn [zip_with];
    try reflexivity.
  f_equal; [apply Qmult_comm_eq | apply IH].
Qed.

Lemma classify_comp (diff_threshold ssim_threshold d d' s s' : Q) :
  d == d' -> s == s' ->
  classify diff_threshold ssim_threshold d s
  = classify diff_threshold ssim_threshold d' s'.
Proof.
  intros Hd Hs. unfold classify.
  rewrite !(geb_comp d d' _ Hd), !(geb_comp s s' _ Hs). reflexivity.
Qed.

End Symmetry.

(** X11.  The duplicate test does not depend on which of the two grids
    comes first: [diff_percentage], the simplified SSIM and the class are
    the same for a pair and for the swapped pair. *)
Theorem duplicate_test_symmetric (diff_threshold ssim_threshold : Q)
    (small prev_small : gray) :
  Duplicates.diff_percentage_of small prev_small
  == Duplicates.diff_percentage_of prev_small small /\
  Duplicates._calculate_simple_ssim small prev_small
  == Duplicates._calculate_simple_ssim prev_small small /\
  Duplicates.classify_grids diff_threshold ssim_threshold small prev_small
  = Duplicates.classify_grids diff_threshold ssim_threshold prev_small small.
Proof.
  assert (Hd : Duplicates.diff_percentage_of small prev_small
               == Duplicates.diff_percentage_of prev_small small).
  { unfold Duplicates.diff_percentage_of. rewrite absdiff_comm. reflexivity. }
  assert (Hs : Duplicates._calculate_simple_ssim small prev_small
               == Duplicates._calculate_simple_ssim prev_small small).
  { unfold Duplicates._calculate_simple_ssim.
    rewrite (covariance_comm _ _ (Dynamics.pixels small) (Dynamics.pixels prev_small)).
    set (mu1 := Py.mean (Dynamics.pixels small)).
    set (mu2 := Py.mean (Dynamics.pixels prev_small)).
    set (v1 := Py.var (Dynamics.pixels small)).
    set (v2 := Py.var (Dynamics.pixels prev_small)).
    set (s12 := Py.mean (zip_with _ _ _)).
    assert (Hnum : (2 * mu1 * mu2 + (1 # 100) * (1 # 100))
                   == (2 * mu2 * mu1 + (1 # 100) * (1 # 100))) by ring.
    assert (Hden : (mu1 * mu1 + mu2 * mu2 + (1 # 100) * (1 # 100))
                   * (v1 + v2 + (3 # 100) * (3 # 100))
                   == (mu2 * mu2 + mu1 * mu1 + (1 # 100) * (1 # 100))
                      * (v2 + v1 + (3 # 100) * (3 # 100))) by ring.
    rewrite Hnum, Hden. reflexivity. }
  split; [exact Hd | split; [exact Hs |]].
  unfold Duplicates.classify_grids. apply classify_comp; assumption.
Qed.

Section MotionCounts.

Context `{Backend}.

Import Motion.

(** A jerk needs three magnitudes. *)
Lemma jerk_of_is_Some (ms : list Q) :
  is_Some (jerk_of ms) <-> (3 <= length ms)%nat.
Proof.
  unfold jerk_of. rewrite <- (length_rev ms).
  destruct (rev ms) as [| m1 [| m2 [| m3 l]]]; cbn [length]; split;
    intros Hx; try lia; try (destruct Hx; discriminate); eauto.
Qed.

(** One magnitude per sampled frame after the first, one jerk per sampled
    frame after the third. *)
Lemma track_fold (l : list (Z * gray)) :
  let st := fold_left (fun st p => track_frame (fst p) (snd p) st) l tracker_init in
  length (motion_magnitudes st) = (length l - 1)%nat /\
  length (jerk_values st) = (length l - 3)%nat /\
  (prev_gray st = None <-> l = []).
Proof.
  induction l as [| [n f] l IH] using rev_ind.
  - cbn. repeat split; reflexivity.
  - cbv zeta in *. rewrite fold_left_app. cbn [fold_left fst snd].
    set (st := fold_left _ l tracker_init) in *.
    destruct IH as (Hm & Hj & Hprev). rewrite length_app. cbn [length].
    unfold track_frame. destruct (prev_gray st) as [prev |] eqn:Hp.
    + assert (Hne : l <> []) by (intros Hl; apply Hprev in Hl; discriminate).
      assert (Hpos : (1 <= length l)%nat) by (destruct l; [congruence | simpl; lia]).
      cbn [motion_magnitudes jerk_values prev_gray].
      pose proof (jerk_of_is_Some
                    (motion_magnitudes st
                     ++ [mean_magnitude (calcOpticalFlowFarneback prev f)])) as Hjerk.
      rewrite length_app in Hjerk. cbn [length] in Hjerk.
      split; [rewrite length_app; cbn [length]; lia |].
      split; [| split; [discriminate | intros Hl; destruct l; discriminate]].
      destruct (jerk_of _) as [jerk |].
      * assert (3 <= length (motion_magnitudes st) + 1)%nat by (apply Hjerk; eauto).
        rewrite length_app. cbn [length]. lia.
      * assert (~ (3 <= length (motion_magnitudes st) + 1)%nat)
          by (intros Hge; apply Hjerk in Hge; destruct Hge; discriminate).
        lia.
    + assert (Hl : l = []) by (apply Hprev; reflexivity). subst l.
      cbn in *. repeat split; try lia; try discriminate.
Qed.

Lemma track_all_counts (fs : list gray) (sample_rate : Z) :
  let st := track_all fs sample_rate in
  let n := length (sampled_frames sample_rate fs) in
  length (motion_magnitudes st) = (n - 1)%nat /\
  length (jerk_values st) = (n - 3)%nat.
Proof.
  cbv zeta. unfold track_all, sampled_frames.
  rewrite strided_loop_sampled, length_map.
  destruct (track_fold (sampled sample_rate fs)) as (Hm & Hj & _).
  split; assumption.
Qed.

End MotionCounts.

(** X12.  The motion continuity analyzer collects one motion magnitude
    per sampled frame after the first and one jerk per sampled frame
    after the third.  So a clip with two or three sampled frames, whatever
    its content, has the jerkiness score 0 and the continuity score 100,
    and the aggregator grants it the full continuity sub-score 25. *)
Theorem motion_sample_counts `{Backend} (fs : list gray) (sample_rate : Z) :
  let st := Motion.track_all fs sample_rate in
  let n := length (sampled_frames sample_rate fs) in
  length (Motion.motion_magnitudes st) = (n - 1)%nat /\
  length (Motion.jerk_values st) = (n - 3)%nat /\
  (sample_rate <> 0%Z -> (2 <= n <= 3)%nat ->
   exists (result : gmap string Q) (continuity : Q),
     Motion._analyze_motion_continuity fs sample_rate = inr result /\
     result !! "jerkiness_score"%string = Some 0 /\
     result !! "motion_continuity_score"%string = Some continuity /\
     continuity == 100 /\
     forall motion : result_dict,
       motion !! "motion_continuity"%string = Some result ->
       Aggregator.motion_continuity_of motion == 25).
Proof.
  intros st n. destruct (track_all_counts fs sample_rate) as [Hm Hj].
  fold st in Hm, Hj. fold n in Hm, Hj.
  split; [exact Hm | split; [exact Hj |]].
  intros Hrate Hn.
  exists (Motion.continuity_dict (Motion.motion_magnitudes st) (Motion.jerk_values st)),
    (100 - 0).
  split; [apply motion_continuity_returns, zero_stride_false, Hrate |].
  destruct (Motion.motion_magnitudes st) as [| m ms] eqn:Hmags;
    [simpl in Hm; lia |].
  destruct (Motion.jerk_values st) as [| j js] eqn:Hjerks;
    [| simpl in Hj; lia].
  split; [reflexivity | split; [reflexivity | split; [reflexivity |]]].
  intros motion Hmotion. unfold Aggregator.motion_continuity_of.
  rewrite Hmotion. reflexivity.
Qed.

(** ** The frame loop of video_analyser/analyzer.py *)

Section WalkerFacts.

Context `{Backend}.

Import Analyser.

Lemma sorted_snoc (l : list Z) (x : Z) :
  StronglySorted Z.lt l -> Forall (fun y => (y < x)%Z) l ->
  StronglySorted Z.lt (l ++ [x]).
Proof.
  induction 1 as [| y l Hsorted IH Hy]; intros Hlt; cbn [app].
  - repeat constructor.
  - apply Forall_cons_1 in Hlt as [Hyx Hlt]. constructor; [apply IH, Hlt |].
    apply Forall_app. split; [exact Hy | repeat constructor; exact Hyx].
Qed.

Lemma motion_nonneg (prev curr : gray) : 0 <= _calculate_motion prev curr.
Proof.
  unfold _calculate_motion, Dynamics.pixels. apply mean_nonneg, Forall_map.
  apply (absdiff_pixels (fun z => 0 <= inject_Z z)).
  intros x y _ _. change 0 with (inject_Z 0). rewrite <- Zle_Qle. lia.
Qed.

(** A discontinuity needs two motion scores. *)
Lemma is_discontinuity_needs_two (a : VideoAnalyzer) (scores : list Q) (m : Q) :
  is_discontinuity a scores m = true -> (2 <= length scores)%nat.
Proof.
  unfold is_discontinuity. rewrite <- (length_rev scores).
  destruct (rev scores) as [| x [| y l]]; try discriminate. cbn. lia.
Qed.

Lemma walk_fold (a : VideoAnalyzer) (l : list (gray * Q)) :
  walked l (fold_left (walk_frame a) l walker_init).
Proof.
  induction l as [| [f pos] l IH] using rev_ind.
  - unfold walked. cbn. repeat split; try lia; try discriminate; constructor.
  - rewrite fold_left_app. cbn [fold_left].
    set (st := fold_left (walk_frame a) l walker_init) in *.
    destruct IH as (Hnum & Htimes & Hprev & Hflow & Hms & Hws & Hnn
                    & Hd1 & Hd2 & Hm1 & Hm2 & Hw1 & Hw2).
    assert (Hgrow : forall lo (ixs : list Z),
              Forall (fun i => (lo <= i < Z.of_nat (length l))%Z) ixs ->
              Forall (fun i => (lo <= i < Z.of_nat (length l + 1))%Z) ixs).
    { intros lo ixs Hixs. eapply Forall_impl; [exact Hixs |].
      intros i Hi. cbv beta in Hi |- *. lia. }
    assert (Hbelow : forall lo (ixs : list Z),
              Forall (fun i => (lo <= i < Z.of_nat (length l))%Z) ixs ->
              Forall (fun y => (y < frame_num st)%Z) ixs).
    { intros lo ixs Hixs. eapply Forall_impl; [exact Hixs |].
      intros i Hi. cbv beta in Hi |- *. lia. }
    assert (Hsnoc : forall lo (ixs : list Z),
              (lo <= frame_num st)%Z ->
              Forall (fun i => (lo <= i < Z.of_nat (length l))%Z) ixs ->
              Forall (fun i => (lo <= i < Z.of_nat (length l + 1))%Z)
                     (ixs ++ [frame_num st])).
    { intros lo ixs Hlo Hixs. apply Forall_app. split; [apply Hgrow, Hixs |].
      repeat constructor; lia. }
    unfold walked, walk_frame. rewrite !length_app, map_app. cbn [length map snd].
    destruct (prev_gray st) as [prev |] eqn:Hp;
      cbn [frame_num frame_times prev_gray prev_flow w_motion_scores
           w_wobble_scores w_duplicate_frames w_motion_discontinuities
           w_wobble_frames].
    + assert (Hne : l <> []) by (intros Hl; apply Hprev in Hl; discriminate).
      assert (Hpos : (1 <= length l)%nat) by (destruct l; [congruence | simpl; lia]).
      assert (Hdisc : is_discontinuity a
                        (w_motion_scores st ++ [_calculate_motion prev f])
                        (_calculate_motion prev f) = true ->
                      (2 <= frame_num st)%Z).
      { intros Hdisc. apply is_discontinuity_needs_two in Hdisc.
        rewrite length_app in Hdisc. cbn [length] in Hdisc. lia. }
      split; [lia |]. split; [rewrite Htimes; reflexivity |].
      split; [split; [discriminate | intros Hl; destruct l; discriminate] |].
      split; [split; [discriminate | lia] |].
      split; [rewrite length_app; cbn [length]; lia |].
      split.
      { destruct (prev_flow st) as [pf |] eqn:Hpf; cbn [option_map].
        - assert (~ (length l < 2)%nat)
            by (intros Hlt; apply Hflow in Hlt; discriminate).
          rewrite length_app. cbn [length]. lia.
        - assert (length l < 2)%nat by (apply Hflow; reflexivity). lia. }
      split; [apply Forall_app; split;
                [exact Hnn | repeat constructor; apply motion_nonneg] |].
      split; [destruct (Py.gtb _ _);
                [apply sorted_snoc; [exact Hd1 | exact (Hbelow _ _ Hd2)] | exact Hd1] |].
      split; [destruct (Py.gtb _ _);
                [apply Hsnoc; [lia | exact Hd2] | exact (Hgrow _ _ Hd2)] |].
      split; [destruct (is_discontinuity _ _ _);
                [apply sorted_snoc; [exact Hm1 | exact (Hbelow _ _ Hm2)] | exact Hm1] |].
      split; [destruct (is_discontinuity _ _ _);
                [apply Hsnoc; [exact (Hdisc eq_refl) | exact Hm2]
                | exact (Hgrow _ _ Hm2)] |].
      destruct (prev_flow st) as [pf |] eqn:Hpf; cbn [option_map].
      * assert (Hlong : ~ (length l < 2)%nat)
          by (intros Hlt; apply Hflow in Hlt; discriminate).
        split; [destruct (Py.gtb _ _);
                  [apply sorted_snoc; [exact Hw1 | exact (Hbelow _ _ Hw2)] | exact Hw1] |].
        destruct (Py.gtb _ _);
          [apply Hsnoc; [lia | exact Hw2] | exact (Hgrow _ _ Hw2)].
      * split; [exact Hw1 | exact (Hgrow _ _ Hw2)].
    + assert (Hl : l = []) by (apply Hprev; reflexivity).
      assert (Hlen : length l = 0%nat) by (rewrite Hl; reflexivity).
      split; [lia |]. split; [rewrite Htimes; reflexivity |].
      split; [split; [discriminate | intros Hnil; destruct l; discriminate] |].
      split; [split; [lia | intros _; apply Hflow; lia] |].
      split; [lia |]. split; [lia |].
      split; [exact Hnn |].
      split; [exact Hd1 |]. split; [exact (Hgrow _ _ Hd2) |].
      split; [exact Hm1 |]. split; [exact (Hgrow _ _ Hm2) |].
      split; [exact Hw1 | exact (Hgrow _ _ Hw2)].
Qed.

(** What [analyze] returns is built from the state of the loop. *)
Lemma analyze_inr (a : VideoAnalyzer) (fs : gmap string file)
    (video_path : string) (result : VideoAnalysisResult) :
  analyze a fs video_path = inr result ->
  exists v,
    fs !! video_path = Some (Playable v) /\
    analyze_capture a video_path v = inr result.
Proof.
  unfold analyze. destruct (fs !! video_path) as [[| v] |]; try discriminate.
  eauto.
Qed.

End WalkerFacts.

Section QualityScores.

Context `{Backend}.

Import Analyser.

Lemma score_clamped (x : Q) : 0 <= x -> 0 <= Qmax 0 (100 - x) <= 100.
Proof.
  intros Hx. split; [apply Q.le_max_l |].
  apply Q.max_lub; lra.
Qed.

Lemma rate_of_nonneg {A} (xs : list A) (total : Z) :
  (0 < total)%Z -> 0 <= rate_of xs total.
Proof.
  intros Htotal. unfold rate_of.
  assert (0 <= Py.len xs / inject_Z total).
  { apply div_nonneg; [apply len_nonneg |].
    change 0 with (inject_Z 0). rewrite <- Zle_Qle. lia. }
  nra.
Qed.

Lemma rate_of_nil {A} (total : Z) : rate_of (@nil A) total == 0.
Proof.
  unfold rate_of, Py.len. cbn [length]. change (inject_Z (Z.of_nat 0)) with 0.
  unfold Qdiv. ring.
Qed.

(** An increasing list of integers of [lo, hi) has at most [hi - lo]
    elements. *)
Lemma sorted_range_length (l : list Z) (lo hi : Z) :
  StronglySorted Z.lt l -> Forall (fun i => (lo <= i < hi)%Z) l ->
  (Z.of_nat (length l) <= Z.max 0 (hi - lo))%Z.
Proof.
  intros Hsorted. revert lo.
  induction Hsorted as [| x l Hsorted IH Hx]; intros lo Hrange; cbn [length].
  - lia.
  - apply Forall_cons_1 in Hrange as [Hxr Hrange].
    assert (Hnext : Forall (fun i => (x + 1 <= i < hi)%Z) l).
    { apply Forall_forall. intros i Hi.
      pose proof (proj1 (Forall_forall _ _) Hx i Hi).
      pose proof (proj1 (Forall_forall _ _) Hrange i Hi). cbv beta in *. lia. }
    specialize (IH _ Hnext). lia.
Qed.

(** The frames the loop reads, when every frame has a position. *)
Lemma frames_read_length (v : video) :
  length (pos_msec v) = length (frames v) ->
  length (zip (frames v) (pos_msec v)) = length (frames v).
Proof. intros Hlen. rewrite length_zip_with. lia. Qed.

Lemma frames_read_times (a : VideoAnalyzer) (v : video) :
  length (pos_msec v) = length (frames v) ->
  frame_times (fold_left (walk_frame a) (zip (frames v) (pos_msec v)) walker_init)
  = map (fun pos => pos / 1000) (pos_msec v).
Proof.
  intros Hlen.
  destruct (walk_fold a (zip (frames v) (pos_msec v))) as (_ & -> & _).
  rewrite <- (snd_zip (frames v) (pos_msec v)) at 2 by lia.
  rewrite <- list_fmap_compose. reflexivity.
Qed.

Lemma consecutive_elem {A B} (f : A -> A -> B) (l : list A) (x : B) :
  x ∈ zip_with f l (tail l) <->
  exists i a b, l !! i = Some a /\ l !! S i = Some b /\ x = f a b.
Proof.
  rewrite elem_of_lookup_zip_with. split.
  - intros (i & a & b & -> & Ha & Hb). rewrite lookup_tail in Hb. eauto 6.
  - intros (i & a & b & Ha & Hb & ->). exists i, a, b.
    rewrite lookup_tail. auto.
Qed.

(** Frame intervals exist exactly when some position is above the one
    before it. *)
Lemma frame_intervals_exist (pos : list Q) :
  frame_intervals_of (map (fun p => p / 1000) pos) <> [] <->
  exists i p q, pos !! i = Some p /\ pos !! S i = Some q /\ p < q.
Proof.
  unfold frame_intervals_of. split.
  - intros Hne.
    destruct (filter _ _) as [| d ds] eqn:Hfilter; [congruence |].
    assert (Hd : d ∈ filter (fun d => Py.gtb d 0 = true)
                   (zip_with (fun prev t => t - prev)
                      (map (fun p => p / 1000) pos)
                      (tail (map (fun p => p / 1000) pos))))
      by (rewrite Hfilter; left).
    apply list_elem_of_filter in Hd as [Hpos Hd].
    apply consecutive_elem in Hd as (i & a & b & Ha & Hb & ->).
    rewrite list_lookup_fmap in Ha, Hb.
    destruct (pos !! i) as [p |] eqn:Hp; [| discriminate].
    destruct (pos !! S i) as [q |] eqn:Hq; [| discriminate].
    cbn in Ha, Hb. injection Ha as <-. injection Hb as <-.
    exists i, p, q. repeat split; try assumption.
    apply gtb_spec in Hpos. clear - Hpos. qlra.
  - intros (i & p & q & Hp & Hq & Hlt) Hnil.
    assert (Hd : (q / 1000 - p / 1000) ∈
                 filter (fun d => Py.gtb d 0 = true)
                   (zip_with (fun prev t => t - prev)
                      (map (fun p => p / 1000) pos)
                      (tail (map (fun p => p / 1000) pos)))).
    { apply list_elem_of_filter. split.
      - apply gtb_spec. clear - Hlt. qlra.
      - apply consecutive_elem. exists i, (p / 1000), (q / 1000).
        rewrite !list_lookup_fmap, Hp, Hq. auto. }
    rewrite Hnil in Hd. inversion Hd.
Qed.

Lemma zero_test (x : Q) : Qeq_bool x 0 = true <-> x == 0.
Proof. apply Qeq_bool_iff. Qed.

(** When [analyze] raises on a playable file and when it returns. *)
Lemma analyze_capture_cases (a : VideoAnalyzer) (video_path : string) (v : video) :
  length (pos_msec v) = length (frames v) ->
  let raises :=
    (declared_fps v == 0 \/ fps_drop_threshold a == 0) /\
    exists i p q,
      pos_msec v !! i = Some p /\ pos_msec v !! S i = Some q /\ p < q in
  (raises /\ analyze_capture a video_path v = inl ZeroDivisionError) \/
  (~ raises /\ exists result, analyze_capture a video_path v = inr result).
Proof.
  intros Hlen raises. subst raises. unfold analyze_capture.
  rewrite (frames_read_times a v Hlen).
  destruct (bool_decide _ && _) eqn:Htest.
  - left. split; [| reflexivity].
    apply andb_true_iff in Htest as [Hne Hzero].
    apply bool_decide_eq_true in Hne. apply frame_intervals_exist in Hne.
    apply orb_true_iff in Hzero. rewrite !zero_test in Hzero. tauto.
  - right. split; [| eauto].
    intros [Hzero Hne]. apply frame_intervals_exist in Hne.
    apply andb_false_iff in Htest as [Htest | Htest].
    + apply bool_decide_eq_false in Htest. tauto.
    + apply orb_false_iff in Htest as [H1 H2].
      rewrite <- !zero_test in Hzero. destruct Hzero; congruence.
Qed.

End QualityScores.

(** X13.  Every result [VideoAnalyzer.analyze] returns has its four
    quality scores between 0 and 100; the overall score is their weighted
    sum with weights 0.2, 0.3, 0.25 and 0.25, and lies between 0 and 100
    as well. *)
Theorem quality_scores_in_range `{Backend} (a : Analyser.VideoAnalyzer)
    (fs : gmap string file) (video_path : string)
    (result : Analyser.VideoAnalysisResult) :
  Analyser.analyze a fs video_path = inr result ->
  0 <= Analyser.fps_quality_score result <= 100 /\
  0 <= Analyser.duplicate_quality_score result <= 100 /\
  0 <= Analyser.motion_quality_score result <= 100 /\
  0 <= Analyser.wobble_quality_score result <= 100 /\
  Analyser.overall_quality_score result ==
    Analyser.fps_quality_score result * (2 # 10)
    + Analyser.duplicate_quality_score result * (3 # 10)
    + Analyser.motion_quality_score result * (25 # 100)
    + Analyser.wobble_quality_score result * (25 # 100) /\
  0 <= Analyser.overall_quality_score result <= 100.
Proof.
  intros Hret. apply analyze_inr in Hret as (v & _ & Hret).
  unfold Analyser.analyze_capture in Hret.
  destruct (bool_decide _ && _); [discriminate |].
  injection Hret as <-.
  cbn [Analyser.fps_quality_score Analyser.duplicate_quality_score
       Analyser.motion_quality_score Analyser.wobble_quality_score
       Analyser.overall_quality_score].
  set (st := fold_left _ _ _).
  set (intervals := Analyser.frame_intervals_of _).
  set (drops := omap _ _).
  assert (Hfps : 0 <= Qmin (match intervals with
                            | [] => 0
                            | _ :: _ => Py.var intervals
                            end * 1000) 50 + Py.len drops * 2).
  { pose proof (len_nonneg drops).
    assert (0 <= match intervals with [] => 0 | _ :: _ => Py.var intervals end)
      by (destruct intervals; [lra | apply var_nonneg]).
    assert (0 <= Qmin (match intervals with
                       | [] => 0
                       | _ :: _ => Py.var intervals
                       end * 1000) 50) by (apply Q.min_glb; lra).
    lra. }
  apply score_clamped in Hfps.
  assert (Hdup : 0 <= (if (0 <? total_frame_count v)%Z
                       then Analyser.rate_of (Analyser.w_duplicate_frames st)
                              (total_frame_count v)
                       else 0) * 2).
  { destruct (Z.ltb_spec 0 (total_frame_count v)); [| lra].
    pose proof (rate_of_nonneg (Analyser.w_duplicate_frames st) _ H0). lra. }
  apply score_clamped in Hdup.
  assert (Hmotion :
            0 <= (if (0 <? total_frame_count v)%Z
                  then Qmax 0 (100 - Analyser.rate_of
                                       (Analyser.w_motion_discontinuities st)
                                       (total_frame_count v) * 10)
                  else 100) <= 100).
  { destruct (Z.ltb_spec 0 (total_frame_count v)); [| lra].
    apply score_clamped.
    pose proof (rate_of_nonneg (Analyser.w_motion_discontinuities st) _ H0). lra. }
  assert (Hwobble :
            0 <= (if (0 <? total_frame_count v)%Z
                  then Qmax 0 (100 - Analyser.rate_of
                                       (Analyser.w_wobble_frames st)
                                       (total_frame_count v) * 5)
                  else 100) <= 100).
  { destruct (Z.ltb_spec 0 (total_frame_count v)); [| lra].
    apply score_clamped.
    pose proof (rate_of_nonneg (Analyser.w_wobble_frames st) _ H0). lra. }
  repeat split; try tauto; try reflexivity; lra.
Qed.

Lemma tiny_clip_scored :
  exists result,
    Analyser.analyze (H := Reference.backend) Analyser.default_analyzer
      Reference.one_clip_directory "a.mp4" = inr result.
Proof.
  assert (Hok : match Analyser.analyze (H := Reference.backend)
                        Analyser.default_analyzer
                        Reference.one_clip_directory "a.mp4" with
                | inr _ => true
                | inl _ => false
                end = true)
    by reflexivity.
  destruct (Analyser.analyze _ _ _) as [e | r]; [discriminate | eauto].
Qed.

(** The theorem at the two-frame clip. *)
Lemma quality_scores_in_range_witness :
  exists result,
    Analyser.analyze (H := Reference.backend) Analyser.default_analyzer
      Reference.one_clip_directory "a.mp4" = inr result /\
    0 <= Analyser.overall_quality_score result <= 100.
Proof.
  destruct tiny_clip_scored as [result Hret].
  exists result. split; [exact Hret |].
  apply (quality_scores_in_range (H := Reference.backend)
           Analyser.default_analyzer Reference.one_clip_directory "a.mp4"
           result Hret).
Defined.

(** X14.  In a result of [VideoAnalyzer.analyze] for a file of [n] frames,
    each with a position, there is one motion score per frame after the
    first, none negative, and one wobble score per frame after the second;
    the duplicate frames are increasing indices from 1 to n - 1, the
    motion discontinuities and the wobble frames increasing indices from
    2 to n - 1, so that there are at most n - 1 duplicates and at most
    n - 2 discontinuities and wobble frames. *)
Theorem frame_lists_consistent `{Backend} (a : Analyser.VideoAnalyzer)
    (fs : gmap string file) (video_path : string) (v : video)
    (result : Analyser.VideoAnalysisResult) :
  fs !! video_path = Some (Playable v) ->
  length (pos_msec v) = length (frames v) ->
  Analyser.analyze a fs video_path = inr result ->
  let n := length (frames v) in
  length (Analyser.motion_scores result) = (n - 1)%nat /\
  length (Analyser.wobble_scores result) = (n - 2)%nat /\
  Forall (fun m => 0 <= m) (Analyser.motion_scores result) /\
  (StronglySorted Z.lt (Analyser.duplicate_frames result) /\
   Forall (fun i => (1 <= i < Z.of_nat n)%Z) (Analyser.duplicate_frames result) /\
   (length (Analyser.duplicate_frames result) <= n - 1)%nat) /\
  (StronglySorted Z.lt (Analyser.motion_discontinuities result) /\
   Forall (fun i => (2 <= i < Z.of_nat n)%Z)
          (Analyser.motion_discontinuities result) /\
   (length (Analyser.motion_discontinuities result) <= n - 2)%nat) /\
  (StronglySorted Z.lt (Analyser.wobble_frames result) /\
   Forall (fun i => (2 <= i < Z.of_nat n)%Z) (Analyser.wobble_frames result) /\
   (length (Analyser.wobble_frames result) <= n - 2)%nat).
Proof.
  intros Hfile Hlen Hret n. unfold Analyser.analyze in Hret.
  rewrite Hfile in Hret. unfold Analyser.analyze_capture in Hret.
  destruct (bool_decide _ && _); [discriminate |].
  injection Hret as <-.
  cbn [Analyser.motion_scores Analyser.wobble_scores Analyser.duplicate_frames
       Analyser.motion_discontinuities Analyser.wobble_frames].
  destruct (walk_fold a (zip (frames v) (pos_msec v)))
    as (_ & _ & _ & _ & Hms & Hws & Hnn & Hd1 & Hd2 & Hm1 & Hm2 & Hw1 & Hw2).
  rewrite (frames_read_length v Hlen) in *. fold n in Hms, Hws, Hd2, Hm2, Hw2.
  pose proof (sorted_range_length _ _ _ Hd1 Hd2).
  pose proof (sorted_range_length _ _ _ Hm1 Hm2).
  pose proof (sorted_range_length _ _ _ Hw1 Hw2).
  repeat split; try assumption; lia.
Qed.

Lemma tiny_clip_positions :
  Reference.one_clip_directory !! "a.mp4"%string = Some (Playable Reference.tiny_clip) /\
  length (pos_msec Reference.tiny_clip) = length (frames Reference.tiny_clip).
Proof. split; reflexivity. Qed.

(** The theorem at the two-frame clip. *)
Lemma frame_lists_consistent_witness :
  exists result,
    Analyser.analyze (H := Reference.backend) Analyser.default_analyzer
      Reference.one_clip_directory "a.mp4" = inr result /\
    length (Analyser.motion_scores result) = 1%nat.
Proof.
  destruct tiny_clip_scored as [result Hret].
  exists result. split; [exact Hret |].
  apply (frame_lists_consistent (H := Reference.backend)
           Analyser.default_analyzer Reference.one_clip_directory "a.mp4"
           Reference.tiny_clip result (proj1 tiny_clip_positions)
           (proj2 tiny_clip_positions) Hret).
Defined.

(** X15.  For a playable file, each frame with a position,
    [VideoAnalyzer.analyze] raises [ZeroDivisionError] exactly when some
    position is above the one before it while the declared frame rate or
    the drop threshold is zero; it raises nothing else, and returns a
    result in every other case. *)
Theorem analyze_raises_on_zero_rate `{Backend} (a : Analyser.VideoAnalyzer)
    (fs : gmap string file) (video_path : string) (v : video) :
  fs !! video_path = Some (Playable v) ->
  length (pos_msec v) = length (frames v) ->
  let raises :=
    (declared_fps v == 0 \/ Analyser.fps_drop_threshold a == 0) /\
    exists i p q,
      pos_msec v !! i = Some p /\ pos_msec v !! S i = Some q /\ p < q in
  (Analyser.analyze a fs video_path = inl ZeroDivisionError <-> raises) /\
  ((exists result, Analyser.analyze a fs video_path = inr result) <-> ~ raises) /\
  (forall e, Analyser.analyze a fs video_path = inl e -> e = ZeroDivisionError).
Proof.
  intros Hfile Hlen raises. unfold Analyser.analyze. rewrite Hfile.
  pose proof (analyze_capture_cases a video_path v Hlen) as Hcases.
  cbv zeta in Hcases. fold raises in Hcases.
  destruct Hcases as [[Hraises ->] | [Hnot [result ->]]].
  - split; [tauto |].
    split; [split; [intros [result Hret]; discriminate | tauto] |].
    intros e [= <-]. reflexivity.
  - split; [split; [discriminate | tauto] |].
    split; [split; [tauto | eauto] |].
    intros e He. discriminate.
Qed.

Lemma tiny_clip_has_rate :
  ~ ((declared_fps Reference.tiny_clip == 0
      \/ Analyser.fps_drop_threshold Analyser.default_analyzer == 0) /\
     exists i p q,
       pos_msec Reference.tiny_clip !! i = Some p /\
       pos_msec Reference.tiny_clip !! S i = Some q /\ p < q).
Proof. intros [[Hzero | Hzero] _]; vm_compute in Hzero; discriminate. Qed.

(** The theorem at the two-frame clip, which has a frame rate. *)
Lemma analyze_raises_on_zero_rate_witness :
  exists result,
    Analyser.analyze (H := Reference.backend) Analyser.default_analyzer
      Reference.one_clip_directory "a.mp4" = inr result.
Proof.
  apply (proj2 (proj1 (proj2
           (analyze_raises_on_zero_rate (H := Reference.backend)
              Analyser.default_analyzer Reference.one_clip_directory "a.mp4"
              Reference.tiny_clip (proj1 tiny_clip_positions)
              (proj2 tiny_clip_positions))))).
  exact tiny_clip_has_rate.
Defined.

(** X16.  A playable file from which fewer than two frames can be read is
    never refused by [VideoAnalyzer.analyze]: the result has no duplicate
    frame, motion score, discontinuity, wobble frame or frame-rate drop,
    and its four quality scores and the overall score are all 100. *)
Theorem short_file_scores_perfect `{Backend} (a : Analyser.VideoAnalyzer)
    (fs : gmap string file) (video_path : string) (v : video) :
  fs !! video_path = Some (Playable v) ->
  (length (frames v) < 2)%nat ->
  exists result,
    Analyser.analyze a fs video_path = inr result /\
    Analyser.duplicate_frames result = [] /\
    Analyser.motion_scores result = [] /\
    Analyser.motion_discontinuities result = [] /\
    Analyser.wobble_frames result = [] /\
    Analyser.fps_drops result = [] /\
    Analyser.fps_quality_score result == 100 /\
    Analyser.duplicate_quality_score result == 100 /\
    Analyser.motion_quality_score result == 100 /\
    Analyser.wobble_quality_score result == 100 /\
    Analyser.overall_quality_score result == 100.
Proof.
  intros Hfile Hshort. unfold Analyser.analyze. rewrite Hfile.
  unfold Analyser.analyze_capture.
  assert (Hread : (length (zip (frames v) (pos_msec v)) < 2)%nat)
    by (rewrite length_zip_with; lia).
  assert (Hstate : exists st,
            fold_left (Analyser.walk_frame a) (zip (frames v) (pos_msec v))
              Analyser.walker_init = st /\
            Analyser.frame_intervals_of (Analyser.frame_times st) = [] /\
            Analyser.w_duplicate_frames st = [] /\
            Analyser.w_motion_scores st = [] /\
            Analyser.w_motion_discontinuities st = [] /\
            Analyser.w_wobble_frames st = []).
  { destruct (zip (frames v) (pos_msec v)) as [| [f pos] [| second rest]].
    - eexists. split; [reflexivity |]. cbn. repeat split; reflexivity.
    - eexists. split; [reflexivity |]. cbn. repeat split; reflexivity.
    - cbn [length] in Hread. lia. }
  destruct Hstate as (st & -> & -> & Hd & Hm & Hmd & Hw).
  rewrite Hd, Hm, Hmd, Hw.
  cbn [bool_decide andb]. 
  assert (Htest : bool_decide (@nil Q <> []) = false)
    by (apply bool_decide_eq_false; tauto).
  rewrite Htest. cbn [andb imap omap].
  eexists. split; [reflexivity |].
  cbn [Analyser.duplicate_frames Analyser.motion_scores
       Analyser.motion_discontinuities Analyser.wobble_frames
       Analyser.fps_drops Analyser.fps_quality_score
       Analyser.duplicate_quality_score Analyser.motion_quality_score
       Analyser.wobble_quality_score Analyser.overall_quality_score].
  assert (Hfull : forall x, x == 0 -> Qmax 0 (100 - x) == 100).
  { intros x Hx. rewrite Hx. reflexivity. }
  assert (Hfps : Qmax 0 (100 - (Qmin (0 * 1000) 50 + Py.len (@nil (Z * Q * Q)) * 2))
                 == 100) by reflexivity.
  assert (Hdup : Qmax 0 (100 - (if (0 <? total_frame_count v)%Z
                                then Analyser.rate_of (@nil Z) (total_frame_count v)
                                else 0) * 2) == 100).
  { apply Hfull. destruct (0 <? total_frame_count v)%Z; [| reflexivity].
    rewrite rate_of_nil. reflexivity. }
  assert (Hmq : (if (0 <? total_frame_count v)%Z
                 then Qmax 0 (100 - Analyser.rate_of (@nil Z) (total_frame_count v) * 10)
                 else 100) == 100).
  { destruct (0 <? total_frame_count v)%Z; [| reflexivity].
    apply Hfull. rewrite rate_of_nil. reflexivity. }
  assert (Hwq : (if (0 <? total_frame_count v)%Z
                 then Qmax 0 (100 - Analyser.rate_of (@nil Z) (total_frame_count v) * 5)
                 else 100) == 100).
  { destruct (0 <? total_frame_count v)%Z; [| reflexivity].
    apply Hfull. rewrite rate_of_nil. reflexivity. }
  repeat split; try reflexivity; try assumption.
  rewrite Hfps, Hdup, Hmq, Hwq. reflexivity.
Qed.

Lemma single_frame_file :
  ({[ "one.mp4"%string :=
        Playable {| declared_fps := 30; total_frame_count := 1; width := 2;
                    height := 2; frames := Reference.single_frame;
                    pos_msec := [0] |} ]} : gmap string file) !! "one.mp4"%string
  = Some (Playable {| declared_fps := 30; total_frame_count := 1; width := 2;
                      height := 2; frames := Reference.single_frame;
                      pos_msec := [0] |}) /\
  (length Reference.single_frame < 2)%nat.
Proof. split; [reflexivity | cbn; lia]. Qed.

(** The theorem at a file of one frame. *)
Lemma short_file_scores_perfect_witness :
  exists result,
    Analyser.analyze (H := Reference.backend) Analyser.default_analyzer
      {[ "one.mp4"%string :=
           Playable {| declared_fps := 30; total_frame_count := 1; width := 2;
                       height := 2; frames := Reference.single_frame;
                       pos_msec := [0] |} ]} "one.mp4" = inr result /\
    Analyser.overall_quality_score result == 100.
Proof.
  destruct (short_file_scores_perfect (H := Reference.backend)
              Analyser.default_analyzer _ "one.mp4" _
              (proj1 single_frame_file) (proj2 single_frame_file))
    as (result & Hret & Hrest).
  exists result. split; [exact Hret | apply Hrest].
Defined.

(** ** Progress reports and the batch runners *)

Section ProgressReports.

Context `{Backend}.

Lemma any_fold {A} (test : A -> bool) (l : list A) (b : bool) :
  fold_left (fun reported x => reported || test x) l b = b || existsb test l.
Proof.
  revert b. induction l as [| x l IH]; intros b; cbn [fold_left existsb].
  - rewrite orb_false_r. reflexivity.
  - rewrite IH, orb_assoc. reflexivity.
Qed.

(** The report is printed when a sampled frame brings the counter to a
    multiple of 30. *)
Lemma reports_progress_spec (sample_rate : Z) (fs : list gray) :
  Dynamics.reports_progress sample_rate fs = true <->
  exists p, p ∈ sampled sample_rate fs /\ ((fst p + 1) mod 30 = 0)%Z.
Proof.
  unfold Dynamics.reports_progress. rewrite strided_loop_sampled.
  rewrite (any_fold (fun p => ((fst p + 1) mod 30 =? 0)%Z)).
  cbn [orb]. rewrite existsb_exists. split.
  - intros (p & Hin & Htest). exists p.
    split; [apply list_elem_of_In, Hin | apply Z.eqb_eq, Htest].
  - intros (p & Hin & Htest). exists p.
    split; [apply list_elem_of_In, Hin | apply Z.eqb_eq, Htest].
Qed.

Lemma enumerate_lookup {A} (fs : list A) (k : Z) (i : nat) (f : A) :
  fs !! i = Some f -> (k + Z.of_nat i, f)%Z ∈ enumerate k fs.
Proof.
  revert k i. induction fs as [| f0 fs IH]; intros k i Hi; [discriminate |].
  cbn [enumerate]. destruct i as [| i].
  - injection Hi as ->. rewrite Z.add_0_r. left.
  - right. replace (k + Z.of_nat (S i))%Z with (k + 1 + Z.of_nat i)%Z by lia.
    apply IH, Hi.
Qed.

(** A stride that shares a factor with 30 never brings the counter to a
    multiple of 30 after a sampled frame. *)
Lemma coarse_stride_silent (sample_rate : Z) (fs : list gray) :
  sample_rate <> 0%Z -> Z.gcd sample_rate 30 <> 1%Z ->
  Dynamics.reports_progress sample_rate fs = false.
Proof.
  intros Hrate Hgcd. apply not_true_iff_false. rewrite reports_progress_spec.
  intros ([n f] & Hin & Hn). cbn [fst] in Hn.
  unfold sampled in Hin. apply list_elem_of_filter in Hin as [Hmod _].
  cbn [fst] in Hmod. apply Hgcd.
  apply Z.mod_divide in Hmod; [| exact Hrate].
  apply Z.mod_divide in Hn; [| lia].
  pose proof (Z.gcd_divide_l sample_rate 30) as Hl.
  pose proof (Z.gcd_divide_r sample_rate 30) as Hr.
  pose proof (Z.gcd_nonneg sample_rate 30) as Hpos.
  assert (Hone : (Z.gcd sample_rate 30 | 1)%Z).
  { replace 1%Z with ((n + 1) - n)%Z by lia.
    apply Z.divide_sub_r.
    - exact (Z.divide_trans _ _ _ Hr Hn).
    - exact (Z.divide_trans _ _ _ Hl Hmod). }
  apply Z.divide_1_r_nonneg in Hone; [exact Hone | exact Hpos].
Qed.

(** With every frame sampled, the report is printed from the thirtieth
    frame on. *)
Lemma every_frame_reports (fs : list gray) :
  Dynamics.reports_progress 1 fs = true <-> (30 <= length fs)%nat.
Proof.
  rewrite reports_progress_spec. split.
  - intros (p & Hin & Hn). apply sampled_bounds in Hin.
    apply Z.mod_divide in Hn; [| lia]. destruct Hn as [k Hk]. lia.
  - intros Hlen. destruct (lookup_lt_is_Some_2 fs 29 ltac:(lia)) as [f Hf].
    exists (29%Z, f). split; [| reflexivity].
    unfold sampled. apply list_elem_of_filter. split; [reflexivity |].
    exact (enumerate_lookup fs 0 29 f Hf).
Qed.

(** The motion-quality analyses return for every stride but zero. *)
Lemma analyze_motion_quality_returns (v : video) (sample_rate : Z)
    (duplicate_threshold ssim_threshold : Q) :
  sample_rate <> 0%Z ->
  exists motion_result,
    MotionQuality.analyze_motion_quality v sample_rate
      duplicate_threshold ssim_threshold = inr motion_result.
Proof.
  intros Hrate. unfold MotionQuality.analyze_motion_quality,
    Duplicates._analyze_duplicate_frames, Motion._analyze_motion_continuity,
    Wobble._analyze_wobble_distortion.
  rewrite (zero_stride_false sample_rate (frames v) Hrate). cbn. eauto.
Qed.

(** So [analyze_frame_dynamics] returns with such a stride, whatever the
    declared frame count. *)
Lemma coarse_stride_dynamics (v : video) (sample_rate : Z) :
  sample_rate <> 0%Z -> Z.gcd sample_rate 30 <> 1%Z ->
  exists frame_data table,
    Dynamics.analyze_frame_dynamics v sample_rate = inr (frame_data, table).
Proof.
  intros Hrate Hgcd. unfold Dynamics.analyze_frame_dynamics.
  rewrite (zero_stride_false sample_rate (frames v) Hrate),
    (coarse_stride_silent sample_rate (frames v) Hrate Hgcd).
  rewrite andb_false_r. cbn. eauto.
Qed.

End ProgressReports.

(** X17.  With a stride that is not zero and shares a factor with 30 (the
    5 of [batch_analyze.py] does), [analyze_frame_dynamics] never prints
    its progress line, so that it returns whatever the declared frame
    count is, zero included. *)
Theorem coarse_stride_returns `{Backend} (v : video) (sample_rate : Z) :
  sample_rate <> 0%Z -> Z.gcd sample_rate 30 <> 1%Z ->
  Dynamics.reports_progress sample_rate (frames v) = false /\
  exists frame_data table,
    Dynamics.analyze_frame_dynamics v sample_rate = inr (frame_data, table).
Proof.
  intros Hrate Hgcd.
  split; [exact (coarse_stride_silent sample_rate (frames v) Hrate Hgcd) |].
  exact (coarse_stride_dynamics v sample_rate Hrate Hgcd).
Qed.

Lemma stride_five_is_coarse : 5%Z <> 0%Z /\ Z.gcd 5 30 <> 1%Z.
Proof. split; [discriminate | vm_compute; discriminate]. Qed.

(** The theorem at the stride 5 and the two-frame clip. *)
Lemma coarse_stride_returns_witness :
  Dynamics.reports_progress 5 (frames Reference.tiny_clip) = false /\
  exists frame_data table,
    Dynamics.analyze_frame_dynamics (H := Reference.backend)
      Reference.tiny_clip 5 = inr (frame_data, table).
Proof.
  exact (coarse_stride_returns (H := Reference.backend) Reference.tiny_clip 5
           (proj1 stride_five_is_coarse) (proj2 stride_five_is_coarse)).
Defined.

(** X18.  With every frame sampled, [analyze_frame_dynamics] raises
    [ZeroDivisionError] exactly for a video with a declared frame count of
    zero from which thirty frames or more can be read, and returns a
    result for every other video. *)
Theorem every_frame_stride_raises `{Backend} (v : video) :
  (Dynamics.analyze_frame_dynamics v 1 = inl ZeroDivisionError <->
   total_frame_count v = 0%Z /\ (30 <= length (frames v))%nat) /\
  (is_Some (returned (Dynamics.analyze_frame_dynamics v 1)) <->
   ~ (total_frame_count v = 0%Z /\ (30 <= length (frames v))%nat)).
Proof.
  unfold Dynamics.analyze_frame_dynamics.
  rewrite (zero_stride_false 1 (frames v)) by discriminate.
  pose proof (every_frame_reports (frames v)) as Hreports.
  destruct (Z.eqb_spec (total_frame_count v) 0) as [Hzero | Hcount];
    destruct (Dynamics.reports_progress 1 (frames v)); cbn.
  - assert (30 <= length (frames v))%nat by (apply Hreports; reflexivity).
    split; [tauto |]. split; [intros [x Hx]; discriminate | tauto].
  - assert (~ (30 <= length (frames v))%nat)
      by (intros Hlen; apply Hreports in Hlen; discriminate).
    split; [split; [discriminate | tauto] |]. split; [tauto | eauto].
  - split; [split; [discriminate | tauto] |]. split; [tauto | eauto].
  - split; [split; [discriminate | tauto] |]. split; [tauto | eauto].
Qed.

(** X19.  For a playable file, the body of [analyze_video] raises exactly
    when the declared frame count is zero and a hundred frames or more
    can be read: the progress line of [analyze_fps_dynamics] then divides
    by zero, and the outcome is the error dictionary with that message.
    In every other case the outcome carries the analysis. *)
Theorem analyze_video_fails_on_zero_count `{Backend} (fs : gmap string file)
    (video_path : string) (v : video) :
  fs !! video_path = Some (Playable v) ->
  let unreported := total_frame_count v = 0%Z /\ (100 <= length (frames v))%nat in
  (BatchAnalyze.analyses fs video_path = inl ZeroDivisionError <-> unreported) /\
  ((exists result, BatchAnalyze.analyses fs video_path = inr result)
   <-> ~ unreported) /\
  (BatchAnalyze.is_error (BatchAnalyze.analyze_video fs video_path) = true
   <-> unreported) /\
  (unreported ->
   BatchAnalyze.analyze_video fs video_path
   = BatchAnalyze.Failed (BatchAnalyze.name video_path) video_path
       (BatchAnalyze.detect_model_from_filename (BatchAnalyze.name video_path))
       (exn_str ZeroDivisionError)).
Proof.
  intros Hfile unreported.
  assert (Hcases :
            (unreported /\ BatchAnalyze.analyses fs video_path = inl ZeroDivisionError)
            \/ (~ unreported /\
                exists result, BatchAnalyze.analyses fs video_path = inr result)).
  { unfold BatchAnalyze.analyses, BatchAnalyze.open_video. rewrite Hfile.
    cbn [mbind exn_bind].
    destruct (coarse_stride_dynamics v 5 (proj1 stride_five_is_coarse)
                (proj2 stride_five_is_coarse))
      as (frame_data & table & ->).
    destruct (analyze_motion_quality_returns v 5 (98 # 100) (95 # 100)
                (proj1 stride_five_is_coarse)) as [motion_result Hmotion].
    unfold Fps.analyze_fps_dynamics, Fps.reports_progress.
    destruct (Z.eqb_spec (total_frame_count v) 0) as [Hzero | Hcount];
      destruct (Nat.leb_spec 100 (length (frames v))) as [Hlen | Hlen]; cbn;
      rewrite ?Hmotion; cbn; subst unreported.
    - left. tauto.
    - right. split; [lia | eauto].
    - right. split; [tauto | eauto].
    - right. split; [tauto | eauto]. }
  unfold BatchAnalyze.analyze_video.
  destruct Hcases as [[Hun ->] | [Hnot [result ->]]]; cbn [BatchAnalyze.is_error].
  - split; [tauto |]. split; [split; [intros [r Hr]; discriminate | tauto] |].
    split; [tauto | reflexivity].
  - split; [split; [discriminate | tauto] |].
    split; [split; [tauto | eauto] |].
    split; [split; [discriminate | tauto] | tauto].
Qed.

Lemma uncounted_clip_facts :
  ({[ "z.mp4"%string := Playable uncounted_clip ]} : gmap string file)
    !! "z.mp4"%string = Some (Playable uncounted_clip) /\
  total_frame_count uncounted_clip = 0%Z /\
  (100 <= length (frames uncounted_clip))%nat.
Proof.
  split; [reflexivity |]. split; [reflexivity |].
  unfold uncounted_clip. cbn [frames]. rewrite repeat_length. lia.
Qed.

(** The theorem at a clip of a hundred frames that declares none. *)
Lemma analyze_video_fails_on_zero_count_witness :
  BatchAnalyze.is_error
    (BatchAnalyze.analyze_video (H := Reference.backend)
       {[ "z.mp4"%string := Playable uncounted_clip ]} "z.mp4") = true.
Proof.
  apply (proj2 (proj1 (proj2 (proj2
           (analyze_video_fails_on_zero_count (H := Reference.backend)
              {[ "z.mp4"%string := Playable uncounted_clip ]} "z.mp4"
              uncounted_clip (proj1 uncounted_clip_facts)))))).
  exact (proj2 uncounted_clip_facts).
Defined.

Section Accounting.

Import BatchProcessor.

(** Every harvested future either adds a result or logs an error. *)
Lemma harvest_split (analyze : string -> exn + Analyser.VideoAnalysisResult)
    (done : list string) :
  (length (omap (fun f => returned (analyze f)) done)
   + length (filter is_error_line (map (log_line_of analyze) done))
   = length done)%nat.
Proof.
  induction done as [| f done IH]; [reflexivity |].
  cbn [omap list_omap map]. unfold log_line_of at 1.
  destruct (analyze f) as [e | r]; cbn [returned].
  - rewrite filter_cons_True by exact I. cbn [length].
    fold (omap (fun f => returned (analyze f)) done). lia.
  - rewrite filter_cons_False by (intros []). cbn [length].
    fold (omap (fun f => returned (analyze f)) done). lia.
Qed.

Lemma returned_inr {R} (outcome : exn + R) (r : R) :
  returned outcome = Some r <-> outcome = inr r.
Proof.
  destruct outcome as [e | r']; cbn; split; intros Heq;
    try discriminate; injection Heq as ->; reflexivity.
Qed.

Lemma error_line_of (analyze : string -> exn + Analyser.VideoAnalysisResult)
    (f : string) :
  is_error_line (log_line_of analyze f) ->
  exists e, log_line_of analyze f = Error f e /\ analyze f = inl e.
Proof.
  unfold log_line_of. destruct (analyze f) as [e | r]; [eauto | intros []].
Qed.

End Accounting.

(** X20.  [process_files], for any number of failing files and any order
    of completion: the returned list holds the result of every file whose
    analysis returned, each once; every file gives either a result, which
    carries its path, or an error line in the log with what the analysis
    raised, so that results and error lines together number the files;
    and the progress callback is called once per file, with the counts
    1..N in the order of completion. *)
Theorem process_files_accounts_for_every_file `{Backend}
    (a : Analyser.VideoAnalyzer) (fs : gmap string file) (files : list string)
    (schedule : list nat) :
  schedule ≡ₚ seq 0 (length files) ->
  let run := BatchProcessor.process_files (Analyser.analyze a fs) files schedule in
  let harvested := omap (fun i => files !! i) schedule in
  let failed := filter is_error_line (BatchProcessor.log run) in
  BatchProcessor.results run
    ≡ₚ omap (fun f => returned (Analyser.analyze a fs f)) files /\
  (length (BatchProcessor.results run) + length failed = length files)%nat /\
  Forall (fun r => Analyser.filepath r ∈ files /\
                   Analyser.analyze a fs (Analyser.filepath r) = inr r)
         (BatchProcessor.results run) /\
  Forall (fun l => exists f e,
            l = BatchProcessor.Error f e /\ f ∈ files /\
            Analyser.analyze a fs f = inl e) failed /\
  length (BatchProcessor.log run) = length files /\
  harvested ≡ₚ files /\
  BatchProcessor.progress run
  = imap (fun i f => ((Z.of_nat i + 1)%Z, Z.of_nat (length files), f)) harvested.
Proof.
  intros Hsched run harvested failed.
  pose proof (harvested_files files schedule Hsched) as Hdone.
  fold harvested in Hdone.
  destruct (harvest_fold (Analyser.analyze a fs) (Z.of_nat (length files))
              harvested BatchProcessor.run_init) as (Hres & _ & Hlog & Hprog).
  change (fold_left _ harvested BatchProcessor.run_init) with run in Hres, Hlog, Hprog.
  cbn [BatchProcessor.results BatchProcessor.log BatchProcessor.progress
       BatchProcessor.completed BatchProcessor.run_init app] in Hres, Hlog, Hprog.
  subst failed. rewrite Hres, Hlog.
  split; [rewrite Hdone; reflexivity |].
  split; [rewrite harvest_split, Hdone; reflexivity |].
  split.
  { apply Forall_forall. intros r Hr.
    apply list_elem_of_omap in Hr as (f & Hf & Hr).
    apply returned_inr in Hr.
    rewrite (analyze_filepath a fs f r Hr).
    split; [rewrite <- Hdone; exact Hf | exact Hr]. }
  split.
  { apply Forall_forall. intros l Hl.
    apply list_elem_of_filter in Hl as [Herr Hl].
    apply list_elem_of_fmap in Hl as (f & -> & Hf).
    apply error_line_of in Herr as (e & Hline & He).
    exists f, e. split; [exact Hline |].
    split; [rewrite <- Hdone; exact Hf | exact He]. }
  split; [rewrite length_map, Hdone; reflexivity |].
  split; [exact Hdone |].
  rewrite Hprog. apply imap_ext. intros i f _.
  replace (0 + Z.of_nat i + 1)%Z with (Z.of_nat i + 1)%Z by lia. reflexivity.
Qed.

Lemma reversed_completion :
  [1; 0]%nat ≡ₚ seq 0 (length Reference.two_requests).
Proof. cbn. apply perm_swap. Qed.

(** The theorem at two requests, the second for a missing file, completed
    in reverse order. *)
Lemma process_files_accounts_for_every_file_witness :
  let run :=
    BatchProcessor.process_files
      (Analyser.analyze (H := Reference.backend) Analyser.default_analyzer
         Reference.one_clip_directory)
      Reference.two_requests [1; 0]%nat in
  (length (BatchProcessor.results run)
   + length (filter is_error_line (BatchProcessor.log run)) = 2)%nat.
Proof.
  exact (proj1 (proj2
           (process_files_accounts_for_every_file (H := Reference.backend)
              Analyser.default_analyzer Reference.one_clip_directory
              Reference.two_requests [1; 0]%nat reversed_completion))).
Defined.

(** X21.  The batch loop of [batch_analyze.py], for any number of failing
    files: one outcome per file, in the order of the files and carrying
    its path, which is the error dictionary exactly for the files whose
    analysis raised; a failure never ends the loop and never removes a
    file from the report. *)
Theorem analyze_batch_keeps_every_file `{Backend} (fs : gmap string file)
    (video_files : list string) :
  let outcomes := BatchAnalyze.analyze_batch fs video_files in
  length outcomes = length video_files /\
  map BatchAnalyze.filepath_of outcomes = video_files /\
  map BatchAnalyze.is_error outcomes
  = map (fun f => bool_decide (returned (BatchAnalyze.analyses fs f) = None))
        video_files /\
  forall i f, video_files !! i = Some f ->
    outcomes !! i = Some (BatchAnalyze.analyze_video fs f).
Proof.
  intros outcomes. subst outcomes. rewrite analyze_batch_map.
  split; [apply length_map |].
  split; [rewrite map_map; rewrite <- (map_id video_files) at 2; apply map_ext;
          intros f; apply analyze_video_filepath |].
  split.
  - rewrite map_map. apply map_ext. intros f.
    rewrite analyze_video_is_error.
    destruct (BatchAnalyze.analyses fs f); reflexivity.
  - intros i f Hf. rewrite list_lookup_fmap, Hf. reflexivity.
Qed.

(** ** Per-frame records *)

Section Sampling.

Context `{Backend}.

Import Dynamics.

Lemma enumerate_app {A} (k : Z) (fs gs : list A) :
  enumerate k (fs ++ gs) = enumerate k fs ++ enumerate (k + Z.of_nat (length fs)) gs.
Proof.
  revert k. induction fs as [| f fs IH]; intros k; cbn [app enumerate length].
  - rewrite Z.add_0_r. reflexivity.
  - rewrite IH. do 3 f_equal. lia.
Qed.

(** The number of multiples of the stride below [n]. *)
Lemma strides_step (n s : Z) :
  (0 <= n)%Z -> (0 < s)%Z ->
  let c := ((n + s - 1) / s)%Z in
  (0 <= c)%Z /\
  ((n mod s = 0 -> n = c * s /\ (n + 1 + s - 1) / s = c + 1) /\
   (n mod s <> 0 -> (n + 1 + s - 1) / s = c))%Z.
Proof.
  intros Hn Hs c. subst c.
  pose proof (Z.div_mod n s ltac:(lia)) as Hdiv.
  pose proof (Z.mod_pos_bound n s Hs) as Hbound.
  assert (Hq : (0 <= n / s)%Z) by (apply Z.div_pos; lia).
  split; [apply Z.div_pos; lia |]. split.
  - intros Hmod. rewrite Hmod, Z.add_0_r in Hdiv.
    assert (Hc : ((n + s - 1) / s = n / s)%Z).
    { symmetry. apply (Z.div_unique _ _ _ (s - 1)); lia. }
    rewrite Hc. split; [lia |].
    symmetry. apply (Z.div_unique _ _ _ 0); lia.
  - intros Hmod.
    assert (Hc : ((n + s - 1) / s = n / s + 1)%Z).
    { symmetry. apply (Z.div_unique _ _ _ (n mod s - 1)); lia. }
    rewrite Hc. symmetry. apply (Z.div_unique _ _ _ (n mod s)); lia.
Qed.

(** The sampled frames are those at the multiples of the stride. *)
Lemma sampled_indices {A} (sample_rate : Z) (fs : list A) :
  (0 < sample_rate)%Z ->
  map fst (sampled sample_rate fs)
  = map (fun k => (k * sample_rate)%Z)
        (seqZ 0 ((Z.of_nat (length fs) + sample_rate - 1) / sample_rate)).
Proof.
  intros Hs. induction fs as [| f fs IH] using rev_ind.
  - cbn [length sampled enumerate]. unfold sampled. cbn [enumerate].
    rewrite filter_nil.
    replace ((Z.of_nat 0 + sample_rate - 1) / sample_rate)%Z with 0%Z;
      [reflexivity |].
    symmetry. apply Z.div_small. lia.
  - unfold sampled in *. rewrite enumerate_app, filter_app, map_app, IH.
    rewrite length_app. cbn [length enumerate].
    destruct (strides_step (Z.of_nat (length fs)) sample_rate ltac:(lia) Hs)
      as (Hc & Hzero & Hother).
    replace (Z.of_nat (length fs + 1)) with (Z.of_nat (length fs) + 1)%Z by lia.
    rewrite Z.add_0_l.
    destruct (decide ((Z.of_nat (length fs) mod sample_rate)%Z = 0%Z)) as [Hmod | Hmod].
    + rewrite filter_cons_True by exact Hmod. rewrite filter_nil. cbn [map fst].
      destruct (Hzero Hmod) as [Hn ->].
      rewrite seqZ_app by lia. rewrite map_app.
      change (seqZ (0 + ?c) 1) with [(0 + c)%Z]. cbn [map].
      do 2 f_equal. lia.
    + rewrite filter_cons_False by exact Hmod. rewrite filter_nil. cbn [map].
      rewrite (Hother Hmod), app_nil_r. reflexivity.
Qed.

Lemma sampled_count {A} (sample_rate : Z) (fs : list A) :
  (0 < sample_rate)%Z ->
  length (sampled sample_rate fs)
  = Z.to_nat ((Z.of_nat (length fs) + sample_rate - 1) / sample_rate).
Proof.
  intros Hs. rewrite <- (length_map fst), (sampled_indices _ _ Hs).
  rewrite length_map, length_seqZ. reflexivity.
Qed.

Lemma sample_frame_recorded (fps : Q) (n : Z) (f : gray) (st : sampler) :
  exists frame,
    frame_data (sample_frame fps n f st) = frame_data st ++ [frame] /\
    prev_frame (sample_frame fps n f st) = Some f /\
    recorded fps (bool_decide (prev_frame st = None)) frame (n, f).
Proof.
  unfold sample_frame. eexists. split; [reflexivity |]. split; [reflexivity |].
  unfold recorded. cbn [fst snd].
  destruct (prev_frame st) as [prev |].
  - rewrite bool_decide_eq_false_2 by discriminate.
    unfold _calculate_frame_difference, _calculate_frame_stats.
    split; [simplify_map_eq; reflexivity |].
    split; [simplify_map_eq; reflexivity |].
    split; [simplify_map_eq; reflexivity |].
    eexists. split; simplify_map_eq; reflexivity.
  - rewrite bool_decide_eq_true_2 by reflexivity.
    unfold _calculate_frame_stats.
    repeat split; simplify_map_eq; reflexivity.
Qed.

Lemma sample_fold_later (fps : Q) (l : list (Z * gray)) (st : sampler) :
  prev_frame st <> None ->
  exists new,
    frame_data (fold_left (fun st p => sample_frame fps (fst p) (snd p) st) l st)
    = frame_data st ++ new /\
    Forall2 (recorded fps false) new l.
Proof.
  revert st. induction l as [| [n f] l IH]; intros st Hprev.
  - exists []. split; [rewrite app_nil_r; reflexivity | constructor].
  - cbn [fold_left fst snd].
    destruct (sample_frame_recorded fps n f st) as (frame & Hf & Hp & Hrec).
    rewrite bool_decide_eq_false_2 in Hrec by exact Hprev.
    destruct (IH (sample_frame fps n f st)) as (new & Hnew & Hall);
      [rewrite Hp; discriminate |].
    exists (frame :: new). split.
    + rewrite Hnew, Hf, <- app_assoc. reflexivity.
    + constructor; assumption.
Qed.

Lemma sample_fold_first (fps : Q) (p : Z * gray) (l : list (Z * gray)) :
  exists first rest,
    frame_data (fold_left (fun st p => sample_frame fps (fst p) (snd p) st) (p :: l)
                  {| frame_data := []; prev_frame := None |})
    = first :: rest /\
    recorded fps true first p /\ Forall2 (recorded fps false) rest l.
Proof.
  cbn [fold_left]. destruct p as [n f]. cbn [fst snd].
  destruct (sample_frame_recorded fps n f {| frame_data := []; prev_frame := None |})
    as (frame & Hf & Hp & Hrec).
  cbn [prev_frame frame_data app] in Hf, Hrec.
  rewrite bool_decide_eq_true_2 in Hrec by reflexivity.
  destruct (sample_fold_later fps l
              (sample_frame fps n f {| frame_data := []; prev_frame := None |}))
    as (new & Hnew & Hall); [rewrite Hp; discriminate |].
  exists frame, new. rewrite Hnew, Hf. auto.
Qed.

(** The records of [per_frame_data], one per sampled frame. *)
Lemma frame_data_records (v : video) (sample_rate : Z) (k : nat)
    (frame : gmap string Q) :
  frame_data (sample_all v sample_rate) !! k = Some frame ->
  exists p,
    sampled sample_rate (frames v) !! k = Some p /\
    recorded (declared_fps v) (bool_decide (k = 0%nat)) frame p.
Proof.
  unfold sample_all. rewrite strided_loop_sampled.
  destruct (sampled sample_rate (frames v)) as [| p l]; [discriminate |].
  destruct (sample_fold_first (declared_fps v) p l)
    as (first & rest & -> & Hfirst & Hrest).
  destruct k as [| k]; cbn [lookup list_lookup].
  - intros [= <-]. exists p. auto.
  - intros Hk. destruct (Forall2_lookup_l _ _ _ _ _ Hrest Hk) as (q & Hq & Hrec).
    exists q. auto.
Qed.

Lemma frame_data_count (v : video) (sample_rate : Z) :
  length (frame_data (sample_all v sample_rate))
  = length (sampled sample_rate (frames v)).
Proof. exact (Forall2_length _ _ _ (sample_all_spec v sample_rate)). Qed.

End Sampling.

(** X22.  With a positive stride s, [analyze_frame_dynamics] on N frames
    returns ceil(N / s) per-frame records when it returns.  The k-th holds
    the frame number k * s and the time of that frame; the first has a
    frame difference and a motion intensity of 0 and no [diff_percentage]
    entry, every later one has [diff_percentage] as its frame difference
    over 255, in percent. *)
Theorem per_frame_records `{Backend} (v : video) (sample_rate : Z)
    (frame_data : list (gmap string Q)) (table : gmap Z Dynamics.second_stats) :
  (0 < sample_rate)%Z ->
  Dynamics.analyze_frame_dynamics v sample_rate = inr (frame_data, table) ->
  length frame_data
  = Z.to_nat ((Z.of_nat (length (frames v)) + sample_rate - 1) / sample_rate) /\
  forall (k : nat) (frame : gmap string Q),
    frame_data !! k = Some frame ->
    frame !! "frame_number"%string = Some (inject_Z (Z.of_nat k * sample_rate)) /\
    frame !! "timestamp"%string
    = Some (Fps.timestamp_of (declared_fps v) (Z.of_nat k * sample_rate)) /\
    (k = 0%nat ->
     frame !! "frame_diff"%string = Some 0 /\
     frame !! "motion_intensity"%string = Some 0 /\
     frame !! "diff_percentage"%string = None) /\
    (k <> 0%nat ->
     exists d,
       frame !! "frame_diff"%string = Some d /\
       frame !! "diff_percentage"%string = Some (d / 255 * 100)).
Proof.
  intros Hs Hret. apply analyze_frame_dynamics_inr in Hret as [-> _].
  split; [rewrite frame_data_count; apply sampled_count, Hs |].
  intros k frame Hk.
  destruct (frame_data_records v sample_rate k frame Hk)
    as (p & Hp & Hnum & Htime & _ & Hdiff).
  assert (Hindex : fst p = (Z.of_nat k * sample_rate)%Z).
  { assert (Hfst : map fst (sampled sample_rate (frames v)) !! k = Some (fst p))
      by (rewrite list_lookup_fmap, Hp; reflexivity).
    rewrite (sampled_indices _ _ Hs), list_lookup_fmap in Hfst.
    destruct (seqZ 0 _ !! k) as [i |] eqn:Hi; [| discriminate].
    apply lookup_seqZ in Hi as [-> _]. injection Hfst as <-. lia. }
  rewrite Hindex in Hnum, Htime.
  split; [exact Hnum |]. split; [exact Htime |]. split.
  - intros ->. exact Hdiff.
  - intros Hne. rewrite bool_decide_eq_false_2 in Hdiff by exact Hne. exact Hdiff.
Qed.

Lemma tiny_clip_dynamics :
  exists frame_data table,
    Dynamics.analyze_frame_dynamics (H := Reference.backend)
      Reference.tiny_clip 1 = inr (frame_data, table).
Proof. unfold Dynamics.analyze_frame_dynamics. cbn. eauto. Qed.

(** The theorem at the two-frame clip, every frame sampled. *)
Lemma per_frame_records_witness :
  exists frame_data table,
    Dynamics.analyze_frame_dynamics (H := Reference.backend)
      Reference.tiny_clip 1 = inr (frame_data, table) /\
    length frame_data = 2%nat.
Proof.
  destruct tiny_clip_dynamics as (frame_data & table & Hret).
  exists frame_data, table. split; [exact Hret |].
  exact (proj1 (per_frame_records (H := Reference.backend) Reference.tiny_clip 1
                  frame_data table eq_refl Hret)).
Defined.

(** ** Still videos *)

Section StillVideo.

Context `{Backend}.

Import Analyser.

Hypothesis matchTemplate_self : forall g, matchTemplate g g == 1.
Hypothesis sqrt_zero : forall x, x == 0 -> sqrt x == 0.

Variable a : VideoAnalyzer.
Hypothesis Hduplicate : duplicate_threshold a < 1.
Hypothesis Hwobble : 0 <= wobble_threshold a.

Lemma motion_still (f : gray) : _calculate_motion f f == 0.
Proof. unfold _calculate_motion. apply mean_zero, absdiff_self. Qed.

Lemma wobble_still (flow : flow_field) : _calculate_wobble flow flow == 0.
Proof.
  unfold _calculate_wobble, Py.std. apply sqrt_zero, (var_all _ 0).
  rewrite zip_with_diag. apply Forall_map, Forall_concat, Forall_fmap, Forall_forall.
  intros row _. unfold compose. rewrite zip_with_diag.
  apply Forall_fmap, Forall_forall. intros [x y] _. unfold compose.
  unfold Motion.magnitude. cbn [fst snd]. apply sqrt_zero. ring.
Qed.

Lemma no_discontinuity (scores : list Q) (m : Q) :
  Forall (fun s => s == 0) scores ->
  is_discontinuity a (scores ++ [m]) m = false.
Proof.
  intros Hzero. unfold is_discontinuity. rewrite rev_app_distr. cbn [rev app].
  destruct (rev scores) as [| prev rest] eqn:Hrev; [reflexivity |].
  assert (Hprev : prev == 0).
  { apply (proj1 (Forall_forall _ _) Hzero). apply list_elem_of_In, in_rev.
    rewrite Hrev. left. reflexivity. }
  assert (Htest : Py.gtb prev 0 = false) by (apply gtb_false; lra).
  rewrite Htest. reflexivity.
Qed.

(** What the loop holds after reading copies of one frame. *)
Lemma still_fold (f : gray) (l : list (gray * Q)) :
  Forall (fun p => fst p = f) l ->
  let st := fold_left (walk_frame a) l walker_init in
  frame_num st = Z.of_nat (length l) /\
  (prev_gray st = None <-> l = []) /\
  (forall g, prev_gray st = Some g -> g = f) /\
  (forall flow, prev_flow st = Some flow -> flow = _calculate_optical_flow f f) /\
  w_duplicate_frames st = map Z.of_nat (seq 1 (length l - 1)) /\
  Forall (fun m => m == 0) (w_motion_scores st) /\
  Forall (fun w => w == 0) (w_wobble_scores st) /\
  w_motion_discontinuities st = [] /\
  w_wobble_frames st = [].
Proof.
  induction l as [| [g pos] l IH] using rev_ind; intros Hall.
  - cbn. repeat split; try constructor; try discriminate; auto.
  - apply Forall_app in Hall as [Hall Hg].
    apply Forall_cons_1 in Hg as [Hg _]. cbn [fst] in Hg. subst g.
    specialize (IH Hall). cbv zeta in IH |- *.
    rewrite fold_left_app. cbn [fold_left].
    set (st := fold_left (walk_frame a) l walker_init) in *.
    destruct IH as (Hnum & Hnone & Hprev & Hflow & Hdup & Hms & Hws & Hmd & Hwf).
    rewrite length_app. cbn [length]. unfold walk_frame.
    destruct (prev_gray st) as [prev |] eqn:Hp;
      cbn [frame_num prev_gray prev_flow w_duplicate_frames w_motion_scores
           w_wobble_scores w_motion_discontinuities w_wobble_frames].
    + rewrite (Hprev prev eq_refl).
      assert (Hne : l <> []) by (intros Hl; apply Hnone in Hl; discriminate).
      assert (Hpos : (1 <= length l)%nat) by (destruct l; [congruence | simpl; lia]).
      split; [lia |].
      split; [split; [discriminate | intros Hl; destruct l; discriminate] |].
      split; [intros g [= <-]; reflexivity |].
      split; [intros flow [= <-]; reflexivity |].
      split.
      { assert (Hsim : Py.gtb (_calculate_similarity f f) (duplicate_threshold a) = true).
        { apply gtb_spec. unfold _calculate_similarity.
          pose proof (matchTemplate_self f). lra. }
        rewrite Hsim, Hdup, Hnum.
        replace (length l + 1 - 1)%nat with (S (length l - 1)) by lia.
        rewrite seq_S, map_app. cbn [map]. do 3 f_equal. lia. }
      split; [apply Forall_app; split;
                [exact Hms | repeat constructor; apply motion_still] |].
      split.
      { destruct (prev_flow st) as [flow |] eqn:Hpf; cbn [option_map]; [| exact Hws].
        rewrite (Hflow flow eq_refl).
        apply Forall_app. split; [exact Hws |].
        repeat constructor. apply wobble_still. }
      split; [rewrite (no_discontinuity _ _ Hms); exact Hmd |].
      destruct (prev_flow st) as [flow |] eqn:Hpf; cbn [option_map]; [| exact Hwf].
      rewrite (Hflow flow eq_refl).
      assert (Hquiet : Py.gtb (_calculate_wobble (_calculate_optical_flow f f)
                                 (_calculate_optical_flow f f))
                         (wobble_threshold a) = false).
      { apply gtb_false. pose proof (wobble_still (_calculate_optical_flow f f)). lra. }
      rewrite Hquiet. exact Hwf.
    + assert (Hl : l = []) by (apply Hnone; reflexivity).
      assert (Hlen : length l = 0%nat) by (rewrite Hl; reflexivity).
      rewrite Hlen in *. cbn [Nat.add Nat.sub seq map] in *.
      split; [lia |].
      split; [split; [discriminate | intros Hnil; destruct l; discriminate] |].
      split; [intros g [= <-]; reflexivity |].
      split; [exact Hflow |].
      repeat split; assumption.
Qed.

End StillVideo.

(** X23.  A still video, every frame a copy of one frame and each with a
    position, analysed by [VideoAnalyzer.analyze] with a duplicate
    threshold below 1 and a wobble threshold that is not negative, on a
    backend that matches a frame with itself at 1 and has a square root
    of 0 at 0: every frame after the first is reported as a duplicate,
    all motion and wobble scores are zero, and no motion discontinuity
    and no wobble frame is reported. *)
Theorem still_video_all_duplicates `{Backend} (a : Analyser.VideoAnalyzer)
    (fs : gmap string file) (video_path : string) (v : video) (f : gray)
    (result : Analyser.VideoAnalysisResult) :
  (forall g, matchTemplate g g == 1) ->
  (forall x, x == 0 -> sqrt x == 0) ->
  Analyser.duplicate_threshold a < 1 ->
  0 <= Analyser.wobble_threshold a ->
  fs !! video_path = Some (Playable v) ->
  Forall (fun g => g = f) (frames v) ->
  length (pos_msec v) = length (frames v) ->
  Analyser.analyze a fs video_path = inr result ->
  Analyser.duplicate_frames result
  = map Z.of_nat (seq 1 (length (frames v) - 1)) /\
  Forall (fun m => m == 0) (Analyser.motion_scores result) /\
  Forall (fun w => w == 0) (Analyser.wobble_scores result) /\
  Analyser.avg_motion_score result == 0 /\
  Analyser.avg_wobble_score result == 0 /\
  Analyser.motion_discontinuities result = [] /\
  Analyser.wobble_frames result = [].
Proof.
  intros Hself Hsqrt Hdup Hwob Hfile Hstill Hlen Hret.
  unfold Analyser.analyze in Hret. rewrite Hfile in Hret.
  unfold Analyser.analyze_capture in Hret.
  destruct (bool_decide _ && _); [discriminate |].
  injection Hret as <-.
  cbn [Analyser.duplicate_frames Analyser.motion_scores Analyser.wobble_scores
       Analyser.avg_motion_score Analyser.avg_wobble_score
       Analyser.motion_discontinuities Analyser.wobble_frames].
  assert (Hall : Forall (fun p : gray * Q => fst p = f) (zip (frames v) (pos_msec v))).
  { apply Forall_forall. intros [g pos] Hin. apply elem_of_zip_l in Hin.
    exact (proj1 (Forall_forall _ _) Hstill g Hin). }
  destruct (still_fold Hself Hsqrt a Hdup Hwob f _ Hall)
    as (_ & _ & _ & _ & Hd & Hms & Hws & Hmd & Hwf).
  rewrite (frames_read_length v Hlen) in Hd.
  split; [exact Hd |]. split; [exact Hms |]. split; [exact Hws |].
  split; [destruct (Analyser.w_motion_scores _) eqn:Hscores;
            [reflexivity | rewrite <- Hscores in *; apply mean_zero, Hms] |].
  split; [destruct (Analyser.w_wobble_scores _) eqn:Hscores;
            [reflexivity | rewrite <- Hscores in *; apply mean_zero, Hws] |].
  split; assumption.
Qed.

Lemma two_second_clip_is_still :
  Analyser.duplicate_threshold Analyser.default_analyzer < 1 /\
  0 <= Analyser.wobble_threshold Analyser.default_analyzer /\
  ({[ "still.mp4"%string := Playable Reference.two_second_clip ]}
     : gmap string file) !! "still.mp4"%string
  = Some (Playable Reference.two_second_clip) /\
  Forall (fun g => g = [[0%Z]]) (frames Reference.two_second_clip) /\
  length (pos_msec Reference.two_second_clip)
  = length (frames Reference.two_second_clip).
Proof.
  split; [reflexivity |]. split; [discriminate |]. split; [reflexivity |].
  split; [repeat constructor | reflexivity].
Qed.

Lemma two_second_clip_scored :
  exists result,
    Analyser.analyze (H := Reference.backend) Analyser.default_analyzer
      {[ "still.mp4"%string := Playable Reference.two_second_clip ]} "still.mp4"
    = inr result.
Proof.
  unfold Analyser.analyze.
  rewrite (proj1 (proj2 (proj2 two_second_clip_is_still))).
  destruct (analyze_capture_cases (H := Reference.backend)
              Analyser.default_analyzer "still.mp4" Reference.two_second_clip
              (proj2 (proj2 (proj2 (proj2 two_second_clip_is_still)))))
    as [[[[Hzero | Hzero] _] _] | [_ Hret]];
    [vm_compute in Hzero; discriminate .. | exact Hret].
Qed.

(** The theorem at four copies of a black frame. *)
Lemma still_video_all_duplicates_witness :
  exists result,
    Analyser.analyze (H := Reference.backend) Analyser.default_analyzer
      {[ "still.mp4"%string := Playable Reference.two_second_clip ]} "still.mp4"
    = inr result /\
    Analyser.duplicate_frames result = [1; 2; 3]%Z.
Proof.
  destruct two_second_clip_scored as [result Hret].
  destruct two_second_clip_is_still as (Hdup & Hwob & Hfile & Hstill & Hlen).
  exists result. split; [exact Hret |].
  exact (proj1 (still_video_all_duplicates (H := Reference.backend)
                  Analyser.default_analyzer _ "still.mp4"
                  Reference.two_second_clip [[0%Z]] result
                  correlation_self floor_sqrt_zero Hdup Hwob Hfile Hstill Hlen Hret)).
Defined.

(** ** Model names *)

Section ModelDetection.

Import BatchAnalyze.

Lemma lower_char_idempotent (c : ascii) : lower_char (lower_char c) = lower_char c.
Proof. destruct c as [[] [] [] [] [] [] [] []]; reflexivity. Qed.

Lemma lower_idempotent (s : string) : lower (lower s) = lower s.
Proof.
  induction s as [| c s IH]; [reflexivity |].
  cbn [lower]. rewrite lower_char_idempotent, IH. reflexivity.
Qed.

Lemma prefix_spec (k s : string) :
  String.prefix k s = true <-> exists post, s = (k ++ post)%string.
Proof.
  revert s. induction k as [| c k IH]; intros s.
  - split; [intros _; exists s; reflexivity | intros _; destruct s; reflexivity].
  - destruct s as [| d s]; cbn [String.prefix];
      [split; [discriminate | intros [post Hs]; discriminate] |].
    destruct (Ascii.ascii_dec c d) as [-> | Hne].
    + rewrite IH. split; intros [post Hs]; exists post.
      * rewrite Hs. reflexivity.
      * change (String d k +:+ post) with (String d (k +:+ post)) in Hs.
        congruence.
    + split; [discriminate |]. intros [post Hs].
      change (String c k +:+ post) with (String c (k +:+ post)) in Hs.
      congruence.
Qed.

(** [keyword in s]: [s] holds the keyword between two strings. *)
Lemma contains_spec (k s : string) :
  contains k s = true <-> exists pre post, s = (pre ++ k ++ post)%string.
Proof.
  induction s as [| c s IH]; cbn [contains].
  - rewrite orb_false_r, prefix_spec. split.
    + intros [post Hs]. exists EmptyString, post. exact Hs.
    + intros (pre & post & Hs). destruct pre; [eauto | discriminate].
  - rewrite orb_true_iff, prefix_spec, IH. split.
    + intros [[post Hs] | (pre & post & Hs)].
      * exists EmptyString, post. exact Hs.
      * exists (String c pre), post. rewrite Hs. reflexivity.
    + intros ([| d pre] & post & Hs).
      * left. exists post. exact Hs.
      * right. exists pre, post.
        change (String d pre +:+ k +:+ post)
          with (String d (pre +:+ k +:+ post)) in Hs.
        congruence.
Qed.

(** The first entry of the table with a keyword in the name decides. *)
Lemma first_match (test : string * list string -> bool)
    (table : list (string * list string)) (i : nat) (entry : string * list string) :
  table !! i = Some entry -> test entry = true ->
  exists j entry',
    (j <= i)%nat /\ table !! j = Some entry' /\
    match filter (fun mk => test mk = true) table with
    | (model, _) :: _ => model
    | [] => "未知"%string
    end = fst entry'.
Proof.
  revert i. induction table as [| head table IH]; intros i Hi Htest; [discriminate |].
  rewrite filter_cons. destruct (decide (test head = true)) as [Hhead | Hhead].
  - exists 0%nat, head. destruct head. split; [lia | auto].
  - destruct i as [| i]; [injection Hi as ->; contradiction |].
    destruct (IH i Hi Htest) as (j & entry' & Hj & Hentry & Hmodel).
    exists (S j), entry'. split; [lia | auto].
Qed.

Lemma no_match (test : string * list string -> bool)
    (table : list (string * list string)) :
  Forall (fun mk => fst mk <> "未知"%string) table ->
  match filter (fun mk => test mk = true) table with
  | (model, _) :: _ => model
  | [] => "未知"%string
  end = "未知"%string <->
  Forall (fun mk => test mk = false) table.
Proof.
  induction 1 as [| [model ks] table Hname _ IH]; [cbn; split; [constructor | reflexivity] |].
  rewrite filter_cons, Forall_cons.
  destruct (decide (test (model, ks) = true)) as [Hhead | Hhead].
  - cbn [fst] in Hname. split; [congruence | intros [Hfalse _]; congruence].
  - apply not_true_is_false in Hhead. rewrite IH. tauto.
Qed.

End ModelDetection.

(** X24.  [detect_model_from_filename] ignores the case of the ASCII
    letters of the name.  When the lower-cased name holds a keyword of
    the i-th model of [MODEL_KEYWORDS], the answer is that model or one
    listed before it; a name holding [jim] is therefore always assigned
    the first model.  The answer is the unknown model exactly when the
    lower-cased name holds no keyword of the table. *)
Theorem model_detection (filename : string) :
  let detect := BatchAnalyze.detect_model_from_filename in
  let name := BatchAnalyze.lower filename in
  detect name = detect filename /\
  (forall i model keywords keyword pre post,
     BatchAnalyze.MODEL_KEYWORDS !! i = Some (model, keywords) ->
     keyword ∈ keywords ->
     name = (pre ++ keyword ++ post)%string ->
     exists j model' keywords',
       (j <= i)%nat /\
       BatchAnalyze.MODEL_KEYWORDS !! j = Some (model', keywords') /\
       detect filename = model') /\
  (forall pre post,
     name = (pre ++ "jim" ++ post)%string -> detect filename = "即梦"%string) /\
  (detect filename = "未知"%string <->
   forall model keywords keyword pre post,
     (model, keywords) ∈ BatchAnalyze.MODEL_KEYWORDS ->
     keyword ∈ keywords ->
     name <> (pre ++ keyword ++ post)%string).
Proof.
  intros detect name. subst detect.
  set (test := fun mk : string * list string =>
                 existsb (fun keyword => BatchAnalyze.contains keyword name) (snd mk)).
  assert (Htest : forall model keywords keyword pre post,
            keyword ∈ keywords -> name = (pre ++ keyword ++ post)%string ->
            test (model, keywords) = true).
  { intros model keywords keyword pre post Hin Hname. subst test. cbn [snd].
    apply existsb_exists. exists keyword.
    split; [apply list_elem_of_In, Hin |].
    apply contains_spec. eauto. }
  assert (Hdecides : forall i model keywords keyword pre post,
            BatchAnalyze.MODEL_KEYWORDS !! i = Some (model, keywords) ->
            keyword ∈ keywords ->
            name = (pre ++ keyword ++ post)%string ->
            exists j model' keywords',
              (j <= i)%nat /\
              BatchAnalyze.MODEL_KEYWORDS !! j = Some (model', keywords') /\
              BatchAnalyze.detect_model_from_filename filename = model').
  { intros i model keywords keyword pre post Hi Hin Hname.
    destruct (first_match test BatchAnalyze.MODEL_KEYWORDS i (model, keywords) Hi
                (Htest model keywords keyword pre post Hin Hname))
      as (j & [model' keywords'] & Hj & Hentry & Hmodel).
    exists j, model', keywords'. auto. }
  split; [| split; [exact Hdecides | split]].
  - unfold BatchAnalyze.detect_model_from_filename. subst name.
    rewrite lower_idempotent. reflexivity.
  - intros pre post Hname.
    destruct (Hdecides 0%nat "即梦"%string ["jimeng"; "jim"; "即梦"]%string
                "jim"%string pre post eq_refl)
      as (j & model' & keywords' & Hj & Hentry & Hmodel);
      [right; left | exact Hname |].
    assert (j = 0%nat) by lia. subst j. injection Hentry as <- _. exact Hmodel.
  - pose proof (no_match test BatchAnalyze.MODEL_KEYWORDS
                  ltac:(repeat constructor; discriminate)) as Hno.
    transitivity (Forall (fun mk => test mk = false) BatchAnalyze.MODEL_KEYWORDS);
      [exact Hno |].
    rewrite Forall_forall. split.
    + intros Hnone model keywords keyword pre post Hentry Hin Hname.
      specialize (Hnone _ Hentry).
      rewrite (Htest model keywords keyword pre post Hin Hname) in Hnone.
      discriminate.
    + intros Hnone [model keywords] Hentry. apply not_true_iff_false.
      intros Hmatch. subst test. cbn [snd] in Hmatch.
      apply existsb_exists in Hmatch as (keyword & Hin & Hcontains).
      apply contains_spec in Hcontains as (pre & post & Hname).
      apply list_elem_of_In in Hin.
      exact (Hnone model keywords keyword pre post Hentry Hin Hname).
Qed.
